(** * tg-weather-bot: a shallow embedding of [weather_bot.py]

    The bot reads JSON forecasts from a weather provider, turns them into a
    textual report (rain periods, air quality, suggestions), keeps a
    per-recipient list of locations in module-level state mirrored to
    [config.ini], and answers Telegram commands.

    The embedding follows the Python source function by function.  JSON
    documents are dynamically typed values, and the Python operations used on
    them ([.get], [[0]], [[key]], truthiness, comparison with a number,
    [for ... in]) raise the exception Python raises when applied to a value of
    the wrong type.  Module-level state ([user_locations],
    [WHITELISTED_USERS], [config]) is threaded explicitly; an exception leaves
    the state as mutated so far, as in Python. *)

From Stdlib Require Import List String Ascii ZArith QArith Bool Lia.
From Stdlib Require Import DecimalString.
Import ListNotations.

Set Warnings "-register-all".

Local Open Scope list_scope.
Local Open Scope string_scope.

(** ** Python values and exceptions *)

(** The exceptions that the modelled code can raise.  In Python
    [UnicodeEncodeError] is a subclass of [ValueError]; the one
    [except ValueError] of the program is around [strptime], where it
    cannot occur.  [InterpolationError] stands for the errors of
    [configparser]'s interpolation, [SystemExit] for [exit(1)]. *)
Inductive exn : Type :=
| AttributeError
| TypeError
| IndexError
| KeyError
| ValueError
| UnicodeEncodeError
| OverflowError
| OSError
| NoSectionError
| InterpolationError
| SystemExit
| TelegramError.

(** The outcome of evaluating a Python expression. *)
Inductive result (A : Type) : Type :=
| Ok (a : A)
| Raise (e : exn).

Arguments Ok {A} a.
Arguments Raise {A} e.

Definition rbind {A B : Type} (r : result A) (k : A -> result B) : result B :=
  match r with
  | Ok a => k a
  | Raise e => Raise e
  end.

Declare Scope result_scope.
Delimit Scope result_scope with result.
Notation "x <- r ;; k" := (rbind r (fun x => k))
  (at level 61, r at next level, right associativity) : result_scope.

(** What [response.json()] returns: [None], [bool], [int], [float], [str],
    [list] and [dict] with string keys.  A finite float is the rational it
    denotes (Python compares a float with an int by value); a dict is the
    list of its items in insertion order, keys pairwise distinct. *)
Inductive json : Type :=
| JNull
| JBool (b : bool)
| JInt (z : Z)
| JFloat (q : Q)
| JStr (s : string)
| JArr (l : list json)
| JObj (kvs : list (string * json)).

(** [l.append(x)]. *)
Definition list_append {A : Type} (l : list A) (x : A) : list A :=
  (l ++ [x])%list.

(** Lookup in a list of items. *)
Fixpoint assoc {V : Type} (k : string) (kvs : list (string * V)) : option V :=
  match kvs with
  | [] => None
  | (k', v) :: rest => if String.eqb k k' then Some v else assoc k rest
  end.

(** [d.get(k, default)]: only a dict has the method. *)
Definition dict_get (d : json) (k : string) (default : json) : result json :=
  match d with
  | JObj kvs =>
      match assoc k kvs with
      | Some v => Ok v
      | None => Ok default
      end
  | _ => Raise AttributeError
  end.

(** [v[0]]. *)
Definition subscript0 (v : json) : result json :=
  match v with
  | JArr [] => Raise IndexError
  | JArr (x :: _) => Ok x
  | JStr EmptyString => Raise IndexError
  | JStr (String c _) => Ok (JStr (String c EmptyString))
  | JObj _ => Raise KeyError
  | _ => Raise TypeError
  end.

(** [v[k]] for a string key [k]. *)
Definition subscript_key (v : json) (k : string) : result json :=
  match v with
  | JObj kvs =>
      match assoc k kvs with
      | Some x => Ok x
      | None => Raise KeyError
      end
  | _ => Raise TypeError
  end.

(** Truth value of a Python object. *)
Definition truthy (v : json) : bool :=
  match v with
  | JNull => false
  | JBool b => b
  | JInt z => negb (Z.eqb z 0)
  | JFloat q => negb (Qeq_bool q 0)
  | JStr s => negb (String.eqb s EmptyString)
  | JArr l => match l with [] => false | _ => true end
  | JObj kvs => match kvs with [] => false | _ => true end
  end.

(** The numeric value of [bool], [int] and [float]; nothing else compares
    with a number. *)
Definition num_val (v : json) : option Q :=
  match v with
  | JBool b => Some (if b then 1 else 0)%Q
  | JInt z => Some (inject_Z z)
  | JFloat q => Some q
  | _ => None
  end.

(** Strict "less than" on rationals, as a boolean. *)
Definition Qlt_bool (a b : Q) : bool := negb (Qle_bool b a).

(** [v <= n] and [v > n] for an integer literal [n]. *)
Definition py_le (v : json) (n : Z) : result bool :=
  match num_val v with
  | Some q => Ok (Qle_bool q (inject_Z n))
  | None => Raise TypeError
  end.

Definition py_gt (v : json) (n : Z) : result bool :=
  match num_val v with
  | Some q => Ok (Qlt_bool (inject_Z n) q)
  | None => Raise TypeError
  end.

(** The characters of a string, each as a one-character string. *)
Fixpoint chars (s : string) : list json :=
  match s with
  | EmptyString => []
  | String c rest => JStr (String c EmptyString) :: chars rest
  end.

(** The items that [for x in v] visits. *)
Definition py_iter (v : json) : result (list json) :=
  match v with
  | JArr l => Ok l
  | JObj kvs => Ok (map (fun kv => JStr (fst kv)) kvs)
  | JStr s => Ok (chars s)
  | _ => Raise TypeError
  end.

(** [f"{x}"] for a variable that holds [None] or a string. *)
Definition fmt_opt (o : option string) : string :=
  match o with
  | Some s => s
  | None => "None"
  end.

(** The line feed. *)
Definition nl : string := String (ascii_of_nat 10) EmptyString.

(** [str(z)] for an integer. *)
Definition str_of_Z (z : Z) : string := NilEmpty.string_of_int (Z.to_int z).

(** Membership of a string in a list of strings ([x in l]). *)
Definition str_in (x : string) (l : list string) : bool :=
  existsb (String.eqb x) l.

(** [s.split(',')]. *)
Fixpoint split_comma_aux (s : string) (field : string) : list string :=
  match s with
  | EmptyString => [field]
  | String c rest =>
      if Ascii.eqb c ","%char
      then field :: split_comma_aux rest EmptyString
      else split_comma_aux rest (field ++ String c EmptyString)
  end.

Definition split_comma (s : string) : list string :=
  split_comma_aux s EmptyString.

(** [d[k] = v] on a dict: a present key keeps its place, a new key goes
    last. *)
Fixpoint assoc_set {V : Type} (k : string) (v : V) (kvs : list (string * V))
  : list (string * V) :=
  match kvs with
  | [] => [(k, v)]
  | (k', v') :: rest =>
      if String.eqb k k' then (k, v) :: rest
      else (k', v') :: assoc_set k v rest
  end.

(** [del d[k]] when the key is present. *)
Fixpoint assoc_remove {V : Type} (k : string) (kvs : list (string * V))
  : list (string * V) :=
  match kvs with
  | [] => []
  | (k', v') :: rest =>
      if String.eqb k k' then rest else (k', v') :: assoc_remove k rest
  end.

(** [d.setdefault(k, v)], the dict afterwards. *)
Definition assoc_setdefault {V : Type} (k : string) (v : V)
  (kvs : list (string * V)) : list (string * V) :=
  match assoc k kvs with
  | Some _ => kvs
  | None => list_append kvs (k, v)
  end.

(** ** An instance of the host's clock formatting

    [datetime.fromtimestamp(t).strftime('%I:%M %p')] depends on the time zone
    of the host.  The development is parametric in it; this instance, used in
    the examples, is a host in UTC on integer epochs. *)

Definition digit (n : Z) : string :=
  String (ascii_of_nat (48 + Z.to_nat n)) EmptyString.

Definition two_digits (n : Z) : string :=
  digit (n / 10) ++ digit (n mod 10).

Definition strftime_utc (t : json) : result string :=
  match t with
  | JInt z =>
      let secs := (z mod 86400)%Z in
      let h := (secs / 3600)%Z in
      let m := ((secs mod 3600) / 60)%Z in
      let h12 := (if (h mod 12 =? 0)%Z then 12 else h mod 12)%Z in
      Ok (two_digits h12 ++ ":" ++ two_digits m ++ " "
          ++ (if (h <? 12)%Z then "AM" else "PM"))
  | _ => Raise TypeError
  end.

(** ** Report formatting *)

Section Report.

(** [datetime.fromtimestamp(t).strftime('%I:%M %p')]. *)
Variable strftime_local : json -> result string.

(** [repr] of a float, a list or a dict, which is how an f-string renders
    them. *)
Variable py_repr : json -> string.

Local Open Scope result_scope.

(** *** [get_rain_forecast] *)

(** The loop variables [rain_periods], [is_raining], [start_time]. *)
Record rain_state : Type := mkRain {
  rain_periods : list string;
  is_raining : bool;
  start_time : option string
}.

(** One iteration of the loop over the hourly samples. *)
Definition rain_step (st : rain_state) (hour : json) : result rain_state :=
  w <- dict_get hour "will_it_rain" JNull ;;
  if truthy w && negb (is_raining st) then
    t <- subscript_key hour "time_epoch" ;;
    s <- strftime_local t ;;
    Ok (mkRain (rain_periods st) true (Some s))
  else if negb (truthy w) && is_raining st then
    t <- subscript_key hour "time_epoch" ;;
    end_time <- strftime_local t ;;
    Ok (mkRain
          (list_append (rain_periods st)
             ("from " ++ fmt_opt (start_time st) ++ " to " ++ end_time))
          false (start_time st))
  else Ok st.

Fixpoint rain_loop (hours : list json) (st : rain_state) : result rain_state :=
  match hours with
  | [] => Ok st
  | hour :: rest =>
      st' <- rain_step st hour ;;
      rain_loop rest st'
  end.

Definition get_rain_forecast (forecast : json) : result string :=
  days <- dict_get forecast "forecastday" (JArr [JObj []]) ;;
  day0 <- subscript0 days ;;
  hs <- dict_get day0 "hour" (JArr []) ;;
  hours <- py_iter hs ;;
  st <- rain_loop hours (mkRain [] false None) ;;
  let periods :=
    if is_raining st
    then list_append (rain_periods st)
           ("from " ++ fmt_opt (start_time st) ++ " onwards")
    else rain_periods st in
  match periods with
  | [] => Ok "No rain expected today."
  | _ => Ok ("Rain expected " ++ String.concat ", " periods ++ ".")
  end.

(** *** [get_suggestions] *)

Definition umbrella_advice : string :=
  "Light drizzle or rain is possible—consider carrying an umbrella.".
Definition good_air_note : string :=
  "Air quality is good—a great day for outdoor activities.".
Definition poor_air_caution : string :=
  "Air quality is poor—it may be wise to limit strenuous outdoor activities.".
Definition high_uv_warning : string :=
  "UV index is high—use sunscreen and wear protective clothing if outdoors.".
Definition moderate_uv_note : string :=
  "UV index is moderate—use sunscreen if staying outdoors for extended periods.".
Definition enjoy_fallback : string := "- Enjoy your day!".

(** [forecast.get('forecastday', [{}])[0].get(k, {})]. *)
Definition first_day_field (forecast : json) (k : string) : result json :=
  days <- dict_get forecast "forecastday" (JArr [JObj []]) ;;
  day0 <- subscript0 days ;;
  dict_get day0 k (JObj []).

(** The condition of the first [if]: [a or b > 40], where [or] evaluates
    its right operand only when the left one is false. *)
Definition umbrella_condition (day_forecast : json) : result bool :=
  will <- dict_get day_forecast "daily_will_it_rain" JNull ;;
  if truthy will then Ok true
  else
    chance <- dict_get day_forecast "daily_chance_of_rain" (JInt 0) ;;
    py_gt chance 40.

(** The list [suggestions] when the function reaches its [return]. *)
Definition suggestions_list (current forecast : json) : result (list string) :=
  let suggestions := [] in
  day_forecast <- first_day_field forecast "day" ;;
  umbrella <- umbrella_condition day_forecast ;;
  let suggestions :=
    if umbrella then list_append suggestions umbrella_advice
    else suggestions in
  air <- dict_get current "air_quality" (JObj []) ;;
  aqi <- dict_get air "us-epa-index" (JInt 0) ;;
  good <- py_le aqi 2 ;;
  let suggestions :=
    if good then list_append suggestions good_air_note
    else list_append suggestions poor_air_caution in
  uv_index <- dict_get current "uv" (JInt 0) ;;
  high <- py_gt uv_index 5 ;;
  if high then Ok (list_append suggestions high_uv_warning)
  else
    moderate <- py_gt uv_index 2 ;;
    if moderate then Ok (list_append suggestions moderate_uv_note)
    else Ok suggestions.

(** ["\n".join(f"- {s}" for s in suggestions)]. *)
Definition bullet_lines (suggestions : list string) : string :=
  String.concat nl (map (fun s => "- " ++ s) suggestions).

(** [x or y] on strings. *)
Definition str_or (x y : string) : string :=
  if String.eqb x EmptyString then y else x.

Definition get_suggestions (current forecast : json) : result string :=
  suggestions <- suggestions_list current forecast ;;
  Ok (str_or (bullet_lines suggestions) enjoy_fallback).

(** *** [format_weather_report] *)

(** [f"{v}"]. *)
Definition py_str (v : json) : string :=
  match v with
  | JNull => "None"
  | JBool true => "True"
  | JBool false => "False"
  | JInt z => str_of_Z z
  | JStr s => s
  | _ => py_repr v
  end.

(** [aqi_levels.get(aqi_index, 'Unknown')]: a list or a dict is not
    hashable; [True] and [2.0] are the keys [1] and [2]. *)
Definition aqi_levels_get (aqi_index : json) : result string :=
  match aqi_index with
  | JArr _ | JObj _ => Raise TypeError
  | _ =>
      match num_val aqi_index with
      | Some q =>
          if Qeq_bool q 1 then Ok "Good"
          else if Qeq_bool q 2 then Ok "Moderate"
          else if Qeq_bool q 3 then Ok "Unhealthy for Sensitive Groups"
          else if Qeq_bool q 4 then Ok "Unhealthy"
          else if Qeq_bool q 5 then Ok "Very Unhealthy"
          else if Qeq_bool q 6 then Ok "Hazardous"
          else Ok "Unknown"
      | None => Ok "Unknown"
      end
  end.

(** [d.get(k)], rendered. *)
Definition get_str (d : json) (k : string) : result string :=
  v <- dict_get d k JNull ;;
  Ok (py_str v).

Definition format_weather_report (city : string) (weather_data : json)
  : result string :=
  current <- dict_get weather_data "current" (JObj []) ;;
  forecast <- dict_get weather_data "forecast" (JObj []) ;;
  astro <- first_day_field forecast "astro" ;;
  aqi_data <- dict_get current "air_quality" (JObj []) ;;
  aqi_index <- dict_get aqi_data "us-epa-index" (JInt 0) ;;
  aqi_desc <- aqi_levels_get aqi_index ;;
  condition <- dict_get current "condition" (JObj []) ;;
  text <- get_str condition "text" ;;
  temp_c <- get_str current "temp_c" ;;
  feelslike_c <- get_str current "feelslike_c" ;;
  humidity <- get_str current "humidity" ;;
  wind_kph <- get_str current "wind_kph" ;;
  wind_dir <- get_str current "wind_dir" ;;
  uv <- get_str current "uv" ;;
  vis_km <- get_str current "vis_km" ;;
  rain <- get_rain_forecast forecast ;;
  suggestions <- get_suggestions current forecast ;;
  Ok ("**Weather Update for " ++ city ++ "**" ++ nl
      ++ "_" ++ text ++ "_" ++ nl ++ nl
      ++ "*Temperature*: " ++ temp_c ++ "°C (Feels like: " ++ feelslike_c
      ++ "°C)" ++ nl
      ++ "*Humidity*: " ++ humidity ++ "% | *Wind*: " ++ wind_kph ++ " km/h "
      ++ wind_dir ++ nl
      ++ "*UV Index*: " ++ uv ++ " | *Visibility*: " ++ vis_km ++ " km"
      ++ nl ++ nl
      ++ "**Rain Forecast**" ++ nl ++ rain ++ nl ++ nl
      ++ "**Air & Light**" ++ nl
      ++ "*Air Quality*: " ++ py_str aqi_index ++ " - " ++ aqi_desc
      ++ nl ++ nl
      ++ "**Suggestions for the Day**" ++ nl ++ suggestions).

End Report.

(** ** The bot: module state, the outside world, handlers *)

(** The [ConfigParser] object: the options of [DEFAULT] and the other
    sections in the order of the file, each the list of its options with
    their stored values, as written in the file (not interpolated).  An
    option name is stored as [optionxform] returns it, lower-cased; the
    names of the options of a section are pairwise distinct. *)
Record config_parser : Type := mkConfig {
  default_options : list (string * string);
  sections : list (string * list (string * string))
}.

(** The stored options of a section, when the parser has the section. *)
Definition section_options (c : config_parser) (section : string)
  : option (list (string * string)) :=
  assoc section (sections c).

(** The section [LOCATIONS], which [config.ini] may lack. *)
Definition locations_section (c : config_parser)
  : option (list (string * string)) :=
  section_options c "LOCATIONS".

(** The parser with the options of one section replaced. *)
Definition set_section (section : string) (items : list (string * string))
  (c : config_parser) : config_parser :=
  mkConfig (default_options c) (assoc_set section items (sections c)).

(** The options that a section shows: its own before those of [DEFAULT]. *)
Definition visible_options (c : config_parser) (section : string)
  : option (list (string * string)) :=
  match section_options c section with
  | Some items => Some (items ++ default_options c)%list
  | None => None
  end.

(** What happens when [update_config_file] opens and writes [config.ini]:
    the file is written; it cannot be opened; the write breaks off with an
    I/O error; or a character cannot be encoded in the encoding of the
    locale, the file being opened without [encoding=]. *)
Inductive file_outcome : Type :=
| Written
| OpenFails
| WriteFails
| EncodeFails.

(** What the program does to the outside, in order. *)
Inductive event : Type :=
| Fetched (city : string) (days : Z)
| FetchedHistory (city date : string)
| Message (chat : string) (text : string) (markdown : bool) (delivered : bool)
| Saved (outcome : file_outcome).

(** The module-level variables, the file [config.ini] as the options it
    holds ([None] once a write broke off half-way), the events so far and
    their number. *)
Record world : Type := mkWorld {
  WHITELISTED_USERS : list string;
  ADMINS : list string;
  user_locations : list (string * list string);
  config : config_parser;
  config_ini : option config_parser;
  trace : list event;
  clock : nat
}.

(** Library functions of the Python host. *)
Record pylib : Type := mkLib {
  (** [str.lower] *)
  lower : string -> string;
  (** [str.strip] *)
  strip : string -> string;
  (** [datetime.fromtimestamp(t).strftime('%I:%M %p')] *)
  strftime_local : json -> result string;
  (** [repr] of floats, lists and dicts *)
  py_repr : json -> string;
  (** whether [ConfigParser.set] accepts the value (its interpolation
      syntax check) *)
  before_set_ok : string -> bool;
  (** [BasicInterpolation.before_get]: what reading an option returns for
      its stored value, given the options that the section shows;
      [InterpolationError] for a reference that cannot be resolved *)
  before_get : list (string * string) -> string -> result string;
  (** the parser after [config.read('config.ini')] on the file that
      [config.write] produced from a parser *)
  config_read : config_parser -> result config_parser;
  (** [datetime.strptime(s, '%Y-%m-%d').date()] as a day number, [None]
      for [ValueError] *)
  strptime_date : string -> option Z
}.

(** What the outside answers to the [n]-th call made to it. *)
Record outside : Type := mkOutside {
  (** the value [get_weather] returns: the JSON body, or [None] after a
      [RequestException] *)
  weather_response : nat -> string -> Z -> json;
  (** the same for [get_historical_weather] *)
  history_response : nat -> string -> string -> json;
  (** whether the transport raises [TelegramError] *)
  transport_fails : nat -> bool;
  (** opening and writing [config.ini] *)
  file_write : nat -> file_outcome;
  (** [datetime.now().date()] as a day number *)
  today : nat -> Z
}.

(** An incoming command: [str(update.message.from_user.id)] and
    [update.message.chat_id]. *)
Record update : Type := mkUpdate {
  from_user_id : string;
  chat_id : string
}.

(** Computations on the world that may raise; the world keeps what was done
    before the exception. *)
Definition M (A : Type) : Type := world -> world * result A.

Definition ret {A : Type} (a : A) : M A := fun w => (w, Ok a).

Definition raise {A : Type} (e : exn) : M A := fun w => (w, Raise e).

Definition bind {A B : Type} (m : M A) (k : A -> M B) : M B :=
  fun w =>
    match m w with
    | (w', Ok a) => k a w'
    | (w', Raise e) => (w', Raise e)
    end.

Definition lift {A : Type} (r : result A) : M A := fun w => (w, r).

Definition read {A : Type} (f : world -> A) : M A := fun w => (w, Ok (f w)).

Definition modify (f : world -> world) : M unit := fun w => (f w, Ok tt).

(** [try: m except e: pass]. *)
Definition except_pass (caught : exn -> bool) (m : M unit) : M unit :=
  fun w =>
    match m w with
    | (w', Raise e) => if caught e then (w', Ok tt) else (w', Raise e)
    | r => r
    end.

Declare Scope bot_scope.
Delimit Scope bot_scope with bot.
Notation "x <- c ;; k" := (bind c (fun x => k))
  (at level 61, c at next level, right associativity) : bot_scope.
Notation "c ;; k" := (bind c (fun _ => k))
  (at level 61, right associativity) : bot_scope.

(** [for x in l: body(x)]. *)
Fixpoint for_each {A : Type} (l : list A) (body : A -> M unit) : M unit :=
  match l with
  | [] => ret tt
  | x :: rest => bind (body x) (fun _ => for_each rest body)
  end.

Definition is_telegram_error (e : exn) : bool :=
  match e with
  | TelegramError => true
  | _ => false
  end.

(** Appends an event and counts it. *)
Definition record_event (e : event) (w : world) : world :=
  mkWorld (WHITELISTED_USERS w) (ADMINS w) (user_locations w) (config w)
    (config_ini w) (list_append (trace w) e) (S (clock w)).

Definition set_whitelist (l : list string) (w : world) : world :=
  mkWorld l (ADMINS w) (user_locations w) (config w) (config_ini w)
    (trace w) (clock w).

Definition set_locations (d : list (string * list string)) (w : world)
  : world :=
  mkWorld (WHITELISTED_USERS w) (ADMINS w) d (config w) (config_ini w)
    (trace w) (clock w).

Definition set_config (c : config_parser) (w : world) : world :=
  mkWorld (WHITELISTED_USERS w) (ADMINS w) (user_locations w) c
    (config_ini w) (trace w) (clock w).

Definition set_config_ini (f : option config_parser) (w : world) : world :=
  mkWorld (WHITELISTED_USERS w) (ADMINS w) (user_locations w) (config w) f
    (trace w) (clock w).

Section Bot.

Variable L : pylib.
Variable E : outside.

Local Open Scope bot_scope.

(** [get_weather(city, WEATHERAPI_KEY, days)]: the request and the value
    returned, [None] when the request failed. *)
Definition get_weather (city : string) (days : Z) : M json :=
  fun w =>
    (record_event (Fetched city days) w,
     Ok (weather_response E (clock w) city days)).

Definition get_historical_weather (city date : string) : M json :=
  fun w =>
    (record_event (FetchedHistory city date) w,
     Ok (history_response E (clock w) city date)).

(** [bot.send_message] and [update.message.reply_text]. *)
Definition transport_send (chat text : string) (markdown : bool) : M unit :=
  fun w =>
    if transport_fails E (clock w)
    then (record_event (Message chat text markdown false) w,
          Raise TelegramError)
    else (record_event (Message chat text markdown true) w, Ok tt).

Definition send_telegram_message (chat message : string) : M unit :=
  except_pass is_telegram_error (transport_send chat message true).

Definition reply_text (u : update) (text : string) (markdown : bool)
  : M unit :=
  transport_send (chat_id u) text markdown.

Definition send_weather_report (chat city : string) : M unit :=
  weather_data <- get_weather city 3 ;;
  if truthy weather_data then
    report <- lift (format_weather_report (strftime_local L) (py_repr L)
                      city weather_data) ;;
    send_telegram_message chat report
  else
    send_telegram_message chat
      ("Could not retrieve weather for " ++ city ++ ".").

Definition scheduled_weather_update : M unit :=
  items <- read user_locations ;;
  for_each items (fun item =>
    let user_id := fst item in
    let locations := snd item in
    whitelist <- read WHITELISTED_USERS ;;
    if str_in user_id whitelist
    then for_each locations (fun city => send_weather_report user_id city)
    else ret tt).

Definition start_message : string :=
  "**Welcome to the Advanced Weather Bot!**" ++ nl ++ nl
  ++ "**/weather [city]**: Get current weather. Shows all your locations if no city is specified."
  ++ nl
  ++ "**/add <city>**: Add a city to your daily alert list." ++ nl
  ++ "**/remove <city>**: Remove a city from your list." ++ nl
  ++ "**/list**: View your list of registered locations." ++ nl
  ++ "**/help**: Show this help message.".

Definition start_command (u : update) (args : list string) : M unit :=
  reply_text u start_message true.

(** [' '.join(args)]. *)
Definition join_args (args : list string) : string := String.concat " " args.

(** [d.get(k, [])] on [user_locations]. *)
Definition locations_of (user_id : string) (d : list (string * list string))
  : list string :=
  match assoc user_id d with
  | Some l => l
  | None => []
  end.

Definition weather_command (u : update) (args : list string) : M unit :=
  let user_id := from_user_id u in
  whitelist <- read WHITELISTED_USERS ;;
  if negb (str_in user_id whitelist) then ret tt
  else
    d <- read user_locations ;;
    let cities :=
      match args with
      | [] => locations_of user_id d
      | _ => [join_args args]
      end in
    match cities with
    | [] =>
        reply_text u "Please specify a city or add one with /add <city>."
          false
    | _ => for_each cities (fun city => send_weather_report (chat_id u) city)
    end.

Definition history_command (u : update) (args : list string) : M unit :=
  let user_id := from_user_id u in
  whitelist <- read WHITELISTED_USERS ;;
  if negb (str_in user_id whitelist) then ret tt
  else
    match args with
    | date_str :: ((_ :: _) as rest) =>
        let city := join_args rest in
        match strptime_date L date_str with
        | None =>
            reply_text u "Invalid date format. Please use YYYY-MM-DD." false
        | Some date =>
            now <- read (fun w => today E (clock w)) ;;
            if (now <? date)%Z then
              reply_text u "Cannot get history for a future date." false
            else
              hist_data <- get_historical_weather city date_str ;;
              if negb (truthy hist_data) then
                reply_text u
                  ("Could not get history for " ++ city ++ " on "
                   ++ date_str ++ ".") false
              else
                message <- lift (
                  forecast <- dict_get hist_data "forecast" (JObj []) ;;
                  day_data <- first_day_field forecast "day" ;;
                  condition <- dict_get day_data "condition" (JObj []) ;;
                  text <- get_str (py_repr L) condition "text" ;;
                  maxtemp <- get_str (py_repr L) day_data "maxtemp_c" ;;
                  mintemp <- get_str (py_repr L) day_data "mintemp_c" ;;
                  avgtemp <- get_str (py_repr L) day_data "avgtemp_c" ;;
                  precip <- get_str (py_repr L) day_data "totalprecip_mm" ;;
                  Ok ("**Historical Weather for " ++ city ++ " on "
                      ++ date_str ++ "**" ++ nl
                      ++ "- *Condition*: " ++ text ++ nl
                      ++ "- *Max Temp*: " ++ maxtemp ++ "°C" ++ nl
                      ++ "- *Min Temp*: " ++ mintemp ++ "°C" ++ nl
                      ++ "- *Avg Temp*: " ++ avgtemp ++ "°C" ++ nl
                      ++ "- *Total Precip*: " ++ precip ++ " mm"))%result ;;
                reply_text u message true
        end
    | _ => reply_text u "Usage: /history <YYYY-MM-DD> <city>" false
    end.

(** *** Location and user management *)

(** The value check of [config.set]: a non-empty value goes through the
    interpolation syntax check. *)
Definition check_value (value : string) : result unit :=
  if negb (String.eqb value EmptyString) && negb (before_set_ok L value)
  then Raise ValueError
  else Ok tt.

(** [config.set(section, option, value)], [key] being
    [optionxform(option)]: the value is checked before the section is
    looked up. *)
Definition config_set (section key value : string) (c : config_parser)
  : result config_parser :=
  (_ <- check_value value ;;
   match section_options c section with
   | None => Raise NoSectionError
   | Some items => Ok (set_section section (assoc_set key value items) c)
   end)%result.

(** [config.has_option(section, option)]: the option is in the section or
    in [DEFAULT]. *)
Definition config_has_option (section key : string) (c : config_parser)
  : bool :=
  match section_options c section with
  | None => false
  | Some items =>
      match assoc key items, assoc key (default_options c) with
      | None, None => false
      | _, _ => true
      end
  end.

(** [config.remove_option(section, option)]: the option leaves the
    section, [DEFAULT] is not touched. *)
Definition config_remove_option (section key : string) (c : config_parser)
  : result config_parser :=
  match section_options c section with
  | None => Raise NoSectionError
  | Some items => Ok (set_section section (assoc_remove key items) c)
  end.

(** One iteration of the loop of [update_config_file]. *)
Definition sync_locations (item : string * list string) : M unit :=
  let user_id := fst item in
  let locations := snd item in
  c <- read config ;;
  match locations with
  | [] =>
      if config_has_option "LOCATIONS" (lower L user_id) c then
        c' <- lift (config_remove_option "LOCATIONS" (lower L user_id) c) ;;
        modify (set_config c')
      else ret tt
  | _ =>
      c' <- lift (config_set "LOCATIONS" (lower L user_id)
                    (String.concat "," locations) c) ;;
      modify (set_config c')
  end.

(** [with open('config.ini', 'w') as configfile: config.write(configfile)]. *)
Definition write_config_ini : M unit :=
  fun w =>
    match file_write E (clock w) with
    | Written =>
        (record_event (Saved Written) (set_config_ini (Some (config w)) w),
         Ok tt)
    | OpenFails => (record_event (Saved OpenFails) w, Raise OSError)
    | WriteFails =>
        (record_event (Saved WriteFails) (set_config_ini None w),
         Raise OSError)
    | EncodeFails =>
        (record_event (Saved EncodeFails) (set_config_ini None w),
         Raise UnicodeEncodeError)
    end.

(** The option name [WHITELISTED_USERS] is stored lower-cased. *)
Definition update_config_file : M unit :=
  whitelist <- read WHITELISTED_USERS ;;
  c <- read config ;;
  c' <- lift (config_set "TELEGRAM" "whitelisted_users"
                (String.concat "," whitelist) c) ;;
  modify (set_config c') ;;
  items <- read user_locations ;;
  for_each items sync_locations ;;
  write_config_ini.

(** [x.lower() in [loc.lower() for loc in locations]]. *)
Definition in_lower (x : string) (locations : list string) : bool :=
  str_in (lower L x) (map (lower L) locations).

(** [[loc for loc in locations if loc.lower() != x.lower()]]. *)
Definition without_location (x : string) (locations : list string)
  : list string :=
  filter (fun loc => negb (String.eqb (lower L loc) (lower L x))) locations.

Definition add_command (u : update) (args : list string) : M unit :=
  let user_id := from_user_id u in
  whitelist <- read WHITELISTED_USERS ;;
  if negb (str_in user_id whitelist) then ret tt
  else
    match args with
    | [] => reply_text u "Usage: /add <city>" false
    | _ =>
        let city := join_args args in
        probe <- get_weather city 1 ;;
        if negb (truthy probe) then
          reply_text u
            ("Invalid city: '" ++ city ++ "'. Please check the name.") false
        else
          modify (fun w =>
            set_locations (assoc_setdefault user_id [] (user_locations w)) w) ;;
          d <- read user_locations ;;
          match assoc user_id d with
          | None => raise KeyError
          | Some locations =>
              if negb (in_lower city locations) then
                modify (set_locations
                          (assoc_set user_id (list_append locations city) d)) ;;
                update_config_file ;;
                reply_text u ("Added '" ++ city ++ "' to your locations.")
                  false
              else
                reply_text u ("'" ++ city ++ "' is already in your list.")
                  false
          end
    end.

Definition remove_command (u : update) (args : list string) : M unit :=
  let user_id := from_user_id u in
  whitelist <- read WHITELISTED_USERS ;;
  if negb (str_in user_id whitelist) then ret tt
  else
    match args with
    | [] => reply_text u "Usage: /remove <city>" false
    | _ =>
        let city_to_remove := join_args args in
        d <- read user_locations ;;
        match assoc user_id d with
        | Some locations =>
            if in_lower city_to_remove locations then
              modify (set_locations
                        (assoc_set user_id
                           (without_location city_to_remove locations) d)) ;;
              update_config_file ;;
              reply_text u ("Removed '" ++ city_to_remove ++ "'.") false
            else
              reply_text u ("'" ++ city_to_remove
                            ++ "' not found in your list.") false
        | None =>
            reply_text u ("'" ++ city_to_remove
                          ++ "' not found in your list.") false
        end
    end.

Definition list_command (u : update) (args : list string) : M unit :=
  let user_id := from_user_id u in
  whitelist <- read WHITELISTED_USERS ;;
  if negb (str_in user_id whitelist) then ret tt
  else
    d <- read user_locations ;;
    let locations := locations_of user_id d in
    let message :=
      match locations with
      | [] => "You have no locations."
      | _ => "**Your locations:**" ++ nl ++ "- "
             ++ String.concat (nl ++ "- ") locations
      end in
    reply_text u message true.

Definition buymeacoffee_command (u : update) (args : list string) : M unit :=
  let user_id := from_user_id u in
  whitelist <- read WHITELISTED_USERS ;;
  if str_in user_id whitelist then
    reply_text u "You are already whitelisted." false
  else
    modify (set_whitelist (list_append whitelist user_id)) ;;
    update_config_file ;;
    reply_text u "You are now whitelisted! Use /start to see commands." false.

(** [mock_update.message.text = text]: a [telegram.Message] is frozen
    once it is built, in every release of python-telegram-bot that has
    [telegram.ext.Application] (20.0 and later), and the assignment
    raises. *)
Definition set_message_text (u : update) (text : string) : M unit :=
  raise AttributeError.

Definition mock_command (u : update) (args : list string) : M unit :=
  let user_id := from_user_id u in
  admins <- read ADMINS ;;
  if negb (str_in user_id admins) then
    reply_text u "You are not authorized to use this command." false
  else
    match args with
    | [] => reply_text u "Usage: /mock <command> [args...]" false
    | command_to_mock :: mock_args =>
        let mock_update := u in
        set_message_text mock_update
          ("/" ++ command_to_mock ++ " " ++ join_args mock_args) ;;
        if String.eqb command_to_mock "weather" then
          weather_command mock_update mock_args
        else if String.eqb command_to_mock "add" then
          add_command mock_update mock_args
        else if String.eqb command_to_mock "remove" then
          remove_command mock_update mock_args
        else if String.eqb command_to_mock "list" then
          list_command mock_update mock_args
        else if String.eqb command_to_mock "history" then
          history_command mock_update mock_args
        else if String.eqb command_to_mock "buymeacoffee" then
          buymeacoffee_command mock_update mock_args
        else if String.eqb command_to_mock "start"
                || String.eqb command_to_mock "help" then
          start_command mock_update mock_args
        else if String.eqb command_to_mock "scheduledalert" then
          scheduled_weather_update
        else
          reply_text u ("Command '/" ++ command_to_mock
                        ++ "' cannot be mocked or does not exist.") false
    end.

(** *** The handler table of [main] *)

Inductive command : Type :=
| CmdStart
| CmdHelp
| CmdWeather
| CmdAdd
| CmdRemove
| CmdList
| CmdHistory
| CmdBuymeacoffee
| CmdMock.

Definition handler (c : command) : update -> list string -> M unit :=
  match c with
  | CmdStart => start_command
  | CmdHelp => start_command
  | CmdWeather => weather_command
  | CmdAdd => add_command
  | CmdRemove => remove_command
  | CmdList => list_command
  | CmdHistory => history_command
  | CmdBuymeacoffee => buymeacoffee_command
  | CmdMock => mock_command
  end.

(** A command as it arrives: which one, from whom, with what arguments. *)
Record invocation : Type := mkInvocation {
  inv_command : command;
  inv_update : update;
  inv_args : list string
}.

(** The world after the handler ran; an exception that escapes the handler
    is logged by the framework and the bot goes on. *)
Definition handle (i : invocation) (w : world) : world :=
  fst (handler (inv_command i) (inv_update i) (inv_args i) w).

Definition run (invs : list invocation) (w : world) : world :=
  fold_left (fun w i => handle i w) invs w.

(** *** Start-up

    The module body on the parser that [config.read('config.ini')] left:
    it reads the options through the section proxies, which interpolate,
    and whitelists the admin chat id when it was not listed.  An option
    name written in the source is given as [optionxform] stores it. *)

(** [config[section][option]], [key] being [optionxform(option)]:
    [KeyError] without the section or the option, else the interpolated
    value. *)
Definition config_getitem (c : config_parser) (section key : string)
  : result string :=
  match visible_options c section with
  | None => Raise KeyError
  | Some options =>
      match assoc key options with
      | None => Raise KeyError
      | Some value => before_get L options value
      end
  end.

(** The option names that the proxy of a section iterates over: those of
    the section, then those of [DEFAULT] that the section does not have. *)
Definition proxy_options (c : config_parser) (items : list (string * string))
  : list string :=
  (map fst items
   ++ filter (fun key => negb (str_in key (map fst items)))
        (map fst (default_options c)))%list.

(** [[x.strip() for x in s.split(',') if x.strip()]]. *)
Definition stripped_nonempty (s : string) : list string :=
  filter (fun x => negb (String.eqb x EmptyString))
    (map (strip L) (split_comma s)).

(** The loop over [config['LOCATIONS'].items()]. *)
Fixpoint load_loop (c : config_parser) (keys : list string)
  (d : list (string * list string)) : result (list (string * list string)) :=
  match keys with
  | [] => Ok d
  | user_id :: rest =>
      (locations <- config_getitem c "LOCATIONS" (lower L user_id) ;;
       load_loop c rest
         (assoc_set user_id (map (strip L) (split_comma locations)) d))%result
  end.

Definition load_locations (c : config_parser)
  : result (list (string * list string)) :=
  match section_options c "LOCATIONS" with
  | None => Ok []
  | Some items => load_loop c (proxy_options c items) []
  end.

(** [if ADMIN_CHAT_ID not in WHITELISTED_USERS:
       WHITELISTED_USERS.append(ADMIN_CHAT_ID)]. *)
Definition whitelist_with_admin (ADMIN_CHAT_ID : string)
  (whitelist : list string) : list string :=
  if negb (str_in ADMIN_CHAT_ID whitelist)
  then list_append whitelist ADMIN_CHAT_ID
  else whitelist.

Definition startup (c : config_parser) : result world :=
  let body :=
    (WEATHERAPI_KEY <- config_getitem c "WEATHERAPI" "api_key" ;;
     BOT_TOKEN <- config_getitem c "TELEGRAM" "bot_token" ;;
     ADMIN_CHAT_ID <- config_getitem c "TELEGRAM" "chat_id" ;;
     whitelisted <- config_getitem c "TELEGRAM" "whitelisted_users" ;;
     admins <- config_getitem c "TELEGRAM" "admins" ;;
     SCHEDULE_TIME <- config_getitem c "SCHEDULE" "time" ;;
     TIMEZONE <- config_getitem c "SCHEDULE" "timezone" ;;
     locations <- load_locations c ;;
     Ok (mkWorld
           (whitelist_with_admin ADMIN_CHAT_ID (stripped_nonempty whitelisted))
           (stripped_nonempty admins) locations c (Some c) [] 0))%result in
  match body with
  | Raise KeyError => Raise SystemExit
  | outcome => outcome
  end.

(** The whitelist that the module body computes, by itself. *)
Definition startup_whitelist (c : config_parser) : result (list string) :=
  (ADMIN_CHAT_ID <- config_getitem c "TELEGRAM" "chat_id" ;;
   whitelisted <- config_getitem c "TELEGRAM" "whitelisted_users" ;;
   Ok (whitelist_with_admin ADMIN_CHAT_ID (stripped_nonempty whitelisted)))
  %result.

(** The module body run again, on the file that [update_config_file]
    wrote from the parser [file]. *)
Definition restart (file : config_parser) : result world :=
  (c <- config_read L file ;; startup c)%result.

End Bot.

(** ** The reference rain-interval algorithm

    Written from the specification of the rain-interval extractor, on typed
    samples: the formatted local time of the sample and its rain flag. *)

Record sample : Type := mkSample {
  at_time : string;
  willRain : bool
}.

(** One scan in chronological order with a "currently raining" flag: a
    false-to-true transition records the interval start, a true-to-false
    transition records the interval up to the current sample, and a scan
    that ends raining closes the last interval with "onwards". *)
Fixpoint scan_intervals (samples : list sample) (raining : bool)
  (start : string) (intervals : list string) : list string :=
  match samples with
  | [] =>
      if raining
      then app intervals ["from " ++ start ++ " onwards"]
      else intervals
  | s :: rest =>
      match raining, willRain s with
      | false, true => scan_intervals rest true (at_time s) intervals
      | true, false =>
          scan_intervals rest false start
            (app intervals ["from " ++ start ++ " to " ++ at_time s])
      | _, _ => scan_intervals rest raining start intervals
      end
  end.

Definition extract_reference (samples : list sample) : string :=
  match scan_intervals samples false EmptyString [] with
  | [] => "No rain expected today."
  | intervals => "Rain expected " ++ String.concat ", " intervals ++ "."
  end.

(** A JSON hourly sample stands for a typed sample: it is a dict whose
    flag has the truth value of the rain flag and whose epoch the host
    formats to the sample's time. *)
Definition represents (strftime : json -> result string)
  (hour : json) (s : sample) : Prop :=
  exists kvs flag t,
    hour = JObj kvs
    /\ assoc "will_it_rain" kvs = Some flag
    /\ truthy flag = willRain s
    /\ assoc "time_epoch" kvs = Some t
    /\ strftime t = Ok (at_time s).

(** A forecast whose first day carries the hourly list [hours]. *)
Definition first_day_hours (forecast : json) (hours : list json) : Prop :=
  exists kvs day more,
    forecast = JObj kvs
    /\ assoc "forecastday" kvs = Some (JArr (JObj day :: more))
    /\ assoc "hour" day = Some (JArr hours).

(** The same for a JSON sample that may lack the rain flag: a dict with an
    epoch the host formats to the sample's time, whose flag, when it is
    there, has the truth value of the rain flag; a sample without the flag
    stands for a sample that is not raining. *)
Definition represents_lenient (strftime : json -> result string)
  (hour : json) (s : sample) : Prop :=
  exists kvs t,
    hour = JObj kvs
    /\ willRain s = match assoc "will_it_rain" kvs with
                    | Some flag => truthy flag
                    | None => false
                    end
    /\ assoc "time_epoch" kvs = Some t
    /\ strftime t = Ok (at_time s).

(** A sample that is a dict without the rain flag. *)
Definition flagless (hour : json) : Prop :=
  exists kvs, hour = JObj kvs /\ assoc "will_it_rain" kvs = None.

(** The provider's shape of a forecast with one day of hourly samples. *)
Definition hour_sample (t : Z) (rain : Z) : json :=
  JObj [("time_epoch", JInt t); ("will_it_rain", JInt rain)].

Definition forecast_of_hours (hours : list json) : json :=
  JObj [("forecastday", JArr [JObj [("hour", JArr hours)]])].

(** The loop's state after the function's closing [if is_raining]. *)
Definition closed_periods (st : rain_state) : list string :=
  if is_raining st
  then list_append (rain_periods st)
         ("from " ++ fmt_opt (start_time st) ++ " onwards")
  else rain_periods st.

(** ** The typed input of the suggestion engine

    The numbers and the flag that [get_suggestions] reads out of the two
    JSON objects; a field that is absent reads as the default of its
    [.get]. *)

Record suggestion_input : Type := mkInput {
  rain_flag : bool;
  chance_of_rain : Q;
  aqi : Q;
  uv : Q
}.

(** [d.get(k, 0)] is a number of value [q]. *)
Definition reads_number (d : json) (k : string) (q : Q) : Prop :=
  exists v, dict_get d k (JInt 0) = Ok v /\ num_val v = Some q.

Definition reads_input (current forecast : json) (i : suggestion_input)
  : Prop :=
  exists day will air,
    first_day_field forecast "day" = Ok day
    /\ dict_get day "daily_will_it_rain" JNull = Ok will
    /\ truthy will = rain_flag i
    /\ reads_number day "daily_chance_of_rain" (chance_of_rain i)
    /\ dict_get current "air_quality" (JObj []) = Ok air
    /\ reads_number air "us-epa-index" (aqi i)
    /\ reads_number current "uv" (uv i).

(** The same reading written on the provider's documents, without the
    accessors of the source.  The day aggregate is the [day] block of the
    first entry of [forecastday]; the list, the block and every field may be
    absent, and then read as the default. *)
Definition day_aggregate (forecast : json) (day : list (string * json))
  : Prop :=
  exists kvs,
    forecast = JObj kvs
    /\ match assoc "forecastday" kvs with
       | None => day = []
       | Some (JArr (JObj first :: _)) =>
           match assoc "day" first with
           | None => day = []
           | Some (JObj fields) => day = fields
           | Some _ => False
           end
       | Some _ => False
       end.

(** The [air_quality] block of the current conditions. *)
Definition air_block (current : list (string * json))
  (air : list (string * json)) : Prop :=
  match assoc "air_quality" current with
  | None => air = []
  | Some (JObj fields) => air = fields
  | Some _ => False
  end.

(** Field [k] of a block holds the number [q]; an absent field is 0. *)
Definition field_is (fields : list (string * json)) (k : string) (q : Q)
  : Prop :=
  match assoc k fields with
  | Some v => num_val v = Some q
  | None => q = 0%Q
  end.

(** The documents [current] and [forecast] carry the typed input [i]. *)
Definition carries (current forecast : json) (i : suggestion_input) : Prop :=
  exists fields day air,
    current = JObj fields
    /\ day_aggregate forecast day
    /\ rain_flag i = match assoc "daily_will_it_rain" day with
                     | Some flag => truthy flag
                     | None => false
                     end
    /\ field_is day "daily_chance_of_rain" (chance_of_rain i)
    /\ air_block fields air
    /\ field_is air "us-epa-index" (aqi i)
    /\ field_is fields "uv" (uv i).

(** The air-quality index is not in the current conditions. *)
Definition aqi_absent (current : json) : Prop :=
  exists kvs,
    current = JObj kvs
    /\ (assoc "air_quality" kvs = None
        \/ exists air,
             assoc "air_quality" kvs = Some (JObj air)
             /\ assoc "us-epa-index" air = None).

(** The three groups of the list, by rule. *)
Definition umbrella_items (i : suggestion_input) : list string :=
  if rain_flag i || Qlt_bool 40 (chance_of_rain i)
  then [umbrella_advice] else [].

Definition air_items (i : suggestion_input) : list string :=
  if Qle_bool (aqi i) 2 then [good_air_note] else [poor_air_caution].

Definition uv_items (i : suggestion_input) : list string :=
  if Qlt_bool 5 (uv i) then [high_uv_warning]
  else if Qlt_bool 2 (uv i) then [moderate_uv_note]
  else [].

(** ** A host for the examples

    An instance of the library functions on the values the examples use:
    ASCII letters and blanks, integer epochs on a host in UTC, dates written
    with four, two and two digits. *)

Definition lower_char (c : ascii) : ascii :=
  let n := nat_of_ascii c in
  if Nat.leb 65 n && Nat.leb n 90 then ascii_of_nat (n + 32) else c.

Fixpoint ascii_lower (s : string) : string :=
  match s with
  | EmptyString => EmptyString
  | String c rest => String (lower_char c) (ascii_lower rest)
  end.

Definition is_blank (c : ascii) : bool :=
  let n := nat_of_ascii c in
  Nat.eqb n 32 || (Nat.leb 9 n && Nat.leb n 13).

Fixpoint lstrip (s : string) : string :=
  match s with
  | EmptyString => EmptyString
  | String c rest => if is_blank c then lstrip rest else s
  end.

Fixpoint reverse (s : string) (acc : string) : string :=
  match s with
  | EmptyString => acc
  | String c rest => reverse rest (String c acc)
  end.

Definition ascii_strip (s : string) : string :=
  reverse (lstrip (reverse (lstrip s) EmptyString)) EmptyString.

(** [repr] of floats, lists and dicts is left open: the examples render
    none of them. *)
Definition example_repr (v : json) : string := "<repr>".

Fixpoint has_percent (s : string) : bool :=
  match s with
  | EmptyString => false
  | String c rest => Ascii.eqb c "%"%char || has_percent rest
  end.

Definition digit_value (c : ascii) : option Z :=
  let n := nat_of_ascii c in
  if Nat.leb 48 n && Nat.leb n 57 then Some (Z.of_nat (n - 48)) else None.

Definition is_leap (y : Z) : bool :=
  ((y mod 4 =? 0) && negb (y mod 100 =? 0) || (y mod 400 =? 0))%Z.

Definition days_in_month (y m : Z) : Z :=
  if (m =? 2)%Z then (if is_leap y then 29 else 28)
  else if ((m =? 4) || (m =? 6) || (m =? 9) || (m =? 11))%Z then 30
  else 31.

(** A date as a number that orders dates. *)
Definition iso_date (s : string) : option Z :=
  match s with
  | String y1 (String y2 (String y3 (String y4 (String "-"
      (String m1 (String m2 (String "-"
        (String d1 (String d2 EmptyString))))))))) =>
      match digit_value y1, digit_value y2, digit_value y3, digit_value y4,
            digit_value m1, digit_value m2, digit_value d1, digit_value d2
      with
      | Some a, Some b, Some c, Some d, Some e, Some f, Some g, Some h =>
          let y := (1000 * a + 100 * b + 10 * c + d)%Z in
          let m := (10 * e + f)%Z in
          let dd := (10 * g + h)%Z in
          if ((1 <=? y) && (1 <=? m) && (m <=? 12) && (1 <=? dd)
              && (dd <=? days_in_month y m))%Z
          then Some ((y * 12 + (m - 1)) * 31 + (dd - 1))%Z
          else None
      | _, _, _, _, _, _, _, _ => None
      end
  | _ => None
  end.

(** Interpolation on values without a reference: [%%] reads as [%], and
    any other use of [%] is refused. *)
Fixpoint unescape_percent (s : string) : result string :=
  match s with
  | EmptyString => Ok EmptyString
  | String c rest =>
      if Ascii.eqb c "%"%char then
        match rest with
        | String c' rest' =>
            if Ascii.eqb c' "%"%char
            then (r <- unescape_percent rest' ;; Ok (String c r))%result
            else Raise InterpolationError
        | EmptyString => Raise InterpolationError
        end
      else (r <- unescape_percent rest ;; Ok (String c r))%result
  end.

(** Reading back the file: the parser strips the blanks around a value.
    The examples have no name or value that the file format would change
    otherwise. *)
Definition strip_values (items : list (string * string))
  : list (string * string) :=
  map (fun kv => (fst kv, ascii_strip (snd kv))) items.

Definition example_read (c : config_parser) : result config_parser :=
  Ok (mkConfig (strip_values (default_options c))
        (map (fun sec => (fst sec, strip_values (snd sec))) (sections c))).

(** The syntax check of [config.set] on values without a reference: every
    [%] is doubled. *)
Definition percent_escaped (v : string) : bool :=
  match unescape_percent v with
  | Ok _ => true
  | Raise _ => false
  end.

Definition example_lib : pylib :=
  mkLib ascii_lower ascii_strip strftime_utc example_repr percent_escaped
    (fun _ v => unescape_percent v) example_read iso_date.

(** A body that the provider could answer with. *)
Definition some_forecast : json :=
  JObj [("location", JObj [("name", JStr "Paris")])].

(** The provider answers every request, the transport delivers, the file
    can be written. *)
Definition fair_weather : outside :=
  mkOutside (fun _ _ _ => some_forecast) (fun _ _ _ => some_forecast)
    (fun _ => false) (fun _ => Written) (fun _ => 0%Z).

(** The same, but a location cannot be written in the encoding of the
    locale. *)
Definition narrow_locale : outside :=
  mkOutside (fun _ _ _ => some_forecast) (fun _ _ _ => some_forecast)
    (fun _ => false) (fun _ => EncodeFails) (fun _ => 0%Z).

(** The same, but [config.ini] cannot be opened for writing. *)
Definition read_only_disk : outside :=
  mkOutside (fun _ _ _ => some_forecast) (fun _ _ _ => some_forecast)
    (fun _ => false) (fun _ => OpenFails) (fun _ => 0%Z).

(** Every fetch fails and every send fails. *)
Definition all_down : outside :=
  mkOutside (fun _ _ _ => JNull) (fun _ _ _ => JNull)
    (fun _ => true) (fun _ => Written) (fun _ => 0%Z).

(** A [config.ini] without [DEFAULT] options: the key of the provider,
    the [TELEGRAM] section with the admin chat id, the whitelist and the
    admins, the schedule, and the [LOCATIONS] section when there is one. *)
Definition config_of (chat whitelisted admins : string)
  (locations : option (list (string * string))) : config_parser :=
  mkConfig []
    ([("WEATHERAPI", [("api_key", "secret")]);
      ("TELEGRAM",
       [("bot_token", "123:abc"); ("chat_id", chat);
        ("whitelisted_users", whitelisted); ("admins", admins)]);
      ("SCHEDULE", [("time", "07:00"); ("timezone", "UTC")])]
     ++ match locations with
        | Some items => [("LOCATIONS", items)]
        | None => []
        end)%list.

(** One whitelisted recipient who is the admin, and two recipients with
    locations. *)
Definition example_config : config_parser :=
  config_of "1" "1" "1" (Some [("1", "Paris,Oslo"); ("2", "Lima")]).

(** The same without the [LOCATIONS] section. *)
Definition bare_config : config_parser := config_of "1" "1" "1" None.

(** The worlds that the module body builds from them. *)
Definition example_world : world :=
  mkWorld ["1"] ["1"] [("1", ["Paris"; "Oslo"]); ("2", ["Lima"])]
    example_config (Some example_config) [] 0.

Definition bare_world : world :=
  mkWorld ["1"] ["1"] [] bare_config (Some bare_config) [] 0.

Definition from_user (id : string) : update := mkUpdate id id.

(** The provider's document for a dry day with clean air and low UV. *)
Definition calm_current : json :=
  JObj [("air_quality", JObj [("us-epa-index", JInt 1)]); ("uv", JInt 1)].

(** A dry day with a 45 percent chance of rain, poor air and a high UV
    index. *)
Definition muggy_current : json :=
  JObj [("air_quality", JObj [("us-epa-index", JInt 3)]); ("uv", JInt 7)].

Definition muggy_forecast : json :=
  JObj [("forecastday",
         JArr [JObj [("day",
                      JObj [("daily_will_it_rain", JInt 0);
                            ("daily_chance_of_rain", JInt 45)])]])].

(** Three whitelisted recipients with two locations each. *)
Definition crowd_config : config_parser :=
  config_of "1" "1,2,3" "1"
    (Some [("1", "Paris,Oslo"); ("2", "Lima,Quito"); ("3", "Rome,Bern")]).

Definition crowd_world : world :=
  mkWorld ["1"; "2"; "3"] ["1"]
    [("1", ["Paris"; "Oslo"]); ("2", ["Lima"; "Quito"]);
     ("3", ["Rome"; "Bern"])]
    crowd_config (Some crowd_config) [] 0.

(** The fetch for the third pair fails, and so does the send for the
    fourth. *)
Definition patchy : outside :=
  mkOutside
    (fun n _ _ => if Nat.eqb n 4 then JNull else some_forecast)
    (fun _ _ _ => JNull)
    (fun n => Nat.eqb n 7) (fun _ => Written) (fun _ => 0%Z).

(** A day without rain whose chance of rain came as a string. *)
Definition string_chance_forecast : json :=
  JObj [("forecastday",
         JArr [JObj [("day",
                      JObj [("daily_will_it_rain", JInt 0);
                            ("daily_chance_of_rain", JStr "87")])]])].

(** ** Relations between worlds *)

(** The module-level registry is the same in both worlds. *)
Definition same_registry (w w' : world) : Prop :=
  WHITELISTED_USERS w' = WHITELISTED_USERS w
  /\ ADMINS w' = ADMINS w
  /\ user_locations w' = user_locations w.

(** A computation that leaves the registry as it found it, whatever its
    outcome. *)
Definition frames {A : Type} (m : M A) : Prop :=
  forall w, same_registry w (fst (m w)).

(** The handlers that start with the whitelist check. *)
Definition gated (c : command) : bool :=
  match c with
  | CmdWeather | CmdAdd | CmdRemove | CmdList | CmdHistory => true
  | _ => false
  end.

(** The world once [add_command] has appended a new location, before it
    persists. *)
Definition with_added (user city : string) (w : world) : world :=
  set_locations
    (assoc_set user
       (list_append (locations_of user (user_locations w)) city)
       (assoc_setdefault user [] (user_locations w)))
    w.

(** The world once [remove_command] has dropped the matches, before it
    persists. *)
Definition with_removed (L : pylib) (user city : string) (w : world)
  : world :=
  set_locations
    (assoc_set user
       (without_location L city (locations_of user (user_locations w)))
       (user_locations w))
    w.

(** The whitelist of the second world extends that of the first. *)
Definition whitelist_grows (w w' : world) : Prop :=
  exists extra,
    WHITELISTED_USERS w' = (WHITELISTED_USERS w ++ extra)%list.

(** The (recipient, location) pairs that a dispatch run has to process:
    every location of every whitelisted recipient, in the order of the
    registry. *)
Definition pairs_of (items : list (string * list string))
  (whitelist : list string) : list (string * string) :=
  flat_map
    (fun item =>
       if str_in (fst item) whitelist
       then map (fun city => (fst item, city)) (snd item)
       else [])
    items.

Definition planned_pairs (w : world) : list (string * string) :=
  pairs_of (user_locations w) (WHITELISTED_USERS w).

(** What processing one pair leaves in the trace: the fetch of the
    location and the message handed to the transport for the recipient,
    with its text and whether it was delivered. *)
Definition attempt_events (pair : string * string) (outcome : string * bool)
  : list event :=
  [Fetched (snd pair) 3;
   Message (fst pair) (fst outcome) true (snd outcome)].

Definition dispatch_events (pairs : list (string * string))
  (outcomes : list (string * bool)) : list event :=
  flat_map (fun po => attempt_events (fst po) (snd po))
    (combine pairs outcomes).

(** The failures of a run are those of the fetch and of the transport:
    a forecast that was fetched can be formatted. *)
Definition fetched_formats (L : pylib) (E : outside) : Prop :=
  forall n city,
    truthy (weather_response E n city 3) = true ->
    exists report,
      format_weather_report (strftime_local L) (py_repr L) city
        (weather_response E n city 3) = Ok report.

(** The registry invariant: no recipient's list holds two locations that
    are equal when lower-cased. *)
Definition registry_invariant (L : pylib) (w : world) : Prop :=
  forall user,
    NoDup (map (lower L) (locations_of user (user_locations w))).

(** ** The dispatch run as a fold

    What [send_weather_report] hands to the transport for a fetch that is
    the [n]-th call to the outside: the formatted report, the apology when
    the fetch failed, or the exception of the formatter. *)
Definition report_for (L : pylib) (E : outside) (n : nat) (city : string)
  : result string :=
  let weather_data := weather_response E n city 3 in
  if truthy weather_data
  then format_weather_report (strftime_local L) (py_repr L) city weather_data
  else Ok ("Could not retrieve weather for " ++ city ++ ".").

(** The events of a run over (recipient, location) pairs that starts at
    call [n], and how the run ends. *)
Fixpoint dispatch_trace (L : pylib) (E : outside)
  (pairs : list (string * string)) (n : nat) : list event * result unit :=
  match pairs with
  | [] => ([], Ok tt)
  | p :: rest =>
      match report_for L E n (snd p) with
      | Raise e => ([Fetched (snd p) 3], Raise e)
      | Ok text =>
          let later := dispatch_trace L E rest (S (S n)) in
          (Fetched (snd p) 3
           :: Message (fst p) text true (negb (transport_fails E (S n)))
           :: fst later,
           snd later)
      end
  end.

(** The world with more events in its trace. *)
Definition extend (events : list event) (w : world) : world :=
  mkWorld (WHITELISTED_USERS w) (ADMINS w) (user_locations w) (config w)
    (config_ini w) (trace w ++ events)%list
    (List.length events + clock w).

(** An event of a dispatch run from world [w]: a three-day fetch of a
    location of a whitelisted recipient, or a message to a whitelisted
    recipient who has a location. *)
Definition dispatch_event (w : world) (e : event) : Prop :=
  match e with
  | Fetched city days =>
      days = 3%Z
      /\ exists user locations,
           str_in user (WHITELISTED_USERS w) = true
           /\ In (user, locations) (user_locations w)
           /\ In city locations
  | Message chat _ markdown _ =>
      markdown = true
      /\ str_in chat (WHITELISTED_USERS w) = true
      /\ exists locations city,
           In (chat, locations) (user_locations w) /\ In city locations
  | _ => False
  end.

(** ** Persisting *)

(** Whether the parser has the section. *)
Definition has_section (c : config_parser) (section : string) : bool :=
  match section_options c section with
  | Some _ => true
  | None => false
  end.

(** Two worlds that differ at most in the options of the [LOCATIONS]
    section of the [config] object. *)
Definition config_step (w w' : world) : Prop :=
  same_registry w w'
  /\ trace w' = trace w
  /\ clock w' = clock w
  /\ config_ini w' = config_ini w
  /\ default_options (config w') = default_options (config w)
  /\ (forall section,
        section <> "LOCATIONS" ->
        section_options (config w') section
        = section_options (config w) section)
  /\ has_section (config w') "LOCATIONS"
     = has_section (config w) "LOCATIONS".

(** A value that [config.set] does not refuse. *)
Definition value_accepted (L : pylib) (value : string) : bool :=
  String.eqb value EmptyString || before_set_ok L value.

(** Every [config.set] of [update_config_file] goes through: the joined
    whitelist is accepted and the parser has [TELEGRAM]; for every
    recipient with locations the joined list is accepted and the parser
    has [LOCATIONS]. *)
Definition item_accepted (L : pylib) (has_locations : bool)
  (item : string * list string) : bool :=
  match snd item with
  | [] => true
  | locations =>
      value_accepted L (String.concat "," locations) && has_locations
  end.

Definition config_accepts (L : pylib) (w : world) : bool :=
  value_accepted L (String.concat "," (WHITELISTED_USERS w))
  && has_section (config w) "TELEGRAM"
  && forallb (item_accepted L (has_section (config w) "LOCATIONS"))
       (user_locations w).

(** [config['LOCATIONS'][key]] as stored, when the section and the option
    exist. *)
Definition section_lookup (c : config_parser) (key : string)
  : option string :=
  match locations_section c with
  | Some items => assoc key items
  | None => None
  end.

(** Whether a string holds a comma. *)
Fixpoint has_comma (s : string) : bool :=
  match s with
  | EmptyString => false
  | String c rest => Ascii.eqb c ","%char || has_comma rest
  end.

(** The options of the [LOCATIONS] section have pairwise distinct names,
    as [configparser] keeps them. *)
Definition section_keys_distinct (c : config_parser) : Prop :=
  match locations_section c with
  | Some items => NoDup (map fst items)
  | None => True
  end.

(** What [update_config_file] leaves under [key] in the [LOCATIONS]
    section: the joined list of a recipient who has locations, nothing for
    a recipient whose list is empty, and the old option for anybody else. *)
Definition persisted_option (w : world) (key : string) : option string :=
  match assoc key (user_locations w) with
  | Some [] => None
  | Some locations => Some (String.concat "," locations)
  | None => section_lookup (config w) key
  end.

(** A name that survives [','.join], the interpolation of the parser,
    [split(',')] and [strip]. *)
Definition plain_name (L : pylib) (s : string) : Prop :=
  has_comma s = false /\ has_percent s = false /\ strip L s = s.

(** Reading an option whose stored value has no [%] returns the value. *)
Definition interpolation_plain (L : pylib) : Prop :=
  forall options value,
    has_percent value = false -> before_get L options value = Ok value.

(** The file that was written from the parser [c] reads back as [c]: no
    name and no value in it is changed by the file format. *)
Definition reads_back (L : pylib) (c : config_parser) : Prop :=
  config_read L c = Ok c.

(** The registry is fit for a round trip through [config.ini]: recipient
    ids are distinct and in lower case, every location is a plain name,
    the [LOCATIONS] section has no option of anybody outside the registry,
    and the file has no [DEFAULT] options. *)
Definition locations_fit (L : pylib) (w : world) : Prop :=
  NoDup (map fst (user_locations w))
  /\ (forall user locations,
        In (user, locations) (user_locations w) ->
        lower L user = user /\ Forall (plain_name L) locations)
  /\ section_keys_distinct (config w)
  /\ (forall key,
        assoc key (user_locations w) = None ->
        section_lookup (config w) key = None)
  /\ default_options (config w) = [].

(** The whitelist is fit for the round trip: not empty, every id a plain
    non-empty name, and the admin chat id that the [TELEGRAM] section shows
    is one of them and has no [%]. *)
Definition whitelist_fit (L : pylib) (w : world) : Prop :=
  WHITELISTED_USERS w <> []
  /\ Forall (fun id => plain_name L id /\ id <> EmptyString)
       (WHITELISTED_USERS w)
  /\ exists options admin,
       visible_options (config w) "TELEGRAM" = Some options
       /\ assoc "chat_id" options = Some admin
       /\ has_percent admin = false
       /\ str_in admin (WHITELISTED_USERS w) = true.

(** * Properties of the report functions *)

Section ReportFacts.

Variable strftime : json -> result string.

Lemma rain_loop_scan (hours : list json) (samples : list sample) :
  Forall2 (represents strftime) hours samples ->
  forall periods raining st0 start,
    (raining = true -> st0 = Some start) ->
    exists st,
      rain_loop strftime hours (mkRain periods raining st0) = Ok st
      /\ closed_periods st = scan_intervals samples raining start periods.
Proof.
  induction 1 as [| hour s hours samples Hrep _ IH];
    intros periods raining st0 start Hstart.
  - simpl. eexists. split; [reflexivity |].
    unfold closed_periods. simpl. destruct raining; [| reflexivity].
    rewrite (Hstart eq_refl). reflexivity.
  - destruct Hrep as (kvs & flag & t & -> & Hflag & Htruth & Htime & Hfmt).
    simpl. unfold rain_step. simpl. rewrite Hflag. simpl.
    rewrite Htruth.
    destruct raining, (willRain s); simpl.
    + apply IH. exact Hstart.
    + rewrite Htime. simpl. rewrite Hfmt. simpl.
      rewrite (Hstart eq_refl). simpl.
      apply IH. discriminate.
    + rewrite Htime. simpl. rewrite Hfmt. simpl.
      apply IH. reflexivity.
    + apply IH. exact Hstart.
Qed.

Lemma get_rain_forecast_closed (forecast : json) (hours : list json)
  (st : rain_state) :
  first_day_hours forecast hours ->
  rain_loop strftime hours (mkRain [] false None) = Ok st ->
  get_rain_forecast strftime forecast
  = Ok match closed_periods st with
       | [] => "No rain expected today."
       | periods => "Rain expected " ++ String.concat ", " periods ++ "."
       end.
Proof.
  intros (kvs & day & more & -> & Hdays & Hhours) Hloop.
  unfold get_rain_forecast. simpl. rewrite Hdays. simpl.
  rewrite Hhours. simpl. rewrite Hloop. simpl.
  unfold closed_periods.
  destruct (is_raining st);
    destruct (list_append _ _) + destruct (rain_periods st); reflexivity.
Qed.

Lemma scan_dry (samples : list sample) (start : string)
  (intervals : list string) :
  forallb (fun s => negb (willRain s)) samples = true ->
  scan_intervals samples false start intervals = intervals.
Proof.
  induction samples as [| s rest IH]; simpl; [reflexivity |].
  intros H. apply andb_prop in H. destruct H as [Hs Hrest].
  destruct (willRain s); [discriminate |]. apply IH. exact Hrest.
Qed.

(** C3.  On every chronological sequence of hourly samples the extractor
    of the source returns what the reference scan returns: intervals opened
    at a false-to-true transition, closed "from S to E" at a true-to-false
    transition with the current sample's time, closed "from S onwards" when
    the sequence ends raining, joined with ", " after "Rain expected " and
    before a period; the empty sequence and every sequence without a rain
    flag set give exactly "No rain expected today.". *)
Theorem extract_matches_reference
  (forecast : json) (hours : list json) (samples : list sample) :
  first_day_hours forecast hours ->
  Forall2 (represents strftime) hours samples ->
  get_rain_forecast strftime forecast = Ok (extract_reference samples)
  /\ (forallb (fun s => negb (willRain s)) samples = true ->
      get_rain_forecast strftime forecast = Ok "No rain expected today.").
Proof.
  intros Hfirst Hrep.
  destruct (rain_loop_scan hours samples Hrep [] false None EmptyString)
    as (st & Hloop & Hclosed); [discriminate |].
  assert (Heq : get_rain_forecast strftime forecast
                = Ok (extract_reference samples)).
  { rewrite (get_rain_forecast_closed forecast hours st Hfirst Hloop).
    unfold extract_reference. rewrite Hclosed. reflexivity. }
  split; [exact Heq |].
  intros Hdry. rewrite Heq. unfold extract_reference.
  rewrite scan_dry by exact Hdry. reflexivity.
Qed.

Lemma rain_loop_lenient (hours : list json) (samples : list sample) :
  Forall2 (represents_lenient strftime) hours samples ->
  forall periods raining st0 start,
    (raining = true -> st0 = Some start) ->
    exists st,
      rain_loop strftime hours (mkRain periods raining st0) = Ok st
      /\ closed_periods st = scan_intervals samples raining start periods.
Proof.
  induction 1 as [| hour s hours samples Hrep _ IH];
    intros periods raining st0 start Hstart.
  - simpl. eexists. split; [reflexivity |].
    unfold closed_periods. simpl. destruct raining; [| reflexivity].
    rewrite (Hstart eq_refl). reflexivity.
  - destruct Hrep as (kvs & t & -> & Hflag & Htime & Hfmt).
    simpl. unfold rain_step. simpl.
    assert (Hread : exists w,
              match assoc "will_it_rain" kvs with
              | Some v => Ok v
              | None => Ok JNull
              end = Ok w /\ truthy w = willRain s).
    { destruct (assoc "will_it_rain" kvs) as [flag |];
        eexists; (split; [reflexivity |]); rewrite Hflag; reflexivity. }
    destruct Hread as (w & -> & Htruth). simpl. rewrite Htruth.
    destruct raining, (willRain s); simpl.
    + apply IH. exact Hstart.
    + rewrite Htime. simpl. rewrite Hfmt. simpl.
      rewrite (Hstart eq_refl). simpl.
      apply IH. discriminate.
    + rewrite Htime. simpl. rewrite Hfmt. simpl.
      apply IH. reflexivity.
    + apply IH. exact Hstart.
Qed.

Lemma rain_loop_flagless (hours : list json) :
  Forall flagless hours ->
  forall st,
    is_raining st = false -> rain_loop strftime hours st = Ok st.
Proof.
  induction 1 as [| hour hours (kvs & -> & Hflag) _ IH]; intros st Hdry;
    simpl; [reflexivity |].
  unfold rain_step. simpl. rewrite Hflag. simpl. rewrite Hdry. simpl.
  apply IH. exact Hdry.
Qed.

(** C10 as the code has it.  Without a forecast-day list, and with a first
    day whose hour list is missing or empty, the extractor returns "No rain
    expected today.".  On an hour list whose samples are dicts with a time
    stamp, with or without the rain flag, it returns the text of the
    reference scan in which a sample without the flag is a sample that is
    not raining: it closes an open interval and never opens one.  A list of
    samples that all lack the flag gives "No rain expected today.".  The
    extractor is not total beyond that: a sample that has neither the flag
    nor the time stamp is passed over while the scan is dry and raises
    [KeyError] while it is raining. *)
Theorem rain_forecast_total_on_missing_fields (kvs : list (string * json)) :
  (assoc "forecastday" kvs = None ->
   get_rain_forecast strftime (JObj kvs) = Ok "No rain expected today.")
  /\ (forall day more,
        assoc "forecastday" kvs = Some (JArr (JObj day :: more)) ->
        assoc "hour" day = None \/ assoc "hour" day = Some (JArr []) ->
        get_rain_forecast strftime (JObj kvs)
        = Ok "No rain expected today.")
  /\ (forall hours samples,
        first_day_hours (JObj kvs) hours ->
        Forall2 (represents_lenient strftime) hours samples ->
        get_rain_forecast strftime (JObj kvs)
        = Ok (extract_reference samples))
  /\ (forall hours,
        first_day_hours (JObj kvs) hours ->
        Forall flagless hours ->
        get_rain_forecast strftime (JObj kvs)
        = Ok "No rain expected today.")
  /\ (forall st sample_kvs,
        assoc "will_it_rain" sample_kvs = None ->
        (is_raining st = false ->
         rain_step strftime st (JObj sample_kvs) = Ok st)
        /\ (forall t end_time,
              is_raining st = true ->
              assoc "time_epoch" sample_kvs = Some t ->
              strftime t = Ok end_time ->
              rain_step strftime st (JObj sample_kvs)
              = Ok (mkRain
                      (list_append (rain_periods st)
                         ("from " ++ fmt_opt (start_time st) ++ " to "
                          ++ end_time))
                      false (start_time st)))
        /\ (is_raining st = true ->
            assoc "time_epoch" sample_kvs = None ->
            rain_step strftime st (JObj sample_kvs) = Raise KeyError)).
Proof.
  split; [| split; [| split; [| split]]].
  - intros Hnone. unfold get_rain_forecast. simpl. rewrite Hnone.
    reflexivity.
  - intros day more Hdays [Hhour | Hhour];
      unfold get_rain_forecast; simpl; rewrite Hdays; simpl;
      rewrite Hhour; reflexivity.
  - intros hours samples Hfirst Hrep.
    destruct (rain_loop_lenient hours samples Hrep [] false None EmptyString)
      as (st & Hloop & Hclosed); [discriminate |].
    rewrite (get_rain_forecast_closed (JObj kvs) hours st Hfirst Hloop).
    unfold extract_reference. rewrite Hclosed. reflexivity.
  - intros hours Hfirst Hflagless.
    rewrite (get_rain_forecast_closed _ hours (mkRain [] false None) Hfirst).
    + reflexivity.
    + apply rain_loop_flagless; [exact Hflagless | reflexivity].
  - intros st sample_kvs Hflag. split; [| split].
    + intros Hdry. unfold rain_step. simpl. rewrite Hflag. simpl.
      rewrite Hdry. reflexivity.
    + intros t end_time Hwet Htime Hfmt. unfold rain_step. simpl.
      rewrite Hflag. simpl. rewrite Hwet. simpl. rewrite Htime. simpl.
      rewrite Hfmt. reflexivity.
    + intros Hwet Htime. unfold rain_step. simpl.
      rewrite Hflag. simpl. rewrite Hwet. simpl. rewrite Htime.
      reflexivity.
Qed.

End ReportFacts.

Section SuggestionFacts.

Lemma Qlt_bool_iff (a b : Q) : Qlt_bool a b = true <-> (a < b)%Q.
Proof.
  unfold Qlt_bool. rewrite negb_true_iff. split.
  - intros H. apply Qnot_le_lt. intros Hle.
    apply Qle_bool_iff in Hle. congruence.
  - intros H. destruct (Qle_bool b a) eqn:Hle; [| reflexivity].
    apply Qle_bool_iff in Hle. exfalso. exact (Qlt_not_le _ _ H Hle).
Qed.

Lemma Qlt_bool_false_iff (a b : Q) : Qlt_bool a b = false <-> (b <= a)%Q.
Proof.
  unfold Qlt_bool. rewrite negb_false_iff. apply Qle_bool_iff.
Qed.

Lemma suggestions_list_by_rule (current forecast : json)
  (i : suggestion_input) :
  reads_input current forecast i ->
  suggestions_list current forecast
  = Ok (umbrella_items i ++ air_items i ++ uv_items i)%list.
Proof.
  intros (day & will & air & Hday & Hwill & Htruth & (c & Hc & Hcq)
          & Hair & (a & Ha & Haq) & (u & Hu & Huq)).
  unfold suggestions_list, umbrella_condition. rewrite Hday. simpl.
  rewrite Hwill. simpl. rewrite Htruth.
  unfold umbrella_items, air_items, uv_items, py_gt, py_le, inject_Z.
  destruct (rain_flag i); simpl.
  - rewrite Hair. simpl. rewrite Ha. simpl. rewrite Haq. simpl.
    rewrite Hu. simpl. rewrite Huq. simpl.
    destruct (Qle_bool (aqi i) 2), (Qlt_bool 5 (uv i)),
      (Qlt_bool 2 (uv i)); reflexivity.
  - rewrite Hc. simpl. rewrite Hcq. simpl.
    rewrite Hair. simpl. rewrite Ha. simpl. rewrite Haq. simpl.
    rewrite Hu. simpl. rewrite Huq. simpl.
    destruct (Qlt_bool 40 (chance_of_rain i)), (Qle_bool (aqi i) 2),
      (Qlt_bool 5 (uv i)), (Qlt_bool 2 (uv i)); reflexivity.
Qed.

Lemma bullet_lines_not_fallback (i : suggestion_input) :
  let l := (umbrella_items i ++ air_items i ++ uv_items i)%list in
  l <> [] /\ bullet_lines l <> enjoy_fallback
  /\ str_or (bullet_lines l) enjoy_fallback = bullet_lines l.
Proof.
  unfold umbrella_items, air_items, uv_items.
  destruct (rain_flag i || Qlt_bool 40 (chance_of_rain i)),
    (Qle_bool (aqi i) 2), (Qlt_bool 5 (uv i)), (Qlt_bool 2 (uv i));
    (split; [discriminate | split; [intros H; vm_compute in H; discriminate H
                                   | reflexivity]]).
Qed.

Lemma field_is_reads (fields : list (string * json)) (k : string) (q : Q) :
  field_is fields k q -> reads_number (JObj fields) k q.
Proof.
  unfold field_is, reads_number. simpl.
  destruct (assoc k fields) as [v |]; intros H.
  - exists v. split; [reflexivity | exact H].
  - exists (JInt 0). subst q. split; reflexivity.
Qed.

Lemma day_aggregate_read (forecast : json) (day : list (string * json)) :
  day_aggregate forecast day ->
  first_day_field forecast "day" = Ok (JObj day).
Proof.
  intros (kvs & -> & Hday). unfold first_day_field. simpl.
  destruct (assoc "forecastday" kvs) as [days |].
  - destruct days as [| | | | | entries |]; try contradiction.
    destruct entries as [| entry more]; try contradiction.
    destruct entry as [| | | | | | first]; try contradiction.
    simpl. destruct (assoc "day" first) as [block |].
    + destruct block; try contradiction. subst day. reflexivity.
    + subst day. reflexivity.
  - subst day. reflexivity.
Qed.

(** The documents that carry an input are documents from which the source
    reads that input. *)
Lemma carries_reads (current forecast : json) (i : suggestion_input) :
  carries current forecast i -> reads_input current forecast i.
Proof.
  intros (fields & day & air & -> & Hday & Hflag & Hchance & Hair & Haqi
          & Huv).
  exists (JObj day),
    (match assoc "daily_will_it_rain" day with
     | Some flag => flag
     | None => JNull
     end), (JObj air).
  split; [exact (day_aggregate_read forecast day Hday) |].
  split; [simpl; destruct (assoc "daily_will_it_rain" day); reflexivity |].
  split; [rewrite Hflag; destruct (assoc "daily_will_it_rain" day);
          reflexivity |].
  split; [exact (field_is_reads day _ _ Hchance) |].
  split.
  { unfold air_block in Hair. simpl.
    destruct (assoc "air_quality" fields) as [block |].
    - destruct block; try contradiction. subst air. reflexivity.
    - subst air. reflexivity. }
  split; [exact (field_is_reads air _ _ Haqi) |].
  exact (field_is_reads fields _ _ Huv).
Qed.

(** C4.  On every input the engine builds its list by three independent
    rules in the order umbrella, air quality, UV.  The umbrella advisory is
    there iff the daily rain flag is true or the chance of rain exceeds 40;
    exactly one air-quality item is there; the high-UV warning is there iff
    uv > 5, the moderate-UV note iff 2 < uv <= 5, and no UV item when
    uv <= 2.  The list is never empty, the text returned is its bulleted
    rendering, and the "Enjoy your day!" fallback is never returned. *)
Theorem suggest_follows_rules (current forecast : json)
  (i : suggestion_input) :
  carries current forecast i ->
  exists umbrella air uvs,
    suggestions_list current forecast = Ok (umbrella ++ air ++ uvs)%list
    /\ (umbrella = [umbrella_advice]
          /\ (rain_flag i = true \/ (40 < chance_of_rain i)%Q)
        \/ umbrella = []
          /\ ~ (rain_flag i = true \/ (40 < chance_of_rain i)%Q))
    /\ (air = [good_air_note] \/ air = [poor_air_caution])
    /\ (uvs = [high_uv_warning] /\ (5 < uv i)%Q
        \/ uvs = [moderate_uv_note] /\ (2 < uv i)%Q /\ (uv i <= 5)%Q
        \/ uvs = [] /\ (uv i <= 2)%Q)
    /\ (umbrella ++ air ++ uvs)%list <> []
    /\ get_suggestions current forecast
       = Ok (bullet_lines (umbrella ++ air ++ uvs)%list)
    /\ bullet_lines (umbrella ++ air ++ uvs)%list <> enjoy_fallback.
Proof.
  intros Hin.
  pose proof (suggestions_list_by_rule current forecast i
                (carries_reads current forecast i Hin)) as Hlist.
  destruct (bullet_lines_not_fallback i) as (Hne & Hfb & Hor).
  exists (umbrella_items i), (air_items i), (uv_items i).
  split; [exact Hlist |].
  split.
  { unfold umbrella_items.
    destruct (rain_flag i) eqn:Hflag; simpl.
    - left. split; [reflexivity | left; reflexivity].
    - destruct (Qlt_bool 40 (chance_of_rain i)) eqn:Hc.
      + left. split; [reflexivity |]. right. apply Qlt_bool_iff. exact Hc.
      + right. split; [reflexivity |]. intros [Habs | Habs];
          [discriminate |].
        apply Qlt_bool_iff in Habs. congruence. }
  split.
  { unfold air_items. destruct (Qle_bool (aqi i) 2); [left | right];
      reflexivity. }
  split.
  { unfold uv_items.
    destruct (Qlt_bool 5 (uv i)) eqn:H5.
    - left. split; [reflexivity |]. apply Qlt_bool_iff. exact H5.
    - apply Qlt_bool_false_iff in H5.
      destruct (Qlt_bool 2 (uv i)) eqn:H2.
      + right. left. split; [reflexivity |]. split; [| exact H5].
        apply Qlt_bool_iff. exact H2.
      + right. right. split; [reflexivity |].
        apply Qlt_bool_false_iff. exact H2. }
  split; [exact Hne |].
  split; [| exact Hfb].
  unfold get_suggestions. rewrite Hlist. simpl. rewrite Hor. reflexivity.
Qed.

Lemma reads_number_absent (kvs : list (string * json)) (k : string) (q : Q) :
  assoc k kvs = None -> reads_number (JObj kvs) k q -> q = 0%Q.
Proof.
  intros Hnone (v & Hget & Hnum). simpl in Hget. rewrite Hnone in Hget.
  injection Hget as <-. simpl in Hnum. injection Hnum as <-. reflexivity.
Qed.

(** C2 as the code has it.  When the air-quality index is absent or 0 the
    engine emits the positive air-quality note and not the poor-air-quality
    caution, and on every input it emits exactly one of the two. *)
Theorem air_quality_absent_or_zero_is_good (current forecast : json)
  (i : suggestion_input) :
  reads_input current forecast i ->
  exists l,
    suggestions_list current forecast = Ok l
    /\ (In good_air_note l /\ ~ In poor_air_caution l
        \/ In poor_air_caution l /\ ~ In good_air_note l)
    /\ (aqi_absent current \/ (aqi i == 0)%Q ->
        In good_air_note l /\ ~ In poor_air_caution l).
Proof.
  intros Hin.
  pose proof (suggestions_list_by_rule current forecast i Hin) as Hlist.
  eexists. split; [exact Hlist |].
  assert (Hcases :
    forall b : bool, Qle_bool (aqi i) 2 = b ->
      let l := (umbrella_items i ++ air_items i ++ uv_items i)%list in
      if b then In good_air_note l /\ ~ In poor_air_caution l
      else In poor_air_caution l /\ ~ In good_air_note l).
  { intros b Hb. unfold umbrella_items, air_items, uv_items. rewrite Hb.
    destruct b, (rain_flag i || Qlt_bool 40 (chance_of_rain i)),
      (Qlt_bool 5 (uv i)), (Qlt_bool 2 (uv i));
      (split; [simpl; tauto |]);
      simpl; intros H;
      repeat (destruct H as [H | H]; [vm_compute in H; discriminate H |]);
      exact H. }
  split.
  - pose proof (Hcases _ eq_refl) as H.
    destruct (Qle_bool (aqi i) 2); [left | right]; exact H.
  - intros Hzero.
    assert (Hle : Qle_bool (aqi i) 2 = true).
    { apply Qle_bool_iff.
      assert (Hq : (aqi i == 0)%Q).
      { destruct Hzero as [(kvs & -> & Habsent) | Hq]; [| exact Hq].
        destruct Hin as (_ & _ & air & _ & _ & _ & _ & Hair & Hnum & _).
        simpl in Hair.
        destruct Habsent as [Hnone | (akvs & Hsome & Hnone)].
        - rewrite Hnone in Hair. injection Hair as <-.
          rewrite (reads_number_absent [] _ _ eq_refl Hnum). reflexivity.
        - rewrite Hsome in Hair. injection Hair as <-.
          rewrite (reads_number_absent akvs _ _ Hnone Hnum). reflexivity. }
      rewrite Hq. discriminate. }
    exact (Hcases true Hle).
Qed.

End SuggestionFacts.

(** * Properties of the bot *)

Lemma rbind_ok {A B : Type} (r : result A) (k : A -> result B) (b : B) :
  rbind r k = Ok b -> exists a, r = Ok a /\ k a = Ok b.
Proof.
  destruct r as [a | e]; simpl; [| discriminate].
  intros H. exists a. split; [reflexivity | exact H].
Qed.

Section Dicts.

Context {V : Type}.

Lemma assoc_append (k : string) (d : list (string * V)) (k' : string)
  (v : V) :
  assoc k (list_append d (k', v))
  = match assoc k d with
    | Some x => Some x
    | None => if String.eqb k k' then Some v else None
    end.
Proof.
  unfold list_append. induction d as [| [k0 v0] rest IH]; simpl.
  - reflexivity.
  - destruct (String.eqb k k0); [reflexivity | exact IH].
Qed.

Lemma assoc_setdefault_same (k : string) (v : V) (d : list (string * V)) :
  assoc k (assoc_setdefault k v d)
  = Some match assoc k d with Some x => x | None => v end.
Proof.
  unfold assoc_setdefault. destruct (assoc k d) as [x |] eqn:Hk.
  - exact Hk.
  - rewrite assoc_append, Hk, String.eqb_refl. reflexivity.
Qed.

Lemma assoc_setdefault_other (k k' : string) (v : V)
  (d : list (string * V)) :
  k' <> k -> assoc k' (assoc_setdefault k v d) = assoc k' d.
Proof.
  intros Hne. unfold assoc_setdefault. destruct (assoc k d); [reflexivity |].
  rewrite assoc_append. destruct (assoc k' d); [reflexivity |].
  apply String.eqb_neq in Hne. rewrite Hne. reflexivity.
Qed.

Lemma assoc_set_same (k : string) (v : V) (d : list (string * V)) :
  assoc k (assoc_set k v d) = Some v.
Proof.
  induction d as [| [k0 v0] rest IH]; simpl.
  - rewrite String.eqb_refl. reflexivity.
  - destruct (String.eqb k k0) eqn:Hk; simpl.
    + rewrite String.eqb_refl. reflexivity.
    + rewrite Hk. exact IH.
Qed.

Lemma assoc_set_other (k k' : string) (v : V) (d : list (string * V)) :
  k' <> k -> assoc k' (assoc_set k v d) = assoc k' d.
Proof.
  intros Hne. apply String.eqb_neq in Hne.
  induction d as [| [k0 v0] rest IH]; simpl.
  - rewrite Hne. reflexivity.
  - destruct (String.eqb k k0) eqn:Hk; simpl.
    + apply String.eqb_eq in Hk. subst k0. rewrite Hne. reflexivity.
    + destruct (String.eqb k' k0); [reflexivity | exact IH].
Qed.

End Dicts.

Section Lists.

Lemma str_in_In (x : string) (l : list string) :
  str_in x l = true <-> In x l.
Proof.
  unfold str_in. rewrite existsb_exists. split.
  - intros (y & Hy & Heq). apply String.eqb_eq in Heq. subst y. exact Hy.
  - intros Hx. exists x. split; [exact Hx | apply String.eqb_refl].
Qed.

Lemma str_in_append (x y : string) (l : list string) :
  str_in x l = true -> str_in x (list_append l y) = true.
Proof.
  rewrite !str_in_In. unfold list_append. intros H.
  apply in_or_app. left. exact H.
Qed.

Lemma NoDup_append_new {A : Type} (l : list A) (x : A) :
  NoDup l -> ~ In x l -> NoDup (list_append l x).
Proof.
  unfold list_append. induction 1 as [| y l Hy Hl IH]; simpl; intros Hx.
  - constructor; [intros [] | constructor].
  - constructor.
    + intros Hin. apply in_app_or in Hin. destruct Hin as [Hin | [-> | []]].
      * exact (Hy Hin).
      * apply Hx. left. reflexivity.
    + apply IH. intros Hin. apply Hx. right. exact Hin.
Qed.

End Lists.

Create HintDb frames.

Section Framing.

Lemma same_registry_refl (w : world) : same_registry w w.
Proof. repeat split. Qed.

Lemma same_registry_trans (w1 w2 w3 : world) :
  same_registry w1 w2 -> same_registry w2 w3 -> same_registry w1 w3.
Proof.
  intros (Ha & Hb & Hc) (Ha' & Hb' & Hc').
  repeat split; congruence.
Qed.

Lemma same_registry_event (e : event) (w : world) :
  same_registry w (record_event e w).
Proof. repeat split. Qed.

Lemma frames_ret {A : Type} (a : A) : frames (ret a).
Proof. intros w. apply same_registry_refl. Qed.

Lemma frames_raise {A : Type} (e : exn) : frames (@raise A e).
Proof. intros w. apply same_registry_refl. Qed.

Lemma frames_lift {A : Type} (r : result A) : frames (lift r).
Proof. intros w. apply same_registry_refl. Qed.

Lemma frames_read {A : Type} (f : world -> A) : frames (read f).
Proof. intros w. apply same_registry_refl. Qed.

Lemma frames_bind {A B : Type} (m : M A) (k : A -> M B) :
  frames m -> (forall a, frames (k a)) -> frames (bind m k).
Proof.
  intros Hm Hk w. unfold bind. specialize (Hm w).
  destruct (m w) as [w' [a | e]]; simpl in *.
  - eapply same_registry_trans; [exact Hm | apply Hk].
  - exact Hm.
Qed.

Lemma frames_for_each {A : Type} (l : list A) (body : A -> M unit) :
  (forall x, frames (body x)) -> frames (for_each l body).
Proof.
  intros Hbody. induction l as [| x rest IH]; simpl.
  - apply frames_ret.
  - apply frames_bind; [apply Hbody | intros _; exact IH].
Qed.

Lemma frames_except_pass (caught : exn -> bool) (m : M unit) :
  frames m -> frames (except_pass caught m).
Proof.
  intros Hm w. unfold except_pass. specialize (Hm w).
  destruct (m w) as [w' [a | e]]; simpl in *; [exact Hm |].
  destruct (caught e); exact Hm.
Qed.

Lemma frames_set_config (c : config_parser) : frames (modify (set_config c)).
Proof. intros w. repeat split. Qed.

End Framing.

#[local] Hint Resolve frames_ret frames_raise frames_lift frames_read
  frames_set_config : frames.

(** One step of a framing proof: split a bind, a loop or a branch. *)
Ltac frames_step :=
  match goal with
  | |- frames (bind _ _) => apply frames_bind; [| intros ?]
  | |- frames (for_each _ _) => apply frames_for_each; intros ?
  | |- frames (except_pass _ _) => apply frames_except_pass
  | |- frames (if ?b then _ else _) => destruct b
  | |- frames (match ?x with _ => _ end) => destruct x
  end.

Ltac frames_auto := cbv zeta; repeat (frames_step || solve [auto with frames]).

Section BotFacts.

Variable L : pylib.
Variable E : outside.

Lemma frames_get_weather (city : string) (days : Z) :
  frames (get_weather E city days).
Proof. intros w. apply same_registry_event. Qed.

Lemma frames_get_historical_weather (city date : string) :
  frames (get_historical_weather E city date).
Proof. intros w. apply same_registry_event. Qed.

Lemma frames_transport_send (chat text : string) (markdown : bool) :
  frames (transport_send E chat text markdown).
Proof.
  intros w. unfold transport_send.
  destruct (transport_fails E (clock w)); apply same_registry_event.
Qed.

Hint Resolve frames_get_weather frames_get_historical_weather
  frames_transport_send : frames.

Lemma frames_send_telegram_message (chat message : string) :
  frames (send_telegram_message E chat message).
Proof. unfold send_telegram_message. frames_auto. Qed.

Lemma frames_reply_text (u : update) (text : string) (markdown : bool) :
  frames (reply_text E u text markdown).
Proof. unfold reply_text. auto with frames. Qed.

Hint Resolve frames_send_telegram_message frames_reply_text : frames.

Lemma frames_send_weather_report (chat city : string) :
  frames (send_weather_report L E chat city).
Proof. unfold send_weather_report. frames_auto. Qed.

Hint Resolve frames_send_weather_report : frames.

Lemma frames_scheduled_weather_update :
  frames (scheduled_weather_update L E).
Proof. unfold scheduled_weather_update. frames_auto. Qed.

Lemma frames_start_command (u : update) (args : list string) :
  frames (start_command E u args).
Proof. unfold start_command. auto with frames. Qed.

Lemma frames_weather_command (u : update) (args : list string) :
  frames (weather_command L E u args).
Proof. unfold weather_command. frames_auto. Qed.

Lemma frames_history_command (u : update) (args : list string) :
  frames (history_command L E u args).
Proof. unfold history_command. frames_auto. Qed.

Lemma frames_list_command (u : update) (args : list string) :
  frames (list_command E u args).
Proof. unfold list_command. frames_auto. Qed.

Lemma frames_sync_locations (item : string * list string) :
  frames (sync_locations L item).
Proof. unfold sync_locations. frames_auto. Qed.

Lemma frames_write_config_ini : frames (write_config_ini E).
Proof.
  intros w. unfold write_config_ini.
  destruct (file_write E (clock w)); repeat split.
Qed.

Hint Resolve frames_sync_locations frames_write_config_ini : frames.

Lemma frames_update_config_file : frames (update_config_file L E).
Proof. unfold update_config_file. frames_auto. Qed.

(** *** The whitelist gate *)

Lemma gate_closed (c : command) (u : update) (args : list string)
  (w : world) :
  gated c = true ->
  str_in (from_user_id u) (WHITELISTED_USERS w) = false ->
  handler L E c u args w = (w, Ok tt).
Proof.
  intros Hgated Hout.
  destruct c; try discriminate Hgated; simpl;
    [unfold weather_command | unfold add_command | unfold remove_command
    | unfold list_command | unfold history_command];
    unfold bind, read; simpl; rewrite Hout; reflexivity.
Qed.

(** C8 as the code has it.  A weather, history, add, remove or list command
    from a recipient whose id is not in the whitelist sends no message and
    changes nothing: the handler returns with the world as it was. *)
Theorem gated_command_ignored (c : command) (u : update)
  (args : list string) (w : world) :
  gated c = true ->
  str_in (from_user_id u) (WHITELISTED_USERS w) = false ->
  handler L E c u args w = (w, Ok tt).
Proof.
  intros Hgated Hout.
  destruct c; try discriminate Hgated; simpl.
  - unfold weather_command, bind, read. simpl. rewrite Hout. reflexivity.
  - unfold add_command, bind, read. simpl. rewrite Hout. reflexivity.
  - unfold remove_command, bind, read. simpl. rewrite Hout. reflexivity.
  - unfold list_command, bind, read. simpl. rewrite Hout. reflexivity.
  - unfold history_command, bind, read. simpl. rewrite Hout. reflexivity.
Qed.

(** *** [add_command] by cases *)

Lemma in_lower_nil (x : string) : in_lower L x [] = false.
Proof. reflexivity. Qed.

Lemma locations_of_setdefault (user user' : string)
  (d : list (string * list string)) :
  locations_of user' (assoc_setdefault user [] d) = locations_of user' d.
Proof.
  unfold locations_of.
  destruct (string_dec user' user) as [-> | Hne].
  - rewrite assoc_setdefault_same. destruct (assoc user d); reflexivity.
  - rewrite assoc_setdefault_other by exact Hne. reflexivity.
Qed.

Lemma add_command_cases (u : update) (args : list string) (w : world) :
  let user := from_user_id u in
  let city := join_args args in
  let w1 := record_event (Fetched city 1) w in
  str_in user (WHITELISTED_USERS w) = true ->
  args <> [] ->
  add_command L E u args w
  = if negb (truthy (weather_response E (clock w) city 1)) then
      reply_text E u
        ("Invalid city: '" ++ city ++ "'. Please check the name.") false w1
    else if in_lower L city (locations_of user (user_locations w)) then
      reply_text E u ("'" ++ city ++ "' is already in your list.") false w1
    else
      bind (update_config_file L E)
        (fun _ =>
           reply_text E u ("Added '" ++ city ++ "' to your locations.")
             false)
        (with_added user city w1).
Proof.
  intros user city w1 Hin Hargs.
  unfold add_command, bind at 1, read at 1. simpl. fold user.
  rewrite Hin. simpl.
  destruct args as [| a rest]; [contradiction |].
  fold city. unfold bind at 1, get_weather. simpl. fold w1.
  destruct (truthy (weather_response E (clock w) city 1)); simpl;
    [| reflexivity].
  unfold bind at 1, modify. simpl.
  unfold bind at 1, read at 1. simpl.
  rewrite assoc_setdefault_same.
  unfold locations_of.
  destruct (assoc user (user_locations w)) as [locs |] eqn:Hlocs.
  - assert (Hd : assoc_setdefault user [] (user_locations w)
                 = user_locations w).
    { unfold assoc_setdefault. rewrite Hlocs. reflexivity. }
    destruct (in_lower L city locs) eqn:Hdup; simpl.
    + rewrite Hd. reflexivity.
    + unfold bind at 1, modify. simpl. unfold with_added, locations_of.
      simpl. rewrite Hlocs, Hd. reflexivity.
  - rewrite in_lower_nil. simpl.
    unfold bind at 1, modify. simpl. unfold with_added, locations_of.
    simpl. rewrite Hlocs. reflexivity.
Qed.

Lemma reply_text_world (u : update) (text : string) (markdown : bool)
  (w : world) :
  exists delivered,
    reply_text E u text markdown w
    = (record_event (Message (chat_id u) text markdown delivered) w,
       if delivered then Ok tt else Raise TelegramError).
Proof.
  unfold reply_text, transport_send.
  destruct (transport_fails E (clock w));
    [exists false | exists true]; reflexivity.
Qed.

Lemma add_command_usage (u : update) (w : world) :
  str_in (from_user_id u) (WHITELISTED_USERS w) = true ->
  add_command L E u [] w = reply_text E u "Usage: /add <city>" false w.
Proof.
  intros Hin. unfold add_command, bind, read. simpl. rewrite Hin.
  reflexivity.
Qed.

(** *** [remove_command] by cases *)

Lemma remove_command_usage (u : update) (w : world) :
  str_in (from_user_id u) (WHITELISTED_USERS w) = true ->
  remove_command L E u [] w
  = reply_text E u "Usage: /remove <city>" false w.
Proof.
  intros Hin. unfold remove_command, bind, read. simpl. rewrite Hin.
  reflexivity.
Qed.

Lemma remove_command_cases (u : update) (args : list string) (w : world) :
  let user := from_user_id u in
  let city := join_args args in
  str_in user (WHITELISTED_USERS w) = true ->
  args <> [] ->
  remove_command L E u args w
  = if in_lower L city (locations_of user (user_locations w)) then
      bind (update_config_file L E)
        (fun _ => reply_text E u ("Removed '" ++ city ++ "'.") false)
        (with_removed L user city w)
    else
      reply_text E u ("'" ++ city ++ "' not found in your list.") false w.
Proof.
  intros user city Hin Hargs.
  unfold remove_command, bind at 1, read at 1. simpl. fold user.
  rewrite Hin. simpl.
  destruct args as [| a rest]; [contradiction |].
  fold city. unfold bind at 1, read at 1. simpl.
  unfold with_removed, locations_of.
  destruct (assoc user (user_locations w)) as [locs |] eqn:Hlocs.
  - destruct (in_lower L city locs); [| reflexivity].
    unfold bind at 1, modify. reflexivity.
  - rewrite in_lower_nil. reflexivity.
Qed.

(** *** [buymeacoffee_command] by cases *)

Lemma buymeacoffee_cases (u : update) (args : list string) (w : world) :
  let user := from_user_id u in
  buymeacoffee_command L E u args w
  = if str_in user (WHITELISTED_USERS w) then
      reply_text E u "You are already whitelisted." false w
    else
      bind (update_config_file L E)
        (fun _ =>
           reply_text E u
             "You are now whitelisted! Use /start to see commands." false)
        (set_whitelist (list_append (WHITELISTED_USERS w) user) w).
Proof.
  intros user. unfold buymeacoffee_command, bind at 1, read at 1. simpl.
  fold user. destruct (str_in user (WHITELISTED_USERS w)); [reflexivity |].
  unfold bind at 1, modify. reflexivity.
Qed.

Lemma frames_persist_then_reply (u : update) (text : string) :
  frames
    (bind (update_config_file L E) (fun _ => reply_text E u text false)).
Proof.
  apply frames_bind; [apply frames_update_config_file |].
  intros _. apply frames_reply_text.
Qed.

(** *** What the three mutating handlers do to the registry *)

Lemma locations_of_with_added (user city user' : string) (w : world) :
  locations_of user' (user_locations (with_added user city w))
  = if String.eqb user' user
    then list_append (locations_of user (user_locations w)) city
    else locations_of user' (user_locations w).
Proof.
  unfold with_added. simpl. unfold locations_of at 1.
  destruct (String.eqb user' user) eqn:Heq.
  - apply String.eqb_eq in Heq. subst user'. rewrite assoc_set_same.
    reflexivity.
  - apply String.eqb_neq in Heq. rewrite assoc_set_other by exact Heq.
    apply locations_of_setdefault.
Qed.

Lemma locations_of_with_removed (user city user' : string) (w : world) :
  locations_of user' (user_locations (with_removed L user city w))
  = if String.eqb user' user
    then without_location L city (locations_of user (user_locations w))
    else locations_of user' (user_locations w).
Proof.
  unfold with_removed. simpl. unfold locations_of at 1.
  destruct (String.eqb user' user) eqn:Heq.
  - apply String.eqb_eq in Heq. subst user'. rewrite assoc_set_same.
    reflexivity.
  - apply String.eqb_neq in Heq. rewrite assoc_set_other by exact Heq.
    reflexivity.
Qed.

Lemma in_lower_In (x : string) (locations : list string) :
  in_lower L x locations = true
  <-> In (lower L x) (map (lower L) locations).
Proof. unfold in_lower. apply str_in_In. Qed.

Lemma in_lower_append (x : string) (locations : list string) :
  in_lower L x (list_append locations x) = true.
Proof.
  apply in_lower_In. unfold list_append. rewrite map_app.
  apply in_or_app. right. left. reflexivity.
Qed.

Lemma in_lower_without (x : string) (locations : list string) :
  in_lower L x (without_location L x locations) = false.
Proof.
  destruct (in_lower L x (without_location L x locations)) eqn:Hin;
    [| reflexivity].
  apply in_lower_In in Hin. apply in_map_iff in Hin.
  destruct Hin as (loc & Heq & Hloc).
  apply filter_In in Hloc. destruct Hloc as [_ Hkeep].
  rewrite Heq, String.eqb_refl in Hkeep. discriminate.
Qed.

Lemma NoDup_lower_append (x : string) (locations : list string) :
  in_lower L x locations = false ->
  NoDup (map (lower L) locations) ->
  NoDup (map (lower L) (list_append locations x)).
Proof.
  intros Hnew Hnd. unfold list_append. rewrite map_app. simpl.
  apply (NoDup_append_new (map (lower L) locations) (lower L x) Hnd).
  intros Hin. apply in_lower_In in Hin. congruence.
Qed.

Lemma NoDup_lower_without (x : string) (locations : list string) :
  NoDup (map (lower L) locations) ->
  NoDup (map (lower L) (without_location L x locations)).
Proof.
  unfold without_location.
  induction locations as [| loc rest IH]; simpl; intros Hnd; [exact Hnd |].
  apply NoDup_cons_iff in Hnd. destruct Hnd as [Hfresh Hrest].
  destruct (negb (String.eqb (lower L loc) (lower L x))); simpl;
    [| exact (IH Hrest)].
  apply NoDup_cons_iff. split; [| exact (IH Hrest)].
  intros Hin. apply Hfresh. apply in_map_iff in Hin.
  destruct Hin as (other & Heq & Hother). apply filter_In in Hother.
  apply in_map_iff. exists other. split; [exact Heq | apply Hother].
Qed.

Lemma registry_invariant_same (w w' : world) :
  same_registry w w' -> registry_invariant L w -> registry_invariant L w'.
Proof.
  intros (_ & _ & Hloc) Hinv user. rewrite Hloc. apply Hinv.
Qed.

Lemma whitelist_grows_same (w w' : world) :
  same_registry w w' -> whitelist_grows w w'.
Proof.
  intros (Hwl & _ & _). exists []. rewrite app_nil_r. exact Hwl.
Qed.

(** The registry after [add_command]: untouched, or with the location
    appended to the sender's list. *)
Lemma add_command_registry (u : update) (args : list string) (w : world) :
  let user := from_user_id u in
  let city := join_args args in
  let w' := fst (add_command L E u args w) in
  same_registry w w'
  \/ (in_lower L city (locations_of user (user_locations w)) = false
      /\ same_registry (with_added user city w) w').
Proof.
  intros user city w'. subst w'.
  destruct (str_in user (WHITELISTED_USERS w)) eqn:Hin.
  - destruct args as [| a rest].
    + left. rewrite add_command_usage by exact Hin.
      apply frames_reply_text.
    + rewrite add_command_cases by (exact Hin || discriminate).
      fold city user.
      destruct (truthy (weather_response E (clock w) city 1)); simpl.
      * destruct (in_lower L city (locations_of user (user_locations w)))
          eqn:Hdup.
        -- left.
           eapply same_registry_trans;
             [apply (same_registry_event (Fetched city 1))
             | apply frames_reply_text].
        -- right. split; [reflexivity |].
           exact (frames_persist_then_reply u _
                    (with_added user city
                       (record_event (Fetched city 1) w))).
      * left.
        eapply same_registry_trans;
          [apply (same_registry_event (Fetched city 1))
          | apply frames_reply_text].
  - left. pose proof (gate_closed CmdAdd u args w eq_refl Hin) as Hg.
    simpl in Hg. rewrite Hg. apply same_registry_refl.
Qed.

Lemma remove_command_registry (u : update) (args : list string)
  (w : world) :
  let user := from_user_id u in
  let city := join_args args in
  let w' := fst (remove_command L E u args w) in
  same_registry w w' \/ same_registry (with_removed L user city w) w'.
Proof.
  intros user city w'. subst w'.
  destruct (str_in user (WHITELISTED_USERS w)) eqn:Hin.
  - destruct args as [| a rest].
    + left. rewrite remove_command_usage by exact Hin.
      apply frames_reply_text.
    + rewrite remove_command_cases by (exact Hin || discriminate).
      fold city user.
      destruct (in_lower L city (locations_of user (user_locations w))).
      * right. apply frames_persist_then_reply.
      * left. apply frames_reply_text.
  - left. pose proof (gate_closed CmdRemove u args w eq_refl Hin) as Hg.
    simpl in Hg. rewrite Hg. apply same_registry_refl.
Qed.

Lemma buymeacoffee_registry (u : update) (args : list string) (w : world) :
  let user := from_user_id u in
  let w' := fst (buymeacoffee_command L E u args w) in
  same_registry w w'
  \/ same_registry
       (set_whitelist (list_append (WHITELISTED_USERS w) user) w) w'.
Proof.
  intros user w'. subst w'. rewrite buymeacoffee_cases. fold user.
  destruct (str_in user (WHITELISTED_USERS w)).
  - left. apply frames_reply_text.
  - right. apply frames_persist_then_reply.
Qed.

(** *** [mock_command] by cases *)

(** For an admin who names a command the handler stops at the assignment
    to the text of the message, before it looks at the name. *)
Lemma mock_command_cases (u : update) (args : list string) (w : world) :
  mock_command L E u args w
  = if negb (str_in (from_user_id u) (ADMINS w)) then
      reply_text E u "You are not authorized to use this command." false w
    else
      match args with
      | [] => reply_text E u "Usage: /mock <command> [args...]" false w
      | _ :: _ => (w, Raise AttributeError)
      end.
Proof.
  unfold mock_command, bind at 1, read at 1. cbn beta iota zeta.
  destruct (negb (str_in (from_user_id u) (ADMINS w))); [reflexivity |].
  destruct args as [| name rest]; reflexivity.
Qed.

Lemma frames_mock_command (u : update) (args : list string) :
  frames (mock_command L E u args).
Proof.
  intros w. rewrite mock_command_cases.
  destruct (negb (str_in (from_user_id u) (ADMINS w)));
    [apply frames_reply_text |].
  destruct args; [apply frames_reply_text | apply same_registry_refl].
Qed.

(** A relation that holds across every frame-keeping computation and
    across the three mutating handlers holds across every handler,
    [mock_command] included. *)
Lemma handler_rel (P : world -> world -> Prop) :
  (forall w w', same_registry w w' -> P w w') ->
  (forall u args w, P w (fst (add_command L E u args w))) ->
  (forall u args w, P w (fst (remove_command L E u args w))) ->
  (forall u args w, P w (fst (buymeacoffee_command L E u args w))) ->
  forall c u args w, P w (fst (handler L E c u args w)).
Proof.
  intros Hframe Hadd Hremove Hbuy c u args w.
  destruct c; simpl; auto.
  - apply Hframe. apply frames_start_command.
  - apply Hframe. apply frames_start_command.
  - apply Hframe. apply frames_weather_command.
  - apply Hframe. apply frames_list_command.
  - apply Hframe. apply frames_history_command.
  - apply Hframe. apply frames_mock_command.
Qed.

Lemma handle_whitelist_grows (i : invocation) (w : world) :
  whitelist_grows w (handle L E i w).
Proof.
  unfold handle. apply handler_rel; clear i w.
  - exact whitelist_grows_same.
  - intros u args w.
    destruct (add_command_registry u args w) as [H | [_ (Hwl & _ & _)]].
    + apply whitelist_grows_same. exact H.
    + exists []. rewrite app_nil_r. exact Hwl.
  - intros u args w.
    destruct (remove_command_registry u args w) as [H | (Hwl & _ & _)].
    + apply whitelist_grows_same. exact H.
    + exists []. rewrite app_nil_r. exact Hwl.
  - intros u args w.
    destruct (buymeacoffee_registry u args w) as [H | (Hwl & _ & _)].
    + apply whitelist_grows_same. exact H.
    + exists [from_user_id u]. exact Hwl.
Qed.

Lemma handle_invariant (i : invocation) (w : world) :
  registry_invariant L w -> registry_invariant L (handle L E i w).
Proof.
  unfold handle.
  apply (handler_rel
           (fun w w' => registry_invariant L w -> registry_invariant L w'));
    clear i w.
  - exact registry_invariant_same.
  - intros u args w Hinv.
    destruct (add_command_registry u args w) as [H | [Hnew H]].
    + exact (registry_invariant_same _ _ H Hinv).
    + apply (registry_invariant_same _ _ H). intros user.
      rewrite locations_of_with_added.
      destruct (String.eqb user (from_user_id u)); [| apply Hinv].
      apply NoDup_lower_append; [exact Hnew | apply Hinv].
  - intros u args w Hinv.
    destruct (remove_command_registry u args w) as [H | H].
    + exact (registry_invariant_same _ _ H Hinv).
    + apply (registry_invariant_same _ _ H). intros user.
      rewrite locations_of_with_removed.
      destruct (String.eqb user (from_user_id u)); [| apply Hinv].
      apply NoDup_lower_without. apply Hinv.
  - intros u args w Hinv.
    destruct (buymeacoffee_registry u args w) as [H | H].
    + exact (registry_invariant_same _ _ H Hinv).
    + apply (registry_invariant_same _ _ H). exact Hinv.
Qed.

Lemma run_app_last (invs : list invocation) (i : invocation) (w : world) :
  run L E (invs ++ [i]) w = handle L E i (run L E invs w).
Proof. unfold run. rewrite fold_left_app. reflexivity. Qed.

(** *** Persistence failure while adding *)

Lemma reply_raises_telegram (u : update) (text : string) (markdown : bool)
  (w : world) (e : exn) :
  snd (reply_text E u text markdown w) = Raise e -> e = TelegramError.
Proof.
  destruct (reply_text_world u text markdown w) as [delivered ->]. simpl.
  destruct delivered; intros H; [discriminate | congruence].
Qed.

(** C1 as the code has it.  When the persist that follows the append
    fails, with whatever exception ([ValueError] or [NoSectionError] from
    [config.set], [OSError] or [UnicodeEncodeError] from the file), the
    handler ends there with that exception: the world it leaves is the
    world that [update_config_file] left, no answer is sent, and the
    location stays appended in memory, the recipient's list being the list
    before the command followed by the new location.  And whenever
    [add_command] ends in an exception that is not of the transport, the
    location is in the list. *)
Theorem add_persist_failure_keeps_location (u : update)
  (args : list string) (w : world) (e : exn) :
  let user := from_user_id u in
  let city := join_args args in
  let w1 := with_added user city (record_event (Fetched city 1) w) in
  (str_in user (WHITELISTED_USERS w) = true ->
   args <> [] ->
   truthy (weather_response E (clock w) city 1) = true ->
   in_lower L city (locations_of user (user_locations w)) = false ->
   snd (update_config_file L E w1) = Raise e ->
   add_command L E u args w = (fst (update_config_file L E w1), Raise e)
   /\ locations_of user (user_locations (fst (add_command L E u args w)))
      = list_append (locations_of user (user_locations w)) city)
  /\ (snd (add_command L E u args w) = Raise e ->
      e <> TelegramError ->
      locations_of user (user_locations (fst (add_command L E u args w)))
      = list_append (locations_of user (user_locations w)) city).
Proof.
  intros user city w1.
  assert (Hkept : locations_of user
                    (user_locations (fst (update_config_file L E w1)))
                  = list_append (locations_of user (user_locations w)) city).
  { pose proof (frames_update_config_file w1) as (_ & _ & Hloc).
    rewrite Hloc. unfold w1, with_added, locations_of at 1. simpl.
    rewrite assoc_set_same. reflexivity. }
  split.
  - intros Hin Hargs Hprobe Hnew Hfail.
    assert (Hrun : add_command L E u args w
                   = (fst (update_config_file L E w1), Raise e)).
    { rewrite add_command_cases by assumption. fold user city.
      rewrite Hprobe, Hnew. cbn [negb]. fold w1. unfold bind.
      destruct (update_config_file L E w1) as [w2 [[] | e']];
        simpl in Hfail |- *; [discriminate Hfail |].
      injection Hfail as ->. reflexivity. }
    split; [exact Hrun |]. rewrite Hrun. exact Hkept.
  - intros Hraise Hnot.
    destruct (str_in user (WHITELISTED_USERS w)) eqn:Hin.
    + destruct args as [| a rest].
      * rewrite add_command_usage in Hraise by exact Hin.
        apply reply_raises_telegram in Hraise. contradiction.
      * revert Hraise.
        rewrite add_command_cases by (exact Hin || discriminate).
        fold user city.
        destruct (truthy (weather_response E (clock w) city 1)); simpl.
        -- destruct (in_lower L city (locations_of user (user_locations w))).
           ++ intros Hraise. apply reply_raises_telegram in Hraise.
              contradiction.
           ++ fold w1. revert Hkept. unfold bind.
              destruct (update_config_file L E w1) as [w2 [[] | e']];
                simpl.
              ** intros _ Hraise. apply reply_raises_telegram in Hraise.
                 contradiction.
              ** intros Hkept _. exact Hkept.
        -- intros Hraise. apply reply_raises_telegram in Hraise.
           contradiction.
    + pose proof (gate_closed CmdAdd u args w eq_refl Hin) as Hg.
      simpl in Hg. rewrite Hg in Hraise. discriminate.
Qed.

(** *** Removing a location *)


(** *** Adding twice *)

Lemma add_command_accepted (u : update) (args : list string) (w : world) :
  let user := from_user_id u in
  let city := join_args args in
  let w1 := fst (add_command L E u args w) in
  str_in user (WHITELISTED_USERS w) = true ->
  args <> [] ->
  truthy (weather_response E (clock w) city 1) = true ->
  WHITELISTED_USERS w1 = WHITELISTED_USERS w
  /\ in_lower L city (locations_of user (user_locations w1)) = true.
Proof.
  intros user city w1 Hin Hargs Hprobe. subst w1.
  destruct (in_lower L city (locations_of user (user_locations w)))
    eqn:Hdup.
  - rewrite add_command_cases by assumption. fold user city.
    rewrite Hprobe, Hdup. cbn [negb].
    destruct (reply_text_world u ("'" ++ city ++ "' is already in your list.")
                false (record_event (Fetched city 1) w)) as [delivered ->].
    simpl. split; [reflexivity | exact Hdup].
  - rewrite add_command_cases by assumption. fold user city.
    rewrite Hprobe, Hdup. cbn [negb].
    pose proof (frames_persist_then_reply u
                  ("Added '" ++ city ++ "' to your locations.")
                  (with_added user city (record_event (Fetched city 1) w)))
      as (Hwl & _ & Hloc).
    rewrite Hwl, Hloc. split; [reflexivity |].
    change (user_locations
              (with_added user city (record_event (Fetched city 1) w)))
      with (user_locations (with_added user city w)).
    rewrite locations_of_with_added, String.eqb_refl.
    apply in_lower_append.
Qed.

(** C6.  For a whitelisted recipient whose list has no two
    case-insensitively equal locations: after an add that the validation
    probe accepted, an add of the same location in any letter case, again
    accepted by the probe, is answered "already in your list", leaves the
    registry as it was, and the list holds exactly one entry that equals
    the location when lower-cased.  Every sequence of commands, and so
    every sequence of adds, keeps the invariant that no recipient's list
    holds two case-insensitively equal locations. *)
Theorem add_location_idempotent_under_case :
  (forall (u u' : update) (args args' : list string) (w : world),
     let user := from_user_id u in
     let w1 := fst (add_command L E u args w) in
     let w2 := fst (add_command L E u' args' w1) in
     str_in user (WHITELISTED_USERS w) = true ->
     NoDup (map (lower L) (locations_of user (user_locations w))) ->
     args <> [] ->
     truthy (weather_response E (clock w) (join_args args) 1) = true ->
     from_user_id u' = user ->
     args' <> [] ->
     lower L (join_args args') = lower L (join_args args) ->
     truthy (weather_response E (clock w1) (join_args args') 1) = true ->
     (exists delivered,
        w2 = record_event
               (Message (chat_id u')
                  ("'" ++ join_args args' ++ "' is already in your list.")
                  false delivered)
               (record_event (Fetched (join_args args') 1) w1))
     /\ user_locations w2 = user_locations w1
     /\ count_occ string_dec
          (map (lower L) (locations_of user (user_locations w2)))
          (lower L (join_args args')) = 1%nat)
  /\ (forall (invs : list invocation) (w : world),
        registry_invariant L w -> registry_invariant L (run L E invs w)).
Proof.
  split.
  - intros u u' args args' w user w1 w2 Hin Hnd Hargs Hprobe Hsame Hargs'
      Hcase Hprobe'.
    destruct (add_command_accepted u args w Hin Hargs Hprobe)
      as [Hwl Hthere].
    fold user w1 in Hwl, Hthere.
    assert (Hnd1 : NoDup (map (lower L)
                            (locations_of user (user_locations w1)))).
    { destruct (add_command_registry u args w)
        as [(_ & _ & Hloc) | [Hnew (_ & _ & Hloc)]];
        unfold w1, user; rewrite Hloc.
      - exact Hnd.
      - rewrite locations_of_with_added, String.eqb_refl.
        apply NoDup_lower_append; assumption. }
    assert (Hdup : in_lower L (join_args args')
                     (locations_of (from_user_id u') (user_locations w1))
                   = true).
    { rewrite Hsame. unfold in_lower in *. rewrite Hcase. exact Hthere. }
    assert (Hrun : add_command L E u' args' w1
                   = reply_text E u'
                       ("'" ++ join_args args'
                        ++ "' is already in your list.") false
                       (record_event (Fetched (join_args args') 1) w1)).
    { rewrite add_command_cases; [| rewrite Hsame, Hwl; exact Hin
                                  | exact Hargs'].
      rewrite Hprobe', Hdup. reflexivity. }
    subst w2. rewrite Hrun.
    destruct (reply_text_world u'
                ("'" ++ join_args args' ++ "' is already in your list.")
                false (record_event (Fetched (join_args args') 1) w1))
      as [delivered ->].
    simpl. split; [exists delivered; reflexivity |].
    split; [reflexivity |].
    apply NoDup_count_occ'; [exact Hnd1 |].
    rewrite Hcase. apply in_lower_In. exact Hthere.
  - intros invs. induction invs as [| i invs IH] using rev_ind;
      intros w Hinv.
    + exact Hinv.
    + rewrite run_app_last. apply handle_invariant. apply IH. exact Hinv.
Qed.

(** *** The whitelist only grows *)

Lemma run_whitelist_grows (invs : list invocation) (w : world) :
  whitelist_grows w (run L E invs w).
Proof.
  induction invs as [| i invs IH] using rev_ind.
  - exists []. simpl. rewrite app_nil_r. reflexivity.
  - rewrite run_app_last. destruct IH as [extra IH].
    destruct (handle_whitelist_grows i (run L E invs w)) as [extra' H].
    exists (extra ++ extra')%list. rewrite H, IH, app_assoc. reflexivity.
Qed.

Lemma whitelist_with_admin_in (admin : string) (whitelist : list string) :
  str_in admin (whitelist_with_admin admin whitelist) = true.
Proof.
  unfold whitelist_with_admin.
  destruct (str_in admin whitelist) eqn:Hin; simpl.
  - exact Hin.
  - apply str_in_In. unfold list_append. apply in_or_app. right. left.
    reflexivity.
Qed.

(** What a start-up that got through has read. *)
Lemma startup_reads (c : config_parser) (w0 : world) :
  startup L c = Ok w0 ->
  exists ADMIN_CHAT_ID whitelisted,
    config_getitem L c "TELEGRAM" "chat_id" = Ok ADMIN_CHAT_ID
    /\ config_getitem L c "TELEGRAM" "whitelisted_users" = Ok whitelisted
    /\ WHITELISTED_USERS w0
       = whitelist_with_admin ADMIN_CHAT_ID (stripped_nonempty L whitelisted)
    /\ load_locations L c = Ok (user_locations w0).
Proof.
  unfold startup. cbv zeta. intros H.
  match type of H with
  | match ?body with _ => _ end = _ =>
      destruct body as [w | e] eqn:Hbody; [| destruct e; discriminate H]
  end.
  injection H as <-.
  apply rbind_ok in Hbody. destruct Hbody as (key & _ & Hbody).
  apply rbind_ok in Hbody. destruct Hbody as (token & _ & Hbody).
  apply rbind_ok in Hbody. destruct Hbody as (admin & Hadmin & Hbody).
  apply rbind_ok in Hbody. destruct Hbody as (whitelisted & Hwl & Hbody).
  apply rbind_ok in Hbody. destruct Hbody as (admins & _ & Hbody).
  apply rbind_ok in Hbody. destruct Hbody as (time & _ & Hbody).
  apply rbind_ok in Hbody. destruct Hbody as (zone & _ & Hbody).
  apply rbind_ok in Hbody. destruct Hbody as (locations & Hloc & Hbody).
  injection Hbody as <-. exists admin, whitelisted. simpl.
  repeat split; assumption.
Qed.

(** C9.  When the module has loaded, the admin chat id that it read from
    the configuration is in the whitelist, and it is there after every
    sequence of commands; no command removes an id from the whitelist: the
    whitelist after a command is the whitelist before it followed by what
    was appended, and a dispatch run leaves it as it was. *)
Theorem admin_stays_whitelisted (c : config_parser) (w0 : world)
  (invs : list invocation) :
  startup L c = Ok w0 ->
  exists ADMIN_CHAT_ID,
    config_getitem L c "TELEGRAM" "chat_id" = Ok ADMIN_CHAT_ID
    /\ str_in ADMIN_CHAT_ID (WHITELISTED_USERS w0) = true
    /\ str_in ADMIN_CHAT_ID (WHITELISTED_USERS (run L E invs w0)) = true
    /\ (forall (i : invocation) (w : world),
          exists appended,
            WHITELISTED_USERS (handle L E i w)
            = (WHITELISTED_USERS w ++ appended)%list)
    /\ (forall w : world,
          WHITELISTED_USERS (fst (scheduled_weather_update L E w))
          = WHITELISTED_USERS w).
Proof.
  intros Hstart.
  destruct (startup_reads c w0 Hstart)
    as (admin & whitelisted & Hadmin & _ & Hwl & _).
  assert (Hin : str_in admin (WHITELISTED_USERS w0) = true).
  { rewrite Hwl. apply whitelist_with_admin_in. }
  exists admin. split; [exact Hadmin |]. split; [exact Hin |].
  split;
    [| split; [exact handle_whitelist_grows
              | intros w; apply frames_scheduled_weather_update]].
  destruct (run_whitelist_grows invs w0) as [extra ->].
  apply str_in_In. apply in_or_app. left.
  apply str_in_In. exact Hin.
Qed.

(** *** The dispatch run *)

Lemma dispatch_events_app (p1 p2 : list (string * string))
  (o1 o2 : list (string * bool)) :
  List.length o1 = List.length p1 ->
  dispatch_events (p1 ++ p2) (o1 ++ o2)
  = (dispatch_events p1 o1 ++ dispatch_events p2 o2)%list.
Proof.
  unfold dispatch_events. revert o1.
  induction p1 as [| p p1 IH]; intros [| o o1] Hlen; try discriminate.
  - reflexivity.
  - simpl. rewrite IH by (simpl in Hlen; congruence). reflexivity.
Qed.

Lemma send_telegram_message_world (chat message : string) (w : world) :
  exists delivered,
    send_telegram_message E chat message w
    = (record_event (Message chat message true delivered) w, Ok tt).
Proof.
  unfold send_telegram_message, except_pass, transport_send.
  destruct (transport_fails E (clock w));
    [exists false | exists true]; reflexivity.
Qed.

Lemma send_weather_report_attempt (chat city : string) (w : world) :
  fetched_formats L E ->
  exists outcome,
    send_weather_report L E chat city w
    = (mkWorld (WHITELISTED_USERS w) (ADMINS w) (user_locations w)
         (config w) (config_ini w)
         (trace w ++ attempt_events (chat, city) outcome)%list
         (S (S (clock w))),
       Ok tt).
Proof.
  intros Hfmt. unfold send_weather_report, bind at 1, get_weather.
  destruct (truthy (weather_response E (clock w) city 3)) eqn:Hdata.
  - destruct (Hfmt (clock w) city Hdata) as [report Hreport].
    unfold bind, lift. rewrite Hreport.
    destruct (send_telegram_message_world chat report
                (record_event (Fetched city 3) w)) as [delivered ->].
    exists (report, delivered). unfold record_event, list_append. simpl.
    rewrite <- app_assoc. reflexivity.
  - destruct (send_telegram_message_world chat
                ("Could not retrieve weather for " ++ city ++ ".")
                (record_event (Fetched city 3) w)) as [delivered ->].
    exists ("Could not retrieve weather for " ++ city ++ ".", delivered).
    unfold record_event, list_append. simpl.
    rewrite <- app_assoc. reflexivity.
Qed.

Lemma dispatch_locations (user : string) (locations : list string) :
  fetched_formats L E ->
  forall w,
    exists outcomes w',
      for_each locations (fun city => send_weather_report L E user city) w
      = (w', Ok tt)
      /\ List.length outcomes = List.length locations
      /\ trace w'
         = (trace w
            ++ dispatch_events (map (fun city => (user, city)) locations)
                 outcomes)%list
      /\ same_registry w w'.
Proof.
  intros Hfmt. induction locations as [| city rest IH]; intros w.
  - exists [], w. simpl. rewrite app_nil_r.
    repeat split; reflexivity.
  - destruct (send_weather_report_attempt user city w Hfmt) as [o Hsend].
    simpl. unfold bind. rewrite Hsend.
    match goal with
    | |- context [for_each rest _ ?w1] =>
        destruct (IH w1) as (os & w' & Hrun & Hlen & Htrace & Hreg)
    end.
    exists (o :: os), w'. rewrite Hrun.
    split; [reflexivity |].
    split; [simpl; congruence |].
    split.
    + rewrite Htrace. simpl. rewrite <- app_assoc. reflexivity.
    + eapply same_registry_trans; [| exact Hreg]. repeat split.
Qed.

Lemma dispatch_items (items : list (string * list string)) :
  fetched_formats L E ->
  forall w,
    exists outcomes w',
      for_each items
        (fun item =>
           bind (read WHITELISTED_USERS)
             (fun whitelist =>
                if str_in (fst item) whitelist
                then for_each (snd item)
                       (fun city => send_weather_report L E (fst item) city)
                else ret tt)) w
      = (w', Ok tt)
      /\ List.length outcomes = List.length (pairs_of items (WHITELISTED_USERS w))
      /\ trace w'
         = (trace w
            ++ dispatch_events (pairs_of items (WHITELISTED_USERS w))
                 outcomes)%list
      /\ same_registry w w'.
Proof.
  intros Hfmt. induction items as [| [user locations] rest IH]; intros w.
  - exists [], w. simpl. rewrite app_nil_r. repeat split; reflexivity.
  - simpl. unfold bind at 1. unfold bind at 1, read at 1. simpl.
    destruct (str_in user (WHITELISTED_USERS w)) eqn:Hin.
    + destruct (dispatch_locations user locations Hfmt w)
        as (os1 & w1 & Hrun1 & Hlen1 & Htrace1 & Hreg1).
      rewrite Hrun1.
      destruct (IH w1) as (os2 & w2 & Hrun2 & Hlen2 & Htrace2 & Hreg2).
      destruct Hreg1 as (Hwl & Hadm & Hloc).
      rewrite Hwl in Hlen2, Htrace2.
      exists (os1 ++ os2)%list, w2. rewrite Hrun2.
      split; [reflexivity |].
      split; [rewrite !length_app, length_map in *; congruence |].
      split.
      * rewrite Htrace2, Htrace1, <- app_assoc.
        rewrite dispatch_events_app
          by (rewrite length_map; exact Hlen1).
        reflexivity.
      * eapply same_registry_trans; [| exact Hreg2].
        repeat split; assumption.
    + unfold ret. exact (IH w).
Qed.

(** C5.  When the only failures are those of the fetch and of the
    transport, a dispatch run returns normally and processes every location
    of every whitelisted recipient in registry order: for each such pair the
    trace shows the fetch of the location followed by the message handed to
    the transport for the recipient, whatever the fetches before returned
    and whether or not the earlier messages were delivered.  The run leaves
    the registry as it was. *)
Theorem dispatch_attempts_every_pair (w : world) :
  fetched_formats L E ->
  exists outcomes w',
    scheduled_weather_update L E w = (w', Ok tt)
    /\ List.length outcomes = List.length (planned_pairs w)
    /\ trace w' = (trace w ++ dispatch_events (planned_pairs w) outcomes)%list
    /\ same_registry w w'.
Proof.
  intros Hfmt. unfold scheduled_weather_update, planned_pairs.
  unfold bind at 1, read at 1.
  exact (dispatch_items (user_locations w) Hfmt w).
Qed.

End BotFacts.

(** * Further properties of the bot *)

Section DispatchFacts.

Variable L : pylib.
Variable E : outside.

Lemma for_each_app {A : Type} (l1 l2 : list A) (body : A -> M unit)
  (w : world) :
  for_each (l1 ++ l2) body w
  = bind (for_each l1 body) (fun _ => for_each l2 body) w.
Proof.
  revert w. induction l1 as [| x l1 IH]; intros w; simpl.
  - reflexivity.
  - unfold bind. destruct (body x w) as [w' [[] | e]]; [| reflexivity].
    rewrite IH. reflexivity.
Qed.

Lemma for_each_map {A B : Type} (g : A -> B) (l : list A)
  (body : B -> M unit) (w : world) :
  for_each (map g l) body w = for_each l (fun x => body (g x)) w.
Proof.
  revert w. induction l as [| x l IH]; intros w; simpl.
  - reflexivity.
  - unfold bind. destruct (body (g x) w) as [w' [[] | e]]; [| reflexivity].
    apply IH.
Qed.

(** The nested loops of [scheduled_weather_update] are one loop over the
    planned pairs. *)
Lemma dispatch_items_flat (items : list (string * list string)) (w : world) :
  for_each items
    (fun item =>
       bind (read WHITELISTED_USERS)
         (fun whitelist =>
            if str_in (fst item) whitelist
            then for_each (snd item)
                   (fun city => send_weather_report L E (fst item) city)
            else ret tt)) w
  = for_each (pairs_of items (WHITELISTED_USERS w))
      (fun p => send_weather_report L E (fst p) (snd p)) w.
Proof.
  revert w. induction items as [| [user locations] rest IH]; intros w.
  - reflexivity.
  - unfold pairs_of. simpl. fold (pairs_of rest (WHITELISTED_USERS w)).
    rewrite for_each_app.
    unfold bind at 1. unfold bind at 1, read at 1. simpl.
    destruct (str_in user (WHITELISTED_USERS w)).
    + unfold bind. rewrite for_each_map. simpl.
      pose proof (frames_for_each locations
                    (fun city => send_weather_report L E user city)
                    (fun city => frames_send_weather_report L E user city) w)
        as (Hwl & _ & _).
      destruct (for_each locations
                  (fun city => send_weather_report L E user city) w)
        as [w' [[] | e]]; [| reflexivity].
      simpl in Hwl. rewrite IH, Hwl. reflexivity.
    + simpl. unfold bind, ret. apply IH.
Qed.

Lemma send_weather_report_exact (chat city : string) (w : world) :
  send_weather_report L E chat city w
  = match report_for L E (clock w) city with
    | Ok text =>
        (extend
           [Fetched city 3;
            Message chat text true (negb (transport_fails E (S (clock w))))]
           w,
         Ok tt)
    | Raise e => (extend [Fetched city 3] w, Raise e)
    end.
Proof.
  unfold send_weather_report, report_for, bind at 1, get_weather.
  destruct (truthy (weather_response E (clock w) city 3)).
  - unfold bind, lift.
    destruct (format_weather_report (strftime_local L) (py_repr L) city
                (weather_response E (clock w) city 3)) as [report | e].
    + unfold send_telegram_message, except_pass, transport_send,
        record_event, extend, list_append. simpl.
      destruct (transport_fails E (S (clock w))); simpl;
        rewrite <- app_assoc; reflexivity.
    + reflexivity.
  - unfold send_telegram_message, except_pass, transport_send,
      record_event, extend, list_append. simpl.
    destruct (transport_fails E (S (clock w))); simpl;
      rewrite <- app_assoc; reflexivity.
Qed.

Lemma extend_extend (events later : list event) (w : world) :
  extend later (extend events w) = extend (events ++ later) w.
Proof.
  unfold extend. simpl. rewrite app_assoc, length_app. f_equal. lia.
Qed.

Lemma dispatch_pairs_exact (pairs : list (string * string)) (w : world) :
  for_each pairs
    (fun p => send_weather_report L E (fst p) (snd p)) w
  = (extend (fst (dispatch_trace L E pairs (clock w))) w,
     snd (dispatch_trace L E pairs (clock w))).
Proof.
  revert w. induction pairs as [| [user city] rest IH]; intros w; simpl.
  - unfold ret, extend. simpl. rewrite app_nil_r. destruct w; reflexivity.
  - unfold bind. rewrite send_weather_report_exact.
    destruct (report_for L E (clock w) city) as [text | e]; [| reflexivity].
    rewrite IH. simpl. rewrite extend_extend. reflexivity.
Qed.

Lemma scheduled_weather_update_exact (w : world) :
  scheduled_weather_update L E w
  = (extend (fst (dispatch_trace L E (planned_pairs w) (clock w))) w,
     snd (dispatch_trace L E (planned_pairs w) (clock w))).
Proof.
  unfold scheduled_weather_update, bind at 1, read at 1.
  rewrite dispatch_items_flat. apply dispatch_pairs_exact.
Qed.

Lemma in_pairs_of (items : list (string * list string))
  (whitelist : list string) (user city : string) :
  In (user, city) (pairs_of items whitelist) ->
  str_in user whitelist = true
  /\ exists locations, In (user, locations) items /\ In city locations.
Proof.
  unfold pairs_of. intros Hin. apply in_flat_map in Hin.
  destruct Hin as ([user' locations] & Hitem & Hpair). simpl in Hpair.
  destruct (str_in user' whitelist) eqn:Hwl; [| destruct Hpair].
  apply in_map_iff in Hpair. destruct Hpair as (c & Heq & Hc).
  injection Heq as -> ->. split; [exact Hwl |].
  exists locations. split; assumption.
Qed.

Lemma dispatch_trace_events (pairs : list (string * string)) (n : nat) :
  Forall
    (fun e =>
       match e with
       | Fetched city days => days = 3%Z /\ exists user, In (user, city) pairs
       | Message chat _ markdown _ =>
           markdown = true /\ exists city, In (chat, city) pairs
       | _ => False
       end)
    (fst (dispatch_trace L E pairs n)).
Proof.
  revert n. induction pairs as [| [user city] rest IH]; intros n; simpl.
  - constructor.
  - assert (Hfetch : 3%Z = 3%Z
                     /\ exists u, (user, city) = (u, city) \/ In (u, city) rest)
      by (split; [reflexivity | exists user; left; reflexivity]).
    destruct (report_for L E n city) as [text | e]; simpl.
    + constructor; [exact Hfetch |].
      constructor;
        [split; [reflexivity | exists city; left; reflexivity] |].
      eapply Forall_impl; [| exact (IH (S (S n)))].
      intros [c d | | chat t m d |]; simpl; try tauto.
      * intros (Hd & u & Hu). split; [exact Hd |]. exists u. right. exact Hu.
      * intros (Hm & c & Hc). split; [exact Hm |]. exists c. right. exact Hc.
    + constructor; [exact Hfetch | constructor].
Qed.

(** X1.  A dispatch run only adds fetches and messages to the trace: every
    fetch is a three-day fetch of a location listed for a whitelisted
    recipient, and every message goes, as Markdown, to a whitelisted
    recipient who has a location.  A recipient who is not whitelisted gets
    nothing, whatever the provider and the transport do. *)
Theorem dispatch_reaches_only_the_whitelisted (w : world) :
  exists new,
    trace (fst (scheduled_weather_update L E w)) = (trace w ++ new)%list
    /\ Forall (dispatch_event w) new.
Proof.
  rewrite scheduled_weather_update_exact. simpl.
  eexists. split; [reflexivity |].
  eapply Forall_impl; [| apply dispatch_trace_events].
  intros [city days | | chat text markdown delivered |]; simpl; try tauto.
  - intros (Hdays & user & Hin). split; [exact Hdays |].
    apply in_pairs_of in Hin. destruct Hin as (Hwl & locations & H1 & H2).
    exists user, locations. repeat split; assumption.
  - intros (Hm & city & Hin). split; [exact Hm |].
    apply in_pairs_of in Hin. destruct Hin as (Hwl & locations & H1 & H2).
    split; [exact Hwl |]. exists locations, city. split; assumption.
Qed.

Lemma dispatch_trace_ends (pairs : list (string * string)) (n : nat) :
  match snd (dispatch_trace L E pairs n) with
  | Ok _ =>
      exists outcomes,
        List.length outcomes = List.length pairs
        /\ fst (dispatch_trace L E pairs n) = dispatch_events pairs outcomes
  | Raise e =>
      exists k user city outcomes,
        nth_error pairs k = Some (user, city)
        /\ List.length outcomes = k
        /\ fst (dispatch_trace L E pairs n)
           = (dispatch_events (firstn k pairs) outcomes
              ++ [Fetched city 3])%list
        /\ report_for L E (n + 2 * k)%nat city = Raise e
  end.
Proof.
  revert n. induction pairs as [| [user city] rest IH]; intros n; simpl.
  - exists []. split; reflexivity.
  - destruct (report_for L E n city) as [text | e] eqn:Hreport; simpl.
    + specialize (IH (S (S n))).
      destruct (snd (dispatch_trace L E rest (S (S n)))) as [[] | e].
      * destruct IH as (outcomes & Hlen & Hevents).
        exists ((text, negb (transport_fails E (S n))) :: outcomes).
        split; [simpl; congruence |].
        rewrite Hevents. reflexivity.
      * destruct IH as (k & u & c & outcomes & Hnth & Hlen & Hevents & Hr).
        exists (S k), u, c,
          ((text, negb (transport_fails E (S n))) :: outcomes).
        split; [exact Hnth |].
        split; [simpl; congruence |].
        split; [rewrite Hevents; reflexivity |].
        match goal with
        | |- report_for L E ?m c = _ =>
            replace m with (S (S n) + 2 * k)%nat by lia
        end.
        exact Hr.
    + exists 0%nat, user, city, [].
      split; [reflexivity |]. split; [reflexivity |].
      split; [reflexivity |].
      match goal with
      | |- report_for L E ?m city = _ => replace m with n by lia
      end.
      exact Hreport.
Qed.

(** X2.  A dispatch run ends in one of two ways.  It returns, and then
    every planned pair was fetched and messaged, in order.  Or it raises,
    and then the exception is that of [format_weather_report] on a document
    fetched for some planned pair: the pairs before it were fetched and
    messaged, the trace ends with the fetch of that pair, and no later pair
    is fetched or messaged. *)
Theorem dispatch_stops_at_formatter_failure (w : world) :
  let pairs := planned_pairs w in
  let w' := fst (scheduled_weather_update L E w) in
  match snd (scheduled_weather_update L E w) with
  | Ok _ =>
      exists outcomes,
        List.length outcomes = List.length pairs
        /\ trace w' = (trace w ++ dispatch_events pairs outcomes)%list
  | Raise e =>
      exists k user city outcomes,
        nth_error pairs k = Some (user, city)
        /\ List.length outcomes = k
        /\ trace w'
           = (trace w ++ dispatch_events (firstn k pairs) outcomes
              ++ [Fetched city 3])%list
        /\ truthy (weather_response E (clock w + 2 * k)%nat city 3) = true
        /\ format_weather_report (strftime_local L) (py_repr L) city
             (weather_response E (clock w + 2 * k)%nat city 3) = Raise e
  end.
Proof.
  intros pairs w'. subst w'. rewrite scheduled_weather_update_exact.
  unfold extend. cbn [fst snd trace]. fold pairs.
  pose proof (dispatch_trace_ends pairs (clock w)) as Hend.
  destruct (snd (dispatch_trace L E pairs (clock w))) as [[] | e].
  - destruct Hend as (outcomes & Hlen & Hevents).
    exists outcomes. rewrite Hevents. split; [exact Hlen | reflexivity].
  - destruct Hend as (k & user & city & outcomes & Hnth & Hlen & Hevents
                      & Hreport).
    exists k, user, city, outcomes.
    split; [exact Hnth |]. split; [exact Hlen |].
    split; [rewrite Hevents; reflexivity |].
    unfold report_for in Hreport.
    destruct (truthy (weather_response E (clock w + 2 * k)%nat city 3));
      [split; [reflexivity | exact Hreport] | discriminate Hreport].
Qed.

End DispatchFacts.

Section CommandFacts.

Variable L : pylib.
Variable E : outside.

(** X3.  [weather_command] from a whitelisted recipient, when what is
    fetched can be formatted: with arguments it reports on the one location
    that the arguments spell, without arguments on every stored location of
    the sender in order, each report going to the chat of the command, and
    it returns with the registry as it was.  With neither arguments nor
    stored locations it sends the prompt and fetches nothing; the prompt is
    sent without a guard, so the handler ends in [TelegramError] when the
    transport fails. *)
Theorem weather_command_reports (u : update) (args : list string)
  (w : world) :
  str_in (from_user_id u) (WHITELISTED_USERS w) = true ->
  fetched_formats L E ->
  match
    match args with
    | [] => locations_of (from_user_id u) (user_locations w)
    | _ => [join_args args]
    end
  with
  | [] =>
      exists delivered,
        weather_command L E u args w
        = (record_event
             (Message (chat_id u)
                "Please specify a city or add one with /add <city>." false
                delivered) w,
           if delivered then Ok tt else Raise TelegramError)
  | cities =>
      exists outcomes w',
        weather_command L E u args w = (w', Ok tt)
        /\ List.length outcomes = List.length cities
        /\ trace w'
           = (trace w
              ++ dispatch_events
                   (map (fun city => (chat_id u, city)) cities) outcomes)%list
        /\ same_registry w w'
  end.
Proof.
  intros Hin Hfmt.
  assert (Hrun :
    weather_command L E u args w
    = match
        match args with
        | [] => locations_of (from_user_id u) (user_locations w)
        | _ => [join_args args]
        end
      with
      | [] =>
          reply_text E u
            "Please specify a city or add one with /add <city>." false w
      | cities =>
          for_each cities
            (fun city => send_weather_report L E (chat_id u) city) w
      end).
  { unfold weather_command, bind, read. cbn beta zeta iota.
    rewrite Hin. cbn [negb].
    destruct (match args with
              | [] => locations_of (from_user_id u) (user_locations w)
              | _ :: _ => [join_args args]
              end); reflexivity. }
  rewrite Hrun. clear Hrun.
  destruct (match args with
            | [] => locations_of (from_user_id u) (user_locations w)
            | _ :: _ => [join_args args]
            end) as [| city cities].
  - destruct (reply_text_world E u
                "Please specify a city or add one with /add <city>." false w)
      as [delivered ->].
    exists delivered. reflexivity.
  - exact (dispatch_locations L E (chat_id u) (city :: cities) Hfmt w).
Qed.

Lemma history_fetch_justified (u : update) (date a : string)
  (rest : list string) (w : world) (day : Z) (city date' : string) :
  str_in (from_user_id u) (WHITELISTED_USERS w) = true ->
  strptime_date L date = Some day ->
  (today E (clock w) <? day)%Z = false ->
  FetchedHistory (join_args (a :: rest)) date = FetchedHistory city date' ->
  str_in (from_user_id u) (WHITELISTED_USERS w) = true
  /\ exists rest' day',
       date :: a :: rest = date' :: rest' /\ rest' <> []
       /\ city = join_args rest'
       /\ strptime_date L date' = Some day'
       /\ (day' <= today E (clock w))%Z.
Proof.
  intros Hin Hdate Hfuture Heq. injection Heq as <- <-.
  split; [exact Hin |]. exists (a :: rest), day.
  repeat split; try reflexivity; try discriminate; try exact Hdate.
  apply Z.ltb_ge. exact Hfuture.
Qed.

(** X4.  [history_command] asks the provider at most once, and only for a
    whitelisted sender, at least two arguments, a first argument that
    parses as a date and a date that is not after today; the request is
    for the location spelled by the remaining arguments on that date.  It
    never fetches a forecast and leaves the registry as it was; a command
    that fails one of the checks is answered without any request. *)
Theorem history_fetch_is_guarded (u : update) (args : list string)
  (w : world) :
  exists new,
    trace (fst (history_command L E u args w)) = (trace w ++ new)%list
    /\ same_registry w (fst (history_command L E u args w))
    /\ (forall city days, ~ In (Fetched city days) new)
    /\ (List.length (filter (fun e => match e with
                                      | FetchedHistory _ _ => true
                                      | _ => false
                                      end) new) <= 1)%nat
    /\ (forall city date,
          In (FetchedHistory city date) new ->
          str_in (from_user_id u) (WHITELISTED_USERS w) = true
          /\ exists rest day,
               args = date :: rest /\ rest <> []
               /\ city = join_args rest
               /\ strptime_date L date = Some day
               /\ (day <= today E (clock w))%Z).
Proof.
  pose proof (frames_history_command L E u args w) as Hframe.
  remember (history_command L E u args w) as r eqn:Hr.
  assert (Hreply : forall text markdown,
            r = reply_text E u text markdown w ->
            str_in (from_user_id u) (WHITELISTED_USERS w) = true ->
            exists new,
              trace (fst r) = (trace w ++ new)%list
              /\ same_registry w (fst r)
              /\ (forall city days, ~ In (Fetched city days) new)
              /\ (List.length
                    (filter (fun e => match e with
                                      | FetchedHistory _ _ => true
                                      | _ => false
                                      end) new) <= 1)%nat
              /\ (forall city date,
                    In (FetchedHistory city date) new ->
                    str_in (from_user_id u) (WHITELISTED_USERS w) = true
                    /\ exists rest day,
                         args = date :: rest /\ rest <> []
                         /\ city = join_args rest
                         /\ strptime_date L date = Some day
                         /\ (day <= today E (clock w))%Z)).
  { intros text markdown Heq _. revert Hframe. rewrite Heq.
    destruct (reply_text_world E u text markdown w) as [delivered ->].
    intros Hframe. eexists. simpl. split; [reflexivity |].
    split; [exact Hframe |]. split; [| split; [simpl; lia |]];
      intros c d [H | []]; discriminate H. }
  revert Hr.
  unfold history_command, bind at 1, read at 1. cbn beta iota zeta.
  cbn [fst snd].
  destruct (str_in (from_user_id u) (WHITELISTED_USERS w)) eqn:Hin;
    cbn [negb].
  2: { intros ->. exists []. unfold ret. simpl. rewrite app_nil_r.
       split; [reflexivity |]. split; [apply same_registry_refl |].
       split; [intros c d [] |]. split; [lia |]. intros c d []. }
  destruct args as [| date [| a rest]];
    try (intros Hr; exact (Hreply _ _ Hr eq_refl)).
  destruct (strptime_date L date) as [day |] eqn:Hdate;
    [| intros Hr; exact (Hreply _ _ Hr eq_refl)].
  unfold bind at 1, read at 1. cbn beta iota zeta.
  destruct (today E (clock w) <? day)%Z eqn:Hfuture;
    [intros Hr; exact (Hreply _ _ Hr eq_refl) |].
  clear Hreply.
  unfold bind at 1, get_historical_weather. cbn beta iota zeta.
  set (city := join_args (a :: rest)).
  set (w1 := record_event (FetchedHistory city date) w).
  destruct (truthy (history_response E (clock w) city date)); cbn [negb].
  - unfold bind at 1.
    match goal with
    | |- context [lift ?x w1] => destruct x as [message | e]
    end; unfold lift.
    + destruct (reply_text_world E u message true w1) as [delivered ->].
      intros ->. eexists. simpl. unfold list_append.
      rewrite <- app_assoc. split; [reflexivity |].
      split; [repeat split |]. split; [| split; [simpl; lia |]].
      * intros c d [H | [H | []]]; discriminate H.
      * intros c d [H | [H | []]]; [| discriminate H].
        destruct (history_fetch_justified u date a rest w day c d Hin Hdate
                    Hfuture H) as [_ Hx].
        split; [reflexivity | exact Hx].
    + intros ->. exists [FetchedHistory city date]. simpl.
      split; [reflexivity |].
      split; [repeat split |]. split; [| split; [lia |]].
      * intros c d [H | []]; discriminate H.
      * intros c d [H | []].
        destruct (history_fetch_justified u date a rest w day c d Hin Hdate
                    Hfuture H) as [_ Hx].
        split; [reflexivity | exact Hx].
  - destruct (reply_text_world E u
                ("Could not get history for " ++ city ++ " on " ++ date
                 ++ ".") false w1) as [delivered ->].
    intros ->. eexists. simpl. unfold list_append.
    rewrite <- app_assoc. split; [reflexivity |].
    split; [repeat split |]. split; [| split; [simpl; lia |]].
    + intros c d [H | [H | []]]; discriminate H.
    + intros c d [H | [H | []]]; [| discriminate H].
      destruct (history_fetch_justified u date a rest w day c d Hin Hdate
                    Hfuture H) as [_ Hx].
        split; [reflexivity | exact Hx].
Qed.

End CommandFacts.

Section RegistryFacts.

Variable L : pylib.
Variable E : outside.

(** X5.  [buymeacoffee_command] whitelists its sender: afterwards the
    sender is in the whitelist, also when persisting failed; a sender who
    was not whitelisted is appended at the end; and the same command again
    is answered "already whitelisted" and changes nothing but the trace. *)
Theorem buymeacoffee_whitelists_once (u : update) (args args' : list string)
  (w : world) :
  let user := from_user_id u in
  let w1 := fst (buymeacoffee_command L E u args w) in
  str_in user (WHITELISTED_USERS w1) = true
  /\ (str_in user (WHITELISTED_USERS w) = false ->
      WHITELISTED_USERS w1 = list_append (WHITELISTED_USERS w) user)
  /\ (str_in user (WHITELISTED_USERS w) = true ->
      WHITELISTED_USERS w1 = WHITELISTED_USERS w)
  /\ exists delivered,
       fst (buymeacoffee_command L E u args' w1)
       = record_event
           (Message (chat_id u) "You are already whitelisted." false
              delivered) w1.
Proof.
  intros user w1.
  assert (Hwl : WHITELISTED_USERS w1
                = if str_in user (WHITELISTED_USERS w)
                  then WHITELISTED_USERS w
                  else list_append (WHITELISTED_USERS w) user).
  { subst w1. rewrite buymeacoffee_cases. fold user.
    destruct (str_in user (WHITELISTED_USERS w)).
    - apply (frames_reply_text E).
    - apply (frames_persist_then_reply L E u _
               (set_whitelist (list_append (WHITELISTED_USERS w) user) w)). }
  assert (Hin : str_in user (WHITELISTED_USERS w1) = true).
  { rewrite Hwl. destruct (str_in user (WHITELISTED_USERS w)) eqn:Hwas.
    - exact Hwas.
    - apply str_in_In. unfold list_append. apply in_or_app. right. left.
      reflexivity. }
  split; [exact Hin |].
  split; [intros Hwas; rewrite Hwl, Hwas; reflexivity |].
  split; [intros Hwas; rewrite Hwl, Hwas; reflexivity |].
  rewrite buymeacoffee_cases. fold user. rewrite Hin.
  destruct (reply_text_world E u "You are already whitelisted." false w1)
    as [delivered ->].
  exists delivered. reflexivity.
Qed.

(** The handlers relate the worlds before and after as soon as the three
    mutating handlers do, for the one sender of the command. *)
Lemma handler_rel_sender (u : update) (P : world -> world -> Prop) :
  (forall w w', same_registry w w' -> P w w') ->
  (forall args w, P w (fst (add_command L E u args w))) ->
  (forall args w, P w (fst (remove_command L E u args w))) ->
  (forall args w, P w (fst (buymeacoffee_command L E u args w))) ->
  forall c args w, P w (fst (handler L E c u args w)).
Proof.
  intros Hframe Hadd Hremove Hbuy c args w.
  destruct c; simpl; auto.
  - apply Hframe. apply frames_start_command.
  - apply Hframe. apply frames_start_command.
  - apply Hframe. apply frames_weather_command.
  - apply Hframe. apply frames_list_command.
  - apply Hframe. apply frames_history_command.
  - apply Hframe. apply (frames_mock_command L E).
Qed.

(** X6.  A command touches the location list of its sender only: the list
    of every other recipient is the same after the handler as before,
    whatever the command, [mock] included, and however it ends. *)
Theorem other_recipients_untouched (i : invocation) (w : world)
  (other : string) :
  other <> from_user_id (inv_update i) ->
  locations_of other (user_locations (handle L E i w))
  = locations_of other (user_locations w).
Proof.
  intros Hother. unfold handle.
  apply (handler_rel_sender (inv_update i)
           (fun w w' =>
              locations_of other (user_locations w')
              = locations_of other (user_locations w))).
  - intros w1 w2 (_ & _ & Hloc). rewrite Hloc. reflexivity.
  - intros args w1.
    destruct (add_command_registry L E (inv_update i) args w1)
      as [(_ & _ & Hloc) | [_ (_ & _ & Hloc)]]; rewrite Hloc;
      [reflexivity |].
    rewrite locations_of_with_added.
    apply String.eqb_neq in Hother. rewrite Hother. reflexivity.
  - intros args w1.
    destruct (remove_command_registry L E (inv_update i) args w1)
      as [(_ & _ & Hloc) | (_ & _ & Hloc)]; rewrite Hloc; [reflexivity |].
    rewrite locations_of_with_removed.
    apply String.eqb_neq in Hother. rewrite Hother. reflexivity.
  - intros args w1.
    destruct (buymeacoffee_registry L E (inv_update i) args w1)
      as [(_ & _ & Hloc) | (_ & _ & Hloc)]; rewrite Hloc; reflexivity.
Qed.

Lemma NoDup_whitelist_step (i : invocation) (w : world) :
  NoDup (WHITELISTED_USERS w) ->
  NoDup (WHITELISTED_USERS (handle L E i w))
  /\ ADMINS (handle L E i w) = ADMINS w.
Proof.
  unfold handle.
  apply (handler_rel L E
           (fun w w' =>
              NoDup (WHITELISTED_USERS w) ->
              NoDup (WHITELISTED_USERS w') /\ ADMINS w' = ADMINS w));
    clear i w.
  - intros w w' (Hwl & Hadm & _) Hnd. rewrite Hwl. split; assumption.
  - intros u args w Hnd.
    destruct (add_command_registry L E u args w)
      as [(Hwl & Hadm & _) | [_ (Hwl & Hadm & _)]];
      rewrite Hwl; split; assumption.
  - intros u args w Hnd.
    destruct (remove_command_registry L E u args w)
      as [(Hwl & Hadm & _) | (Hwl & Hadm & _)];
      rewrite Hwl; split; assumption.
  - intros u args w Hnd.
    pose proof (buymeacoffee_cases L E u args w) as Hcases.
    cbv zeta in Hcases.
    destruct (str_in (from_user_id u) (WHITELISTED_USERS w)) eqn:Hin.
    + pose proof (frames_reply_text E u "You are already whitelisted."
                    false w) as (Hwl & Hadm & _).
      rewrite <- Hcases in Hwl, Hadm. rewrite Hwl. split; assumption.
    + pose proof (frames_persist_then_reply L E u
                    "You are now whitelisted! Use /start to see commands."
                    (set_whitelist
                       (list_append (WHITELISTED_USERS w) (from_user_id u))
                       w)) as (Hwl & Hadm & _).
      rewrite <- Hcases in Hwl, Hadm. rewrite Hwl. split; [| exact Hadm].
      simpl. apply NoDup_append_new; [exact Hnd |].
      intros Habs. apply str_in_In in Habs. congruence.
Qed.

(** X7.  A whitelist without duplicates stays without duplicates through
    every sequence of commands, and no command changes the admin list. *)
Theorem whitelist_stays_duplicate_free (invs : list invocation)
  (w : world) :
  NoDup (WHITELISTED_USERS w) ->
  NoDup (WHITELISTED_USERS (run L E invs w))
  /\ ADMINS (run L E invs w) = ADMINS w.
Proof.
  intros Hnd. induction invs as [| i invs IH] using rev_ind.
  - split; [exact Hnd | reflexivity].
  - rewrite run_app_last. destruct IH as [IHnd IHadm].
    destruct (NoDup_whitelist_step i (run L E invs w) IHnd) as [H1 H2].
    split; [exact H1 | congruence].
Qed.

(** X8.  [mock_command] never reaches a handler.  A sender who is not an
    admin gets the refusal, an admin who names no command gets the usage
    line, and for an admin who names a command the handler ends in
    [AttributeError] at the assignment to the text of the message, before
    it looks at the name: no handler runs, no dispatch run starts, nothing
    is fetched or sent.  So the world after the command is the world before
    it, or that world with one plain message to the sender's chat. *)
Theorem mock_stops_before_the_handler (u : update) (args : list string)
  (w : world) :
  (str_in (from_user_id u) (ADMINS w) = false ->
   exists delivered,
     mock_command L E u args w
     = (record_event
          (Message (chat_id u) "You are not authorized to use this command."
             false delivered) w,
        if delivered then Ok tt else Raise TelegramError))
  /\ (str_in (from_user_id u) (ADMINS w) = true ->
      match args with
      | [] =>
          exists delivered,
            mock_command L E u args w
            = (record_event
                 (Message (chat_id u) "Usage: /mock <command> [args...]"
                    false delivered) w,
               if delivered then Ok tt else Raise TelegramError)
      | _ :: _ => mock_command L E u args w = (w, Raise AttributeError)
      end)
  /\ (fst (mock_command L E u args w) = w
      \/ exists text delivered,
           fst (mock_command L E u args w)
           = record_event (Message (chat_id u) text false delivered) w).
Proof.
  rewrite (mock_command_cases L E).
  destruct (str_in (from_user_id u) (ADMINS w)) eqn:Hadmin; cbn [negb].
  - split; [discriminate |]. destruct args as [| name rest].
    + destruct (reply_text_world E u "Usage: /mock <command> [args...]"
                  false w) as [delivered Hreply].
      split; [intros _; exists delivered; exact Hreply |].
      right. eexists. exists delivered. rewrite Hreply. reflexivity.
    + split; [reflexivity | left; reflexivity].
  - destruct (reply_text_world E u
                "You are not authorized to use this command." false w)
      as [delivered Hreply].
    split; [intros _; exists delivered; exact Hreply |].
    split; [discriminate |].
    right. eexists. exists delivered. rewrite Hreply. reflexivity.
Qed.

Lemma without_location_appended (x y : string) (locations : list string) :
  lower L x = lower L y ->
  in_lower L y locations = false ->
  without_location L x (list_append locations y) = locations.
Proof.
  intros Hcase Hnew. unfold without_location, list_append.
  rewrite filter_app. simpl. rewrite Hcase, String.eqb_refl. simpl.
  rewrite app_nil_r.
  induction locations as [| loc rest IH]; simpl; [reflexivity |].
  assert (Hloc : String.eqb (lower L loc) (lower L y) = false).
  { destruct (String.eqb (lower L loc) (lower L y)) eqn:Heq;
      [| reflexivity].
    apply String.eqb_eq in Heq. exfalso.
    assert (Hin : in_lower L y (loc :: rest) = true).
    { apply in_lower_In. left. exact Heq. }
    congruence. }
  rewrite Hloc. simpl. f_equal. apply IH.
  destruct (in_lower L y rest) eqn:Hrest; [| reflexivity].
  exfalso. apply in_lower_In in Hrest.
  assert (Hin : in_lower L y (loc :: rest) = true).
  { apply in_lower_In. right. exact Hrest. }
  congruence.
Qed.

(** X9.  Adding a location that is new to a whitelisted recipient's list
    and then removing it, in any letter case, gives back the list as it
    was: the add puts the location last, the remove takes it away again
    and nothing else, whether or not the two persists went through. *)
Theorem add_then_remove_restores (u : update) (args args' : list string)
  (w : world) :
  let user := from_user_id u in
  let locations := locations_of user (user_locations w) in
  let w1 := fst (add_command L E u args w) in
  let w2 := fst (remove_command L E u args' w1) in
  str_in user (WHITELISTED_USERS w) = true ->
  args <> [] ->
  args' <> [] ->
  truthy (weather_response E (clock w) (join_args args) 1) = true ->
  in_lower L (join_args args) locations = false ->
  lower L (join_args args') = lower L (join_args args) ->
  locations_of user (user_locations w1)
  = list_append locations (join_args args)
  /\ locations_of user (user_locations w2) = locations.
Proof.
  intros user locations w1 w2 Hin Hargs Hargs' Hprobe Hnew Hcase.
  subst user locations.
  set (user := from_user_id u) in *.
  set (city := join_args args) in *.
  set (locations := locations_of user (user_locations w)) in *.
  assert (H1 : WHITELISTED_USERS w1 = WHITELISTED_USERS w
               /\ locations_of user (user_locations w1)
                  = list_append locations city).
  { subst w1. rewrite add_command_cases by assumption.
    fold user city locations. rewrite Hprobe, Hnew. cbn [negb].
    pose proof (frames_persist_then_reply L E u
                  ("Added '" ++ city ++ "' to your locations.")
                  (with_added user city (record_event (Fetched city 1) w)))
      as (Hwl & _ & Hloc).
    rewrite Hwl, Hloc. split; [reflexivity |].
    change (user_locations
              (with_added user city (record_event (Fetched city 1) w)))
      with (user_locations (with_added user city w)).
    rewrite locations_of_with_added, String.eqb_refl. reflexivity. }
  destruct H1 as [Hwl1 Hloc1]. split; [exact Hloc1 |].
  subst w2.
  rewrite remove_command_cases;
    [| fold user; rewrite Hwl1; exact Hin | exact Hargs'].
  fold user. rewrite Hloc1.
  assert (Hthere : in_lower L (join_args args') (list_append locations city)
                   = true).
  { unfold in_lower. rewrite Hcase. apply (in_lower_append L). }
  rewrite Hthere.
  pose proof (frames_persist_then_reply L E u
                ("Removed '" ++ join_args args' ++ "'.")
                (with_removed L user (join_args args') w1))
    as (_ & _ & Hloc).
  rewrite Hloc, locations_of_with_removed, String.eqb_refl, Hloc1.
  apply without_location_appended; assumption.
Qed.

(** X10.  Removing is idempotent under case variation: after a remove by a
    whitelisted recipient, with or without a match, a second remove of the
    same location in any letter case is answered "not found" and changes
    nothing but the trace. *)
Theorem remove_twice_is_not_found (u : update) (args args' : list string)
  (w : world) :
  let w1 := fst (remove_command L E u args w) in
  str_in (from_user_id u) (WHITELISTED_USERS w) = true ->
  args <> [] ->
  args' <> [] ->
  lower L (join_args args') = lower L (join_args args) ->
  exists delivered,
    fst (remove_command L E u args' w1)
    = record_event
        (Message (chat_id u)
           ("'" ++ join_args args' ++ "' not found in your list.") false
           delivered) w1.
Proof.
  intros w1 Hin Hargs Hargs' Hcase.
  assert (H1 : WHITELISTED_USERS w1 = WHITELISTED_USERS w
               /\ in_lower L (join_args args)
                    (locations_of (from_user_id u) (user_locations w1))
                  = false).
  { subst w1. rewrite remove_command_cases by assumption.
    destruct (in_lower L (join_args args)
                (locations_of (from_user_id u) (user_locations w)))
      eqn:Hmatch.
    - pose proof (frames_persist_then_reply L E u
                    ("Removed '" ++ join_args args ++ "'.")
                    (with_removed L (from_user_id u) (join_args args) w))
        as (Hwl & _ & Hloc).
      rewrite Hwl, Hloc. split; [reflexivity |].
      rewrite locations_of_with_removed, String.eqb_refl.
      apply in_lower_without.
    - pose proof (frames_reply_text E u
                    ("'" ++ join_args args ++ "' not found in your list.")
                    false w) as (Hwl & _ & Hloc).
      rewrite Hwl, Hloc. split; [reflexivity | exact Hmatch]. }
  destruct H1 as [Hwl1 Hgone].
  rewrite remove_command_cases; [| rewrite Hwl1; exact Hin | exact Hargs'].
  assert (Hgone' : in_lower L (join_args args')
                     (locations_of (from_user_id u) (user_locations w1))
                   = false).
  { unfold in_lower in *. rewrite Hcase. exact Hgone. }
  rewrite Hgone'.
  destruct (reply_text_world E u
              ("'" ++ join_args args' ++ "' not found in your list.") false
              w1) as [delivered ->].
  exists delivered. reflexivity.
Qed.

(** X11.  [list_command] shows what [add_command] stored: after an add of
    a new location by a whitelisted recipient that the probe accepted, the
    list command answers with the header and one line per location, the
    old ones in their order and the new one last, and changes nothing but
    the trace; this holds also when the add could not be persisted. *)
Theorem list_shows_the_added_location (u : update)
  (args args' : list string) (w : world) :
  let user := from_user_id u in
  let city := join_args args in
  let w1 := fst (add_command L E u args w) in
  str_in user (WHITELISTED_USERS w) = true ->
  args <> [] ->
  truthy (weather_response E (clock w) city 1) = true ->
  in_lower L city (locations_of user (user_locations w)) = false ->
  exists delivered,
    fst (list_command E u args' w1)
    = record_event
        (Message (chat_id u)
           ("**Your locations:**" ++ nl ++ "- "
            ++ String.concat (nl ++ "- ")
                 (list_append (locations_of user (user_locations w)) city))
           true delivered) w1.
Proof.
  intros user city w1 Hin Hargs Hprobe Hnew.
  assert (H1 : WHITELISTED_USERS w1 = WHITELISTED_USERS w
               /\ locations_of user (user_locations w1)
                  = list_append (locations_of user (user_locations w)) city).
  { subst w1. rewrite add_command_cases by assumption.
    fold user city. rewrite Hprobe, Hnew. cbn [negb].
    pose proof (frames_persist_then_reply L E u
                  ("Added '" ++ city ++ "' to your locations.")
                  (with_added user city (record_event (Fetched city 1) w)))
      as (Hwl & _ & Hloc).
    rewrite Hwl, Hloc. split; [reflexivity |].
    change (user_locations
              (with_added user city (record_event (Fetched city 1) w)))
      with (user_locations (with_added user city w)).
    rewrite locations_of_with_added, String.eqb_refl. reflexivity. }
  destruct H1 as [Hwl1 Hloc1].
  unfold list_command, bind, read. cbn beta iota zeta. fold user.
  rewrite Hwl1, Hin. cbn [negb]. rewrite Hloc1.
  assert (Hshape : exists first rest,
            list_append (locations_of user (user_locations w)) city
            = first :: rest).
  { unfold list_append.
    destruct (locations_of user (user_locations w)); simpl;
      eexists; eexists; reflexivity. }
  destruct Hshape as (first & rest & ->).
  destruct (reply_text_world E u
              ("**Your locations:**" ++ nl ++ "- "
               ++ String.concat (nl ++ "- ") (first :: rest)) true w1)
    as [delivered Hreply].
  exists delivered. rewrite Hreply. reflexivity.
Qed.

End RegistryFacts.

Section PersistFacts.

Variable L : pylib.
Variable E : outside.

Lemma section_options_set_same (section : string)
  (items : list (string * string)) (c : config_parser) :
  section_options (set_section section items c) section = Some items.
Proof. unfold section_options, set_section. simpl. apply assoc_set_same. Qed.

Lemma section_options_set_other (section section' : string)
  (items : list (string * string)) (c : config_parser) :
  section' <> section ->
  section_options (set_section section items c) section'
  = section_options c section'.
Proof.
  intros Hne. unfold section_options, set_section. simpl.
  apply assoc_set_other. exact Hne.
Qed.

Lemma config_step_refl (w : world) : config_step w w.
Proof.
  unfold config_step. split; [apply same_registry_refl |].
  do 4 (split; [reflexivity |]).
  split; [intros section _ |]; reflexivity.
Qed.

Lemma config_step_trans (w1 w2 w3 : world) :
  config_step w1 w2 -> config_step w2 w3 -> config_step w1 w3.
Proof.
  intros (Hr & Ht & Hc & Hi & Hd & Hs & Hl)
    (Hr' & Ht' & Hc' & Hi' & Hd' & Hs' & Hl').
  split; [exact (same_registry_trans _ _ _ Hr Hr') |].
  do 4 (split; [congruence |]). split; [| congruence].
  intros section Hne. rewrite (Hs' section Hne). apply Hs. exact Hne.
Qed.

(** Replacing the options of [LOCATIONS] in a parser that has the
    section. *)
Lemma config_step_locations (items : list (string * string)) (w : world) :
  has_section (config w) "LOCATIONS" = true ->
  config_step w (set_config (set_section "LOCATIONS" items (config w)) w).
Proof.
  intros Hhas. unfold config_step. split; [repeat split |].
  do 4 (split; [reflexivity |]). split.
  - intros section Hne. simpl. apply section_options_set_other. exact Hne.
  - simpl. unfold has_section at 1. rewrite section_options_set_same.
    symmetry. exact Hhas.
Qed.

Lemma config_set_cases (section key value : string) (c : config_parser) :
  config_set L section key value c
  = if value_accepted L value then
      match section_options c section with
      | Some items => Ok (set_section section (assoc_set key value items) c)
      | None => Raise NoSectionError
      end
    else Raise ValueError.
Proof.
  unfold config_set, check_value, value_accepted.
  destruct (String.eqb value EmptyString), (before_set_ok L value);
    reflexivity.
Qed.

Lemma sync_locations_step (item : string * list string) (w : world) :
  config_step w (fst (sync_locations L item w))
  /\ (if item_accepted L (has_section (config w) "LOCATIONS") item
      then snd (sync_locations L item w) = Ok tt
      else snd (sync_locations L item w) = Raise ValueError
           \/ snd (sync_locations L item w) = Raise NoSectionError).
Proof.
  destruct item as [user locations].
  unfold sync_locations, item_accepted, bind, read, modify, lift, ret.
  cbn beta iota zeta. cbn [fst snd].
  destruct locations as [| city rest].
  - unfold config_has_option, config_remove_option.
    destruct (section_options (config w) "LOCATIONS") as [items |] eqn:Hsec;
      [| cbn [fst snd]; split; [apply config_step_refl | reflexivity]].
    assert (Hhas : has_section (config w) "LOCATIONS" = true)
      by (unfold has_section; rewrite Hsec; reflexivity).
    destruct (assoc (lower L user) items),
      (assoc (lower L user) (default_options (config w)));
      cbn [fst snd]; (split; [| reflexivity]);
      first [apply config_step_locations; exact Hhas
            | apply config_step_refl].
  - rewrite config_set_cases. unfold has_section.
    destruct (value_accepted L (String.concat "," (city :: rest)));
      cbn [andb fst snd];
      [| split; [apply config_step_refl | left; reflexivity]].
    destruct (section_options (config w) "LOCATIONS") as [items |] eqn:Hsec;
      cbn [fst snd].
    + split; [| reflexivity]. apply config_step_locations.
      unfold has_section. rewrite Hsec. reflexivity.
    + split; [apply config_step_refl | right; reflexivity].
Qed.

Lemma sync_loop_step (items : list (string * list string)) (w : world) :
  config_step w (fst (for_each items (sync_locations L) w))
  /\ (if forallb (item_accepted L (has_section (config w) "LOCATIONS")) items
      then snd (for_each items (sync_locations L) w) = Ok tt
      else snd (for_each items (sync_locations L) w) = Raise ValueError
           \/ snd (for_each items (sync_locations L) w)
              = Raise NoSectionError).
Proof.
  revert w. induction items as [| item rest IH]; intros w; simpl.
  - split; [apply config_step_refl | reflexivity].
  - unfold bind.
    destruct (sync_locations_step item w) as (Hstep & Hres).
    destruct (sync_locations L item w) as [w1 [[] | e]]; cbn [fst snd] in *.
    + destruct (item_accepted L (has_section (config w) "LOCATIONS") item);
        [| destruct Hres as [H | H]; discriminate H].
      destruct (IH w1) as (Hstep' & Hres').
      assert (Hhas : has_section (config w1) "LOCATIONS"
                     = has_section (config w) "LOCATIONS") by apply Hstep.
      rewrite Hhas in Hres'. cbn [andb].
      split; [exact (config_step_trans _ _ _ Hstep Hstep') | exact Hres'].
    + destruct (item_accepted L (has_section (config w) "LOCATIONS") item);
        [discriminate Hres |].
      cbn [andb]. split; assumption.
Qed.

Lemma update_config_file_unfold (w : world) :
  update_config_file L E w
  = match
      config_set L "TELEGRAM" "whitelisted_users"
        (String.concat "," (WHITELISTED_USERS w)) (config w)
    with
    | Raise e => (w, Raise e)
    | Ok c1 =>
        match
          for_each (user_locations w) (sync_locations L) (set_config c1 w)
        with
        | (w2, Ok _) => write_config_ini E w2
        | (w2, Raise e) => (w2, Raise e)
        end
    end.
Proof.
  unfold update_config_file, bind, read, lift, modify.
  destruct (config_set L "TELEGRAM" "whitelisted_users"
              (String.concat "," (WHITELISTED_USERS w)) (config w));
    reflexivity.
Qed.

(** The world in which the loop of [update_config_file] starts. *)
Lemma has_locations_after_whitelist (items : list (string * string))
  (c : config_parser) :
  has_section (set_section "TELEGRAM" items c) "LOCATIONS"
  = has_section c "LOCATIONS".
Proof.
  unfold has_section.
  rewrite section_options_set_other by discriminate. reflexivity.
Qed.

(** X12.  [update_config_file] never touches the registry, and it opens
    [config.ini] exactly when every [config.set] went through: the joined
    whitelist is accepted and the parser has [TELEGRAM], and for every
    recipient with locations the joined list is accepted and the parser has
    [LOCATIONS].  Then the trace shows the one attempt on the file: written
    (the function returns, the file holds the [config] object, and the
    [WHITELISTED_USERS] option is the whitelist joined by commas), not
    opened ([OSError], the file as before), broken off ([OSError], the file
    damaged) or not encodable ([UnicodeEncodeError], the file damaged).
    Otherwise it ends in [ValueError] or [NoSectionError] without having
    touched the file. *)
Theorem update_config_file_outcomes (w : world) :
  let w' := fst (update_config_file L E w) in
  let outcome := snd (update_config_file L E w) in
  same_registry w w'
  /\ if config_accepts L w then
       trace w' = list_append (trace w) (Saved (file_write E (clock w)))
       /\ match file_write E (clock w) with
          | Written =>
              outcome = Ok tt
              /\ config_ini w' = Some (config w')
              /\ exists items,
                   section_options (config w') "TELEGRAM" = Some items
                   /\ assoc "whitelisted_users" items
                      = Some (String.concat "," (WHITELISTED_USERS w))
          | OpenFails => outcome = Raise OSError /\ config_ini w' = config_ini w
          | WriteFails => outcome = Raise OSError /\ config_ini w' = None
          | EncodeFails =>
              outcome = Raise UnicodeEncodeError /\ config_ini w' = None
          end
     else
       (outcome = Raise ValueError \/ outcome = Raise NoSectionError)
       /\ trace w' = trace w
       /\ config_ini w' = config_ini w.
Proof.
  intros w' outcome. split; [apply frames_update_config_file |].
  subst w' outcome. unfold config_accepts.
  rewrite update_config_file_unfold, config_set_cases.
  destruct (value_accepted L (String.concat "," (WHITELISTED_USERS w)));
    cbn [andb fst snd];
    [| split; [left; reflexivity | split; reflexivity]].
  unfold has_section at 1.
  destruct (section_options (config w) "TELEGRAM") as [titems |];
    cbn [andb fst snd];
    [| split; [right; reflexivity | split; reflexivity]].
  set (w1 := set_config _ w).
  destruct (sync_loop_step (user_locations w) w1)
    as ((_ & Htrace & Hclock & Hini & _ & Hother & _) & Hres).
  assert (Hhas : has_section (config w1) "LOCATIONS"
                 = has_section (config w) "LOCATIONS")
    by apply has_locations_after_whitelist.
  rewrite Hhas in Hres.
  destruct (forallb (item_accepted L (has_section (config w) "LOCATIONS"))
              (user_locations w)).
  - destruct (for_each (user_locations w) (sync_locations L) w1)
      as [w2 [[] | e]]; cbn [fst snd] in *; [| discriminate Hres].
    unfold write_config_ini. rewrite Hclock. change (clock w1) with (clock w).
    assert (Hsaved : forall o w3,
              trace w3 = trace w2 ->
              trace (record_event (Saved o) w3)
              = list_append (trace w) (Saved o)).
    { intros o w3 H3. unfold record_event. simpl. rewrite H3, Htrace.
      reflexivity. }
    destruct (file_write E (clock w)); cbn [fst snd];
      (split; [apply Hsaved; reflexivity |]).
    + split; [reflexivity |]. split; [reflexivity |].
      exists (assoc_set "whitelisted_users"
                (String.concat "," (WHITELISTED_USERS w)) titems).
      simpl. rewrite (Hother "TELEGRAM") by discriminate.
      unfold w1. simpl. rewrite section_options_set_same.
      split; [reflexivity | apply assoc_set_same].
    + split; [reflexivity | exact Hini].
    + split; reflexivity.
    + split; reflexivity.
  - destruct (for_each (user_locations w) (sync_locations L) w1)
      as [w2 [[] | e]]; cbn [fst snd] in *.
    + destruct Hres as [H | H]; discriminate H.
    + split; [| split; [exact Htrace | exact Hini]].
      destruct Hres as [H | H]; [left | right]; exact H.
Qed.

(** What a persist that returned has done. *)
Lemma update_config_file_returns (w : world) :
  snd (update_config_file L E w) = Ok tt ->
  exists titems w2,
    section_options (config w) "TELEGRAM" = Some titems
    /\ for_each (user_locations w) (sync_locations L)
         (set_config
            (set_section "TELEGRAM"
               (assoc_set "whitelisted_users"
                  (String.concat "," (WHITELISTED_USERS w)) titems)
               (config w)) w)
       = (w2, Ok tt)
    /\ update_config_file L E w
       = (record_event (Saved Written)
            (set_config_ini (Some (config w2)) w2), Ok tt).
Proof.
  rewrite update_config_file_unfold, config_set_cases.
  destruct (value_accepted L (String.concat "," (WHITELISTED_USERS w)));
    [| discriminate].
  destruct (section_options (config w) "TELEGRAM") as [titems |];
    [| discriminate].
  destruct (for_each (user_locations w) (sync_locations L) _)
    as [w2 [[] | e]] eqn:Hloop; [| discriminate].
  unfold write_config_ini.
  destruct (file_write E (clock w2)); cbn [snd]; try discriminate.
  intros _. exists titems, w2. repeat split. exact Hloop.
Qed.

Lemma assoc_In {V : Type} (k : string) (v : V) (d : list (string * V)) :
  assoc k d = Some v -> In (k, v) d.
Proof.
  induction d as [| [k' v'] rest IH]; simpl; [discriminate |].
  destruct (String.eqb k k') eqn:Hk.
  - apply String.eqb_eq in Hk. subst k'. intros H. injection H as <-.
    left. reflexivity.
  - intros H. right. apply IH. exact H.
Qed.

Lemma persist_needs_section (w : world) :
  locations_section (config w) = None ->
  (exists user locations,
     In (user, locations) (user_locations w) /\ locations <> []) ->
  (snd (update_config_file L E w) = Raise NoSectionError
   \/ snd (update_config_file L E w) = Raise ValueError)
  /\ trace (fst (update_config_file L E w)) = trace w
  /\ config_ini (fst (update_config_file L E w)) = config_ini w.
Proof.
  intros Hnone (user & locations & Hitem & Hsome).
  rewrite update_config_file_unfold, config_set_cases.
  destruct (value_accepted L (String.concat "," (WHITELISTED_USERS w)));
    [| cbn [fst snd]; repeat split; right; reflexivity].
  destruct (section_options (config w) "TELEGRAM") as [titems |];
    [| cbn [fst snd]; repeat split; left; reflexivity].
  set (w1 := set_config _ w).
  destruct (sync_loop_step (user_locations w) w1)
    as ((_ & Htrace & _ & Hini & _ & _ & _) & Hres).
  assert (Hhas : has_section (config w1) "LOCATIONS" = false).
  { unfold w1. simpl. rewrite has_locations_after_whitelist.
    unfold has_section. fold (locations_section (config w)).
    rewrite Hnone. reflexivity. }
  rewrite Hhas in Hres.
  assert (Hrefused : forallb (item_accepted L false) (user_locations w)
                     = false).
  { destruct (forallb (item_accepted L false) (user_locations w)) eqn:Hall;
      [| reflexivity].
    rewrite forallb_forall in Hall. specialize (Hall _ Hitem).
    unfold item_accepted in Hall. simpl in Hall.
    destruct locations; [contradiction |].
    rewrite andb_false_r in Hall. discriminate Hall. }
  rewrite Hrefused in Hres.
  destruct (for_each (user_locations w) (sync_locations L) w1)
    as [w2 [[] | e]]; cbn [fst snd] in *.
  - destruct Hres as [H | H]; discriminate H.
  - split; [| split; [exact Htrace | exact Hini]].
    destruct Hres as [H | H]; [right | left]; exact H.
Qed.

(** X13.  When [config.ini] had no [LOCATIONS] section, an add of a new
    location by a whitelisted recipient that the probe accepted cannot be
    persisted: the handler ends in [NoSectionError] (or in the [ValueError]
    of the value check), sends no confirmation, leaves the file as it was
    and keeps the location in memory. *)
Theorem add_without_locations_section (u : update) (args : list string)
  (w : world) :
  let user := from_user_id u in
  let city := join_args args in
  let w' := fst (add_command L E u args w) in
  str_in user (WHITELISTED_USERS w) = true ->
  args <> [] ->
  truthy (weather_response E (clock w) city 1) = true ->
  in_lower L city (locations_of user (user_locations w)) = false ->
  locations_section (config w) = None ->
  (snd (add_command L E u args w) = Raise NoSectionError
   \/ snd (add_command L E u args w) = Raise ValueError)
  /\ trace w' = list_append (trace w) (Fetched city 1)
  /\ config_ini w' = config_ini w
  /\ locations_of user (user_locations w')
     = list_append (locations_of user (user_locations w)) city.
Proof.
  intros user city w' Hin Hargs Hprobe Hnew Hnone. subst w'.
  rewrite add_command_cases by assumption. fold user city.
  rewrite Hprobe, Hnew. cbn [negb].
  set (w1 := with_added user city (record_event (Fetched city 1) w)).
  pose proof (locations_of_with_added user city user
                (record_event (Fetched city 1) w)) as Hthere.
  rewrite String.eqb_refl in Hthere. fold w1 in Hthere.
  change (user_locations (record_event (Fetched city 1) w))
    with (user_locations w) in Hthere.
  assert (Hsome : exists user locations,
            In (user, locations) (user_locations w1) /\ locations <> []).
  { exists user, (list_append (locations_of user (user_locations w)) city).
    split.
    - apply assoc_In. unfold w1, with_added. simpl. apply assoc_set_same.
    - unfold list_append.
      destruct (locations_of user (user_locations w)); discriminate. }
  destruct (persist_needs_section w1 Hnone Hsome) as (Hres & Htrace & Hini).
  pose proof (frames_update_config_file L E w1) as (_ & _ & Hloc).
  unfold bind.
  destruct (update_config_file L E w1) as [w2 [[] | e]]; cbn [fst snd] in *.
  - destruct Hres as [H | H]; discriminate H.
  - split; [exact Hres |]. split; [exact Htrace |]. split; [exact Hini |].
    rewrite Hloc. exact Hthere.
Qed.

(** *** What the file holds, and what a restart reads back *)

Lemma assoc_notin {V : Type} (k : string) (d : list (string * V)) :
  ~ In k (map fst d) -> assoc k d = None.
Proof.
  induction d as [| [k' v'] rest IH]; simpl; intros Hk; [reflexivity |].
  destruct (String.eqb k k') eqn:Heq.
  - apply String.eqb_eq in Heq. exfalso. apply Hk. left. congruence.
  - apply IH. intros Hin. apply Hk. right. exact Hin.
Qed.

Lemma assoc_cons {V : Type} (k k' : string) (v : V) (d : list (string * V)) :
  assoc k ((k', v) :: d) = if String.eqb k k' then Some v else assoc k d.
Proof. reflexivity. Qed.

Lemma assoc_remove_other {V : Type} (k k' : string) (d : list (string * V)) :
  k' <> k -> assoc k' (assoc_remove k d) = assoc k' d.
Proof.
  intros Hne. induction d as [| [k0 v0] rest IH]; simpl; [reflexivity |].
  destruct (String.eqb k k0) eqn:Hk; simpl.
  - apply String.eqb_eq in Hk. subst k0.
    apply String.eqb_neq in Hne. rewrite Hne. reflexivity.
  - destruct (String.eqb k' k0); [reflexivity | exact IH].
Qed.

Lemma keys_assoc_remove {V : Type} (k x : string) (d : list (string * V)) :
  In x (map fst (assoc_remove k d)) -> In x (map fst d).
Proof.
  induction d as [| [k0 v0] rest IH]; simpl; [tauto |].
  destruct (String.eqb k k0); simpl; [tauto |].
  intros [H | H]; [left; exact H | right; exact (IH H)].
Qed.

Lemma assoc_remove_same {V : Type} (k : string) (d : list (string * V)) :
  NoDup (map fst d) -> assoc k (assoc_remove k d) = None.
Proof.
  induction d as [| [k0 v0] rest IH]; simpl; intros Hnd; [reflexivity |].
  apply NoDup_cons_iff in Hnd. destruct Hnd as [Hfresh Hrest].
  destruct (String.eqb k k0) eqn:Hk; simpl.
  - apply String.eqb_eq in Hk. subst k0. apply assoc_notin. exact Hfresh.
  - rewrite Hk. apply IH. exact Hrest.
Qed.

Lemma NoDup_assoc_remove {V : Type} (k : string) (d : list (string * V)) :
  NoDup (map fst d) -> NoDup (map fst (assoc_remove k d)).
Proof.
  induction d as [| [k0 v0] rest IH]; simpl; intros Hnd; [exact Hnd |].
  apply NoDup_cons_iff in Hnd. destruct Hnd as [Hfresh Hrest].
  destruct (String.eqb k k0); simpl; [exact Hrest |].
  apply NoDup_cons_iff. split; [| exact (IH Hrest)].
  intros Hin. apply Hfresh. exact (keys_assoc_remove k k0 rest Hin).
Qed.

Lemma keys_assoc_set {V : Type} (k x : string) (v : V)
  (d : list (string * V)) :
  In x (map fst (assoc_set k v d)) -> x = k \/ In x (map fst d).
Proof.
  induction d as [| [k0 v0] rest IH]; simpl.
  - intros [H | []]. left. congruence.
  - destruct (String.eqb k k0) eqn:Hk; simpl.
    + apply String.eqb_eq in Hk. subst k0. tauto.
    + intros [H | H]; [right; left; exact H |].
      destruct (IH H) as [H' | H']; [left | right; right]; exact H'.
Qed.

Lemma NoDup_assoc_set {V : Type} (k : string) (v : V)
  (d : list (string * V)) :
  NoDup (map fst d) -> NoDup (map fst (assoc_set k v d)).
Proof.
  induction d as [| [k0 v0] rest IH]; simpl; intros Hnd.
  - constructor; [intros [] | constructor].
  - pose proof Hnd as Hnd'.
    apply NoDup_cons_iff in Hnd. destruct Hnd as [Hfresh Hrest].
    destruct (String.eqb k k0) eqn:Hk; simpl.
    + apply String.eqb_eq in Hk. subst k0. exact Hnd'.
    + apply NoDup_cons_iff. split; [| exact (IH Hrest)].
      intros Hin. apply keys_assoc_set in Hin.
      destruct Hin as [Heq | Hin]; [| exact (Hfresh Hin)].
      apply String.eqb_neq in Hk. congruence.
Qed.

Lemma locations_section_set (items : list (string * string))
  (c : config_parser) :
  locations_section (set_section "LOCATIONS" items c) = Some items.
Proof. apply section_options_set_same. Qed.

Lemma sync_locations_option (user : string) (locations : list string)
  (w w1 : world) (key : string) :
  sync_locations L (user, locations) w = (w1, Ok tt) ->
  lower L user = user ->
  section_keys_distinct (config w) ->
  section_keys_distinct (config w1)
  /\ section_lookup (config w1) key
     = if String.eqb key user
       then match locations with
            | [] => None
            | _ => Some (String.concat "," locations)
            end
       else section_lookup (config w) key.
Proof.
  unfold sync_locations, bind, read, modify, lift, ret.
  cbn beta iota zeta. cbn [fst snd]. intros Hrun Hlower Hnd.
  rewrite Hlower in Hrun.
  unfold section_keys_distinct, section_lookup in *.
  destruct locations as [| city rest].
  - unfold config_has_option, config_remove_option in Hrun.
    fold (locations_section (config w)) in Hrun.
    destruct (locations_section (config w)) as [items |] eqn:Hsec.
    + destruct (assoc user items) as [old |] eqn:Hold.
      * injection Hrun as <-. simpl. rewrite locations_section_set.
        split; [apply NoDup_assoc_remove; exact Hnd |].
        destruct (String.eqb key user) eqn:Hk.
        -- apply String.eqb_eq in Hk. subst key.
           apply assoc_remove_same. exact Hnd.
        -- apply assoc_remove_other. apply String.eqb_neq. exact Hk.
      * assert (Hgone : forall w2,
                  config w2 = config w \/
                  config w2
                  = set_section "LOCATIONS" (assoc_remove user items)
                      (config w) ->
                  match locations_section (config w2) with
                  | Some items' => NoDup (map fst items')
                  | None => True
                  end
                  /\ match locations_section (config w2) with
                     | Some items' => assoc key items'
                     | None => None
                     end
                     = if String.eqb key user then None else assoc key items).
        { intros w2 [-> | ->].
          - rewrite Hsec. split; [exact Hnd |].
            destruct (String.eqb key user) eqn:Hk; [| reflexivity].
            apply String.eqb_eq in Hk. subst key. exact Hold.
          - rewrite locations_section_set.
            split; [apply NoDup_assoc_remove; exact Hnd |].
            destruct (String.eqb key user) eqn:Hk.
            + apply String.eqb_eq in Hk. subst key.
              apply assoc_remove_same. exact Hnd.
            + apply assoc_remove_other. apply String.eqb_neq. exact Hk. }
        destruct (assoc user (default_options (config w)));
          injection Hrun as <-; apply Hgone;
          [right | left]; reflexivity.
    + injection Hrun as <-. rewrite Hsec. split; [exact I |].
      destruct (String.eqb key user); reflexivity.
  - rewrite config_set_cases in Hrun.
    destruct (value_accepted L (String.concat "," (city :: rest)));
      [| discriminate Hrun].
    fold (locations_section (config w)) in Hrun.
    destruct (locations_section (config w)) as [items |];
      [| discriminate Hrun].
    injection Hrun as <-. simpl. rewrite locations_section_set.
    split; [apply NoDup_assoc_set; exact Hnd |].
    destruct (String.eqb key user) eqn:Hk.
    + apply String.eqb_eq in Hk. subst key. apply assoc_set_same.
    + apply assoc_set_other. apply String.eqb_neq. exact Hk.
Qed.

Lemma sync_loop_options (items : list (string * list string)) :
  NoDup (map fst items) ->
  (forall user locations, In (user, locations) items -> lower L user = user) ->
  forall w w' key,
    for_each items (sync_locations L) w = (w', Ok tt) ->
    section_keys_distinct (config w) ->
    section_keys_distinct (config w')
    /\ section_lookup (config w') key
       = match assoc key items with
         | Some [] => None
         | Some locations => Some (String.concat "," locations)
         | None => section_lookup (config w) key
         end.
Proof.
  induction items as [| [user locations] rest IH];
    intros Hnd Hlower w w' key Hrun Hdistinct.
  - simpl in Hrun. injection Hrun as <-. split; [exact Hdistinct |].
    reflexivity.
  - simpl in Hnd. apply NoDup_cons_iff in Hnd. destruct Hnd as [Hfresh Hnd].
    simpl in Hrun. unfold bind in Hrun.
    destruct (sync_locations L (user, locations) w) as [w1 [[] | e]] eqn:Hstep;
      [| discriminate Hrun].
    destruct (sync_locations_option user locations w w1 key Hstep
                (Hlower user locations (or_introl eq_refl)) Hdistinct)
      as [Hd1 Hlook1].
    destruct (IH Hnd
                (fun u l Hin => Hlower u l (or_intror Hin))
                w1 w' key Hrun Hd1) as [Hd' Hlook'].
    split; [exact Hd' |].
    rewrite Hlook', assoc_cons.
    destruct (String.eqb key user) eqn:Hk.
    + apply String.eqb_eq in Hk. subst key.
      rewrite (assoc_notin user rest Hfresh). rewrite Hlook1.
      destruct locations; reflexivity.
    + destruct (assoc key rest) as [[| c l] |]; try reflexivity.
      exact Hlook1.
Qed.

(** The [LOCATIONS] section of the parser that a persist wrote. *)
Lemma saved_section_options (w : world) (key : string) :
  NoDup (map fst (user_locations w)) ->
  (forall user locations,
     In (user, locations) (user_locations w) -> lower L user = user) ->
  section_keys_distinct (config w) ->
  snd (update_config_file L E w) = Ok tt ->
  let saved := config (fst (update_config_file L E w)) in
  config_ini (fst (update_config_file L E w)) = Some saved
  /\ section_keys_distinct saved
  /\ section_lookup saved key = persisted_option w key
  /\ default_options saved = default_options (config w).
Proof.
  intros Hnd Hlower Hdistinct Hok.
  destruct (update_config_file_returns w Hok)
    as (titems & w2 & _ & Hloop & ->).
  cbn [fst]. change (config (record_event _ _)) with (config w2).
  split; [reflexivity |].
  match type of Hloop with
  | for_each _ _ ?w1 = _ =>
      assert (H1 : locations_section (config w1)
                   = locations_section (config w))
        by (apply section_options_set_other; discriminate);
      destruct (sync_loop_options (user_locations w) Hnd Hlower w1 w2 key
                  Hloop) as [Hd2 Hlook];
      [unfold section_keys_distinct; rewrite H1; exact Hdistinct |];
      pose proof (sync_loop_step (user_locations w) w1) as Hstep;
      rewrite Hloop in Hstep
  end.
  split; [exact Hd2 |].
  split.
  - rewrite Hlook. unfold persisted_option, section_lookup. rewrite H1.
    reflexivity.
  - destruct Hstep as ((_ & _ & _ & _ & Hdef & _) & _). exact Hdef.
Qed.

(** X14.  After [update_config_file] returned, the [LOCATIONS] section of
    [config.ini] holds, for every recipient of the registry who has
    locations, the option named by the recipient's id with the locations
    joined by commas; it holds no option for a recipient whose list is
    empty; every other option is as it was.  Recipient ids are distinct and
    in lower case, as Telegram ids are. *)
Theorem persisted_locations (w : world) (key : string) :
  NoDup (map fst (user_locations w)) ->
  (forall user locations,
     In (user, locations) (user_locations w) -> lower L user = user) ->
  section_keys_distinct (config w) ->
  snd (update_config_file L E w) = Ok tt ->
  exists saved,
    config_ini (fst (update_config_file L E w)) = Some saved
    /\ section_keys_distinct saved
    /\ section_lookup saved key = persisted_option w key.
Proof.
  intros Hnd Hlower Hdistinct Hok.
  destruct (update_config_file_returns w Hok)
    as (titems & w2 & _ & Hloop & ->).
  exists (config w2). split; [reflexivity |].
  match type of Hloop with
  | for_each _ _ ?w1 = _ =>
      assert (H1 : locations_section (config w1)
                   = locations_section (config w))
        by (apply section_options_set_other; discriminate);
      destruct (sync_loop_options (user_locations w) Hnd Hlower w1 w2 key
                  Hloop) as [Hd2 Hlook];
      [unfold section_keys_distinct; rewrite H1; exact Hdistinct |]
  end.
  split; [exact Hd2 |].
  rewrite Hlook. unfold persisted_option, section_lookup. rewrite H1.
  reflexivity.
Qed.

(** *** Reading back what was written *)

Lemma append_empty_r (s : string) : s ++ EmptyString = s.
Proof.
  induction s as [| c s IH]; simpl; [reflexivity | rewrite IH; reflexivity].
Qed.

Lemma append_char_assoc (s t : string) (c : ascii) :
  (s ++ String c EmptyString) ++ t = s ++ String c t.
Proof.
  induction s as [| c' s IH]; simpl; [reflexivity | rewrite IH; reflexivity].
Qed.

Lemma split_comma_plain (s t field : string) :
  has_comma s = false ->
  split_comma_aux (s ++ t) field = split_comma_aux t (field ++ s).
Proof.
  revert field. induction s as [| c s IH]; intros field Hplain; simpl.
  - rewrite append_empty_r. reflexivity.
  - simpl in Hplain. apply orb_false_iff in Hplain.
    destruct Hplain as [Hc Hs]. rewrite Hc.
    rewrite IH by exact Hs. rewrite append_char_assoc. reflexivity.
Qed.

Lemma split_comma_join (names : list string) (field : string) :
  Forall (fun s => has_comma s = false) names ->
  split_comma_aux (String.concat "," names) field
  = match names with
    | [] => [field]
    | first :: rest => (field ++ first) :: rest
    end.
Proof.
  revert field. induction names as [| first rest IH]; intros field Hplain.
  - reflexivity.
  - apply Forall_cons_iff in Hplain. destruct Hplain as [Hfirst Hrest].
    destruct rest as [| second rest].
    + simpl. rewrite <- (append_empty_r first) at 1.
      rewrite split_comma_plain by exact Hfirst. reflexivity.
    + change (String.concat "," (first :: second :: rest))
        with (first ++ String "," (String.concat "," (second :: rest))).
      rewrite split_comma_plain by exact Hfirst.
      change (split_comma_aux
                (String "," (String.concat "," (second :: rest)))
                (field ++ first))
        with ((field ++ first)
              :: split_comma_aux (String.concat "," (second :: rest))
                   EmptyString).
      rewrite IH by exact Hrest. reflexivity.
Qed.

Lemma map_strip_plain (names : list string) :
  Forall (plain_name L) names -> map (strip L) names = names.
Proof.
  induction 1 as [| name names (_ & _ & Hstrip) _ IH]; simpl;
    [reflexivity | rewrite Hstrip, IH; reflexivity].
Qed.

Lemma plain_names_comma_free (names : list string) :
  Forall (plain_name L) names ->
  Forall (fun s => has_comma s = false) names.
Proof. apply Forall_impl. intros s [H _]. exact H. Qed.

Lemma read_back_names (names : list string) :
  names <> [] ->
  Forall (plain_name L) names ->
  map (strip L) (split_comma (String.concat "," names)) = names.
Proof.
  intros Hne Hplain. unfold split_comma.
  rewrite split_comma_join by (apply plain_names_comma_free; exact Hplain).
  destruct names as [| first rest]; [contradiction |].
  simpl. apply (map_strip_plain (first :: rest)). exact Hplain.
Qed.

Lemma has_percent_append (a b : string) :
  has_percent (a ++ b) = has_percent a || has_percent b.
Proof.
  induction a as [| c a IH]; simpl; [reflexivity |].
  rewrite IH. apply orb_assoc.
Qed.

Lemma joined_names_percent_free (names : list string) :
  Forall (plain_name L) names ->
  has_percent (String.concat "," names) = false.
Proof.
  induction 1 as [| name names (_ & Hfree & _) Hrest IH]; [reflexivity |].
  destruct names as [| second names]; [exact Hfree |].
  change (String.concat "," (name :: second :: names))
    with (name ++ String "," (String.concat "," (second :: names))).
  rewrite has_percent_append, Hfree. simpl. exact IH.
Qed.

Lemma assoc_app_first {V : Type} (k : string) (a b : list (string * V)) :
  assoc k (a ++ b)%list
  = match assoc k a with
    | Some v => Some v
    | None => assoc k b
    end.
Proof.
  induction a as [| [k' v'] a IH]; simpl; [reflexivity |].
  destruct (String.eqb k k'); [reflexivity | exact IH].
Qed.

Lemma option_of_key {V : Type} (k : string) (items : list (string * V)) :
  In k (map fst items) -> exists v, assoc k items = Some v.
Proof.
  induction items as [| [k' v'] items IH]; simpl; [intros [] |].
  intros [Heq | Hin].
  - subst k'. rewrite String.eqb_refl. eexists. reflexivity.
  - destruct (String.eqb k k'); [eexists; reflexivity | exact (IH Hin)].
Qed.

(** The loading loop over keys whose options read as [get] says. *)
Lemma load_loop_reads (c : config_parser) (get : string -> string)
  (keys : list string) :
  (forall k,
     In k keys -> config_getitem L c "LOCATIONS" (lower L k) = Ok (get k)) ->
  forall d,
    load_loop L c keys d
    = Ok (fold_left
            (fun d k => assoc_set k (map (strip L) (split_comma (get k))) d)
            keys d).
Proof.
  induction keys as [| k keys IH]; intros Hget d; simpl; [reflexivity |].
  rewrite (Hget k) by (left; reflexivity). simpl.
  apply IH. intros k' Hk'. apply Hget. right. exact Hk'.
Qed.

Lemma loaded_lookup (g : string -> list string) (keys : list string)
  (key : string) :
  forall d,
    assoc key (fold_left (fun d k => assoc_set k (g k) d) keys d)
    = if str_in key keys then Some (g key) else assoc key d.
Proof.
  induction keys as [| k keys IH]; intros d; simpl; [reflexivity |].
  rewrite IH. unfold str_in. simpl.
  destruct (existsb (String.eqb key) keys);
    [rewrite orb_true_r; reflexivity |].
  rewrite orb_false_r.
  destruct (String.eqb key k) eqn:Hk.
  - apply String.eqb_eq in Hk. subst k. apply assoc_set_same.
  - apply assoc_set_other. apply String.eqb_neq. exact Hk.
Qed.

(** What the loading loop of the module body finds in the file that a
    persist wrote. *)
Lemma saved_locations_load (w : world) :
  interpolation_plain L ->
  locations_fit L w ->
  snd (update_config_file L E w) = Ok tt ->
  exists d,
    load_locations L (config (fst (update_config_file L E w))) = Ok d
    /\ forall key,
         locations_of key d = locations_of key (user_locations w).
Proof.
  intros Hplain (Hnd & Hitems & Hdistinct & Hstale & Hdef) Hok.
  assert (Hsaved := fun key =>
            saved_section_options w key Hnd
              (fun u l Hin => proj1 (Hitems u l Hin)) Hdistinct Hok).
  cbv zeta in Hsaved.
  set (saved := config (fst (update_config_file L E w))) in *.
  assert (Hlook : forall key,
            section_lookup saved key = persisted_option w key)
    by (intros key; apply (Hsaved key)).
  assert (Hdefs : default_options saved = [])
    by (rewrite <- Hdef; apply (Hsaved EmptyString)).
  clear Hsaved.
  assert (Hregistry : forall key locations,
            assoc key (user_locations w) = Some locations ->
            lower L key = key /\ Forall (plain_name L) locations).
  { intros key locations Hkey. apply (Hitems key locations).
    apply assoc_In. exact Hkey. }
  unfold load_locations. fold (locations_section saved).
  unfold section_lookup in Hlook.
  destruct (locations_section saved) as [items |] eqn:Hsec.
  - unfold proxy_options. rewrite Hdefs. simpl. rewrite app_nil_r.
    set (get := fun k => match assoc k items with
                         | Some v => v
                         | None => EmptyString
                         end).
    assert (Hget : forall k,
              In k (map fst items) ->
              config_getitem L saved "LOCATIONS" (lower L k) = Ok (get k)).
    { intros k Hk. destruct (option_of_key k items Hk) as [v Hv].
      pose proof (Hlook k) as Hp. rewrite Hv in Hp.
      unfold persisted_option in Hp.
      destruct (assoc k (user_locations w)) as [[| city rest] |] eqn:Hreg.
      - discriminate Hp.
      - assert (Hval : v = String.concat "," (city :: rest)) by congruence.
        destruct (Hregistry k (city :: rest) Hreg) as [Hlow Hnames].
        unfold config_getitem, visible_options.
        fold (locations_section saved).
        rewrite Hsec, Hdefs, app_nil_r, Hlow, Hv.
        unfold get. rewrite Hv. apply Hplain. rewrite Hval.
        apply joined_names_percent_free. exact Hnames.
      - rewrite (Hstale k Hreg) in Hp. discriminate Hp. }
    rewrite (load_loop_reads saved get (map fst items) Hget).
    eexists. split; [reflexivity |]. intros key.
    unfold locations_of at 1. rewrite loaded_lookup.
    pose proof (Hlook key) as Hp. unfold persisted_option in Hp.
    unfold locations_of.
    destruct (str_in key (map fst items)) eqn:Hin.
    + apply str_in_In in Hin.
      destruct (option_of_key key items Hin) as [v Hv].
      unfold get. rewrite Hv. rewrite Hv in Hp.
      destruct (assoc key (user_locations w)) as [[| city rest] |] eqn:Hreg.
      * discriminate Hp.
      * assert (Hval : v = String.concat "," (city :: rest)) by congruence.
        rewrite Hval. f_equal. apply read_back_names; [discriminate |].
        exact (proj2 (Hregistry key (city :: rest) Hreg)).
      * rewrite (Hstale key Hreg) in Hp. discriminate Hp.
    + assert (Hnone : assoc key items = None).
      { apply assoc_notin. intros Habs. apply str_in_In in Habs.
        congruence. }
      rewrite Hnone in Hp. simpl.
      destruct (assoc key (user_locations w)) as [[| city rest] |];
        [reflexivity | discriminate Hp | reflexivity].
  - exists []. split; [reflexivity |]. intros key.
    pose proof (Hlook key) as Hp. unfold persisted_option in Hp.
    unfold locations_of. simpl.
    destruct (assoc key (user_locations w)) as [[| city rest] |];
      [reflexivity | discriminate Hp | reflexivity].
Qed.

(** X15.  The locations survive a restart.  When reading leaves values
    without [%] alone, the registry is fit for the round trip,
    [update_config_file] returned and the file reads back as written, the
    loading loop of the module body, run on the file, finds for every
    recipient the list of locations that was in memory (a recipient with an
    empty list is not in the file and reads back as having none); so does
    every restart that gets through. *)
Theorem restart_restores_locations (w : world) (key : string) :
  let w' := fst (update_config_file L E w) in
  interpolation_plain L ->
  locations_fit L w ->
  snd (update_config_file L E w) = Ok tt ->
  reads_back L (config w') ->
  config_ini w' = Some (config w')
  /\ (exists d,
        (c <- config_read L (config w') ;; load_locations L c)%result = Ok d
        /\ locations_of key d = locations_of key (user_locations w))
  /\ (forall w0,
        restart L (config w') = Ok w0 ->
        locations_of key (user_locations w0)
        = locations_of key (user_locations w)).
Proof.
  intros w' Hplain Hfit Hok Hback. subst w'.
  destruct (saved_locations_load w Hplain Hfit Hok) as (d & Hload & Hsame).
  unfold reads_back in Hback.
  split.
  - destruct (update_config_file_returns w Hok) as (_ & w2 & _ & _ & ->).
    reflexivity.
  - split.
    + exists d. rewrite Hback. simpl. split; [exact Hload | apply Hsame].
    + intros w0 Hrestart. unfold restart in Hrestart.
      rewrite Hback in Hrestart. simpl in Hrestart.
      destruct (startup_reads L _ w0 Hrestart) as (_ & _ & _ & _ & _ & Hloc).
      rewrite Hload in Hloc. injection Hloc as <-. apply Hsame.
Qed.

Lemma filter_nonempty_ids (ids : list string) :
  Forall (fun id => plain_name L id /\ id <> EmptyString) ids ->
  filter (fun x => negb (String.eqb x EmptyString)) ids = ids.
Proof.
  induction 1 as [| id ids [_ Hne] _ IH]; simpl; [reflexivity |].
  apply String.eqb_neq in Hne. rewrite Hne, IH. reflexivity.
Qed.

(** What the whitelist lines of the module body compute from the file
    that a persist wrote. *)
Lemma saved_whitelist_reads (w : world) :
  interpolation_plain L ->
  whitelist_fit L w ->
  snd (update_config_file L E w) = Ok tt ->
  let saved := config (fst (update_config_file L E w)) in
  exists admin,
    config_getitem L saved "TELEGRAM" "chat_id" = Ok admin
    /\ config_getitem L saved "TELEGRAM" "whitelisted_users"
       = Ok (String.concat "," (WHITELISTED_USERS w))
    /\ whitelist_with_admin admin
         (stripped_nonempty L (String.concat "," (WHITELISTED_USERS w)))
       = WHITELISTED_USERS w.
Proof.
  intros Hplain (Hne & Hids & options & admin & Hvis & Hadmin & Hfree & Hin)
    Hok.
  destruct (update_config_file_returns w Hok)
    as (titems & w2 & Htel & Hloop & ->).
  cbn [fst]. change (config (record_event _ _)) with (config w2). cbv zeta.
  set (joined := String.concat "," (WHITELISTED_USERS w)) in *.
  assert (Hnames : Forall (plain_name L) (WHITELISTED_USERS w)).
  { eapply Forall_impl; [| exact Hids]. intros id [H _]. exact H. }
  unfold visible_options in Hvis. rewrite Htel in Hvis.
  injection Hvis as <-.
  assert (Hshown : visible_options (config w2) "TELEGRAM"
                   = Some (assoc_set "whitelisted_users" joined titems
                           ++ default_options (config w))%list).
  { match type of Hloop with
    | for_each _ _ ?w1 = _ =>
        pose proof (sync_loop_step (user_locations w) w1) as Hstep;
        rewrite Hloop in Hstep
    end.
    destruct Hstep as ((_ & _ & _ & _ & Hdef & Hother & _) & _).
    cbn [fst] in Hdef, Hother.
    unfold visible_options. rewrite (Hother "TELEGRAM") by discriminate.
    rewrite Hdef. simpl. rewrite section_options_set_same. reflexivity. }
  exists admin. unfold config_getitem. rewrite Hshown.
  rewrite !assoc_app_first.
  rewrite assoc_set_other by discriminate.
  rewrite assoc_app_first in Hadmin. rewrite Hadmin.
  rewrite assoc_set_same.
  split; [apply Hplain; exact Hfree |].
  split; [apply Hplain; apply joined_names_percent_free; exact Hnames |].
  unfold stripped_nonempty, joined.
  rewrite read_back_names by assumption.
  rewrite filter_nonempty_ids by exact Hids.
  unfold whitelist_with_admin. rewrite Hin. reflexivity.
Qed.

(** X16.  The whitelist survives a restart.  When reading leaves values
    without [%] alone, the whitelist is fit for the round trip,
    [update_config_file] returned and the file reads back as written, the
    whitelist lines of the module body, run on the file, compute the
    whitelist that was in memory, in the same order, and do not add the
    admin chat id again; so does every restart that gets through. *)
Theorem restart_restores_whitelist (w : world) :
  let w' := fst (update_config_file L E w) in
  interpolation_plain L ->
  whitelist_fit L w ->
  snd (update_config_file L E w) = Ok tt ->
  reads_back L (config w') ->
  config_ini w' = Some (config w')
  /\ (c <- config_read L (config w') ;; startup_whitelist L c)%result
     = Ok (WHITELISTED_USERS w)
  /\ (forall w0,
        restart L (config w') = Ok w0 ->
        WHITELISTED_USERS w0 = WHITELISTED_USERS w).
Proof.
  intros w' Hplain Hfit Hok Hback. subst w'.
  destruct (saved_whitelist_reads w Hplain Hfit Hok)
    as (admin & Hadmin & Hlisted & Hsame).
  unfold reads_back in Hback.
  split.
  - destruct (update_config_file_returns w Hok) as (_ & w2 & _ & _ & ->).
    reflexivity.
  - split.
    + rewrite Hback. simpl. unfold startup_whitelist.
      rewrite Hadmin. simpl. rewrite Hlisted. simpl. rewrite Hsame.
      reflexivity.
    + intros w0 Hrestart. unfold restart in Hrestart.
      rewrite Hback in Hrestart. simpl in Hrestart.
      destruct (startup_reads L _ w0 Hrestart)
        as (admin' & listed' & Hadmin' & Hlisted' & Hwl & _).
      rewrite Hadmin in Hadmin'. injection Hadmin' as <-.
      rewrite Hlisted in Hlisted'. injection Hlisted' as <-.
      rewrite Hwl. exact Hsame.
Qed.

Lemma assoc_set_keys {V : Type} (k x : string) (v : V)
  (d : list (string * V)) :
  x = k \/ In x (map fst d) -> In x (map fst (assoc_set k v d)).
Proof.
  induction d as [| [k0 v0] rest IH]; simpl.
  - intros [H | []]. left. congruence.
  - destruct (String.eqb k k0) eqn:Hk; simpl.
    + apply String.eqb_eq in Hk. subst k0.
      intros [H | [H | H]];
        [left; congruence | left; exact H | right; exact H].
    + intros [H | [H | H]]; [right; apply IH; left; exact H
                            | left; exact H
                            | right; apply IH; right; exact H].
Qed.

(** Every name that the loading loop goes over is a recipient after it. *)
Lemma load_loop_recipients (c : config_parser) (keys : list string) :
  forall d d',
    load_loop L c keys d = Ok d' ->
    forall key, In key keys \/ In key (map fst d) -> In key (map fst d').
Proof.
  induction keys as [| k keys IH]; intros d d' Hrun key Hkey; simpl in Hrun.
  - injection Hrun as <-. destruct Hkey as [[] | H]. exact H.
  - apply rbind_ok in Hrun. destruct Hrun as (value & _ & Hrun).
    apply (IH _ d' Hrun).
    destruct Hkey as [[<- | H] | H].
    + right. apply assoc_set_keys. left. reflexivity.
    + left. exact H.
    + right. apply assoc_set_keys. right. exact H.
Qed.

(** X17.  An option of [DEFAULT] is loaded as a recipient.  The proxy of
    [LOCATIONS] shows the options of [DEFAULT] next to its own, so when the
    file has the [LOCATIONS] section, every option name of [DEFAULT] is a
    key of [user_locations] after a start-up that got through, and so is
    every option name of the section. *)
Theorem default_options_are_recipients (c : config_parser) (w0 : world)
  (items : list (string * string)) (key : string) :
  startup L c = Ok w0 ->
  section_options c "LOCATIONS" = Some items ->
  In key (map fst items) \/ In key (map fst (default_options c)) ->
  exists locations, assoc key (user_locations w0) = Some locations.
Proof.
  intros Hstart Hsec Hkey.
  destruct (startup_reads L c w0 Hstart) as (_ & _ & _ & _ & _ & Hload).
  unfold load_locations in Hload. rewrite Hsec in Hload.
  apply option_of_key.
  apply (load_loop_recipients c _ [] _ Hload). left.
  unfold proxy_options. apply in_or_app.
  destruct (str_in key (map fst items)) eqn:Hin.
  - left. apply str_in_In. exact Hin.
  - destruct Hkey as [H | H].
    + apply str_in_In in H. congruence.
    + right. apply filter_In. split; [exact H |]. rewrite Hin. reflexivity.
Qed.

End PersistFacts.

Section ReportStructure.

Variable strftime : json -> result string.
Variable repr : json -> string.

Lemma dict_get_is_dict (d : json) (k : string) (default v : json) :
  dict_get d k default = Ok v -> exists kvs, d = JObj kvs.
Proof. destruct d; try discriminate. intros _. eexists. reflexivity. Qed.

Lemma dict_get_returns (kvs : list (string * json)) (k : string)
  (default : json) :
  exists v, dict_get (JObj kvs) k default = Ok v.
Proof. simpl. destruct (assoc k kvs); eexists; reflexivity. Qed.

Lemma get_str_returns (kvs : list (string * json)) (k : string) :
  exists text, get_str repr (JObj kvs) k = Ok text.
Proof.
  unfold get_str. destruct (dict_get_returns kvs k JNull) as [v ->].
  eexists. reflexivity.
Qed.

Lemma rain_forecast_reads_first_day (forecast : json) (rain : string) :
  get_rain_forecast strftime forecast = Ok rain ->
  forall k, exists v, first_day_field forecast k = Ok v.
Proof.
  unfold get_rain_forecast, first_day_field. intros H k.
  apply rbind_ok in H. destruct H as (days & Hdays & H).
  apply rbind_ok in H. destruct H as (day0 & Hday0 & H).
  apply rbind_ok in H. destruct H as (hs & Hhour & _).
  apply dict_get_is_dict in Hhour. destruct Hhour as [kvs ->].
  rewrite Hdays. simpl. rewrite Hday0. simpl. apply dict_get_returns.
Qed.

Lemma suggestions_read_the_index (current forecast : json)
  (suggestions : string) :
  get_suggestions current forecast = Ok suggestions ->
  exists air aqi_index description,
    dict_get current "air_quality" (JObj []) = Ok air
    /\ dict_get air "us-epa-index" (JInt 0) = Ok aqi_index
    /\ aqi_levels_get aqi_index = Ok description.
Proof.
  unfold get_suggestions, suggestions_list. intros H.
  apply rbind_ok in H. destruct H as (l & H & _).
  apply rbind_ok in H. destruct H as (day & _ & H).
  apply rbind_ok in H. destruct H as (umbrella & _ & H).
  apply rbind_ok in H. destruct H as (air & Hair & H).
  apply rbind_ok in H. destruct H as (aqi_index & Haqi & H).
  apply rbind_ok in H. destruct H as (good & Hle & _).
  exists air, aqi_index.
  unfold py_le in Hle. unfold aqi_levels_get.
  destruct (num_val aqi_index) as [q |] eqn:Hnum; [| discriminate Hle].
  destruct aqi_index; try discriminate Hnum; simpl;
    repeat match goal with
           | |- context [Qeq_bool ?a ?b] => destruct (Qeq_bool a b)
           end;
    (eexists; split; [exact Hair | split; [exact Haqi | reflexivity]]).
Qed.

(** X18.  [format_weather_report] returns a report exactly when the weather
    document has dicts (or nothing) under [current] and [forecast], the
    condition block is a dict or absent, and the rain extractor and the
    suggestion engine return on them.  Temperature, humidity, wind, UV for
    display and visibility may be missing or of any type, and the outcome
    does not depend on the city. *)
Theorem report_exists_iff (city : string) (weather_data : json) :
  (exists report,
     format_weather_report strftime repr city weather_data = Ok report)
  <-> exists current forecast condition rain suggestions,
        dict_get weather_data "current" (JObj []) = Ok current
        /\ dict_get weather_data "forecast" (JObj []) = Ok forecast
        /\ dict_get current "condition" (JObj []) = Ok (JObj condition)
        /\ get_rain_forecast strftime forecast = Ok rain
        /\ get_suggestions current forecast = Ok suggestions.
Proof.
  unfold format_weather_report. split.
  - intros (report & H).
    apply rbind_ok in H. destruct H as (current & Hcur & H).
    apply rbind_ok in H. destruct H as (forecast & Hfc & H).
    apply rbind_ok in H. destruct H as (astro & _ & H).
    apply rbind_ok in H. destruct H as (air & _ & H).
    apply rbind_ok in H. destruct H as (aqi_index & _ & H).
    apply rbind_ok in H. destruct H as (description & _ & H).
    apply rbind_ok in H. destruct H as (condition & Hcond & H).
    apply rbind_ok in H. destruct H as (text & Htext & H).
    do 7 (apply rbind_ok in H; destruct H as (? & _ & H)).
    apply rbind_ok in H. destruct H as (rain & Hrain & H).
    apply rbind_ok in H. destruct H as (suggestions & Hsugg & _).
    unfold get_str in Htext. apply rbind_ok in Htext.
    destruct Htext as (v & Hv & _).
    apply dict_get_is_dict in Hv. destruct Hv as [ckvs ->].
    exists current, forecast, ckvs, rain, suggestions.
    repeat split; assumption.
  - intros (current & forecast & condition & rain & suggestions & Hcur & Hfc
            & Hcond & Hrain & Hsugg).
    rewrite Hcur, Hfc. simpl.
    destruct (rain_forecast_reads_first_day forecast rain Hrain "astro")
      as [astro ->].
    destruct (suggestions_read_the_index current forecast suggestions Hsugg)
      as (air & aqi_index & description & -> & Haqi & Hdesc).
    simpl. rewrite Haqi. simpl. rewrite Hdesc. simpl.
    rewrite Hcond. simpl.
    destruct (get_str_returns condition "text") as [text ->]. simpl.
    pose proof Hcond as Hdict. apply dict_get_is_dict in Hdict.
    destruct Hdict as [kvs ->].
    destruct (get_str_returns kvs "temp_c") as [? ->]. simpl.
    destruct (get_str_returns kvs "feelslike_c") as [? ->]. simpl.
    destruct (get_str_returns kvs "humidity") as [? ->]. simpl.
    destruct (get_str_returns kvs "wind_kph") as [? ->]. simpl.
    destruct (get_str_returns kvs "wind_dir") as [? ->]. simpl.
    destruct (get_str_returns kvs "uv") as [? ->]. simpl.
    destruct (get_str_returns kvs "vis_km") as [? ->]. simpl.
    rewrite Hrain. simpl. rewrite Hsugg. simpl.
    eexists. reflexivity.
Qed.

(** One case of the list that [suggestions_list] returns. *)
Ltac umbrella_case :=
  unfold list_append; simpl;
  split;
  [ intros Hin;
    repeat (destruct Hin as [Hin | Hin];
            [first [reflexivity | vm_compute in Hin; discriminate Hin] |]);
    destruct Hin
  | intros Hb; first [discriminate Hb | left; reflexivity] ].

Lemma suggestions_list_umbrella (current forecast day : json) (b : bool)
  (l : list string) :
  first_day_field forecast "day" = Ok day ->
  umbrella_condition day = Ok b ->
  suggestions_list current forecast = Ok l ->
  (In umbrella_advice l <-> b = true).
Proof.
  intros Hday Hcond H. unfold suggestions_list in H.
  rewrite Hday in H. cbn [rbind] in H. rewrite Hcond in H. cbn [rbind] in H.
  apply rbind_ok in H. destruct H as (air & _ & H).
  apply rbind_ok in H. destruct H as (aqi_index & _ & H).
  apply rbind_ok in H. destruct H as (good & _ & H).
  apply rbind_ok in H. destruct H as (uv_index & _ & H).
  apply rbind_ok in H. destruct H as (high & _ & H).
  destruct high.
  - injection H as <-. destruct b, good; umbrella_case.
  - apply rbind_ok in H. destruct H as (moderate & _ & H).
    destruct moderate; injection H as <-; destruct b, good; umbrella_case.
Qed.

(** X19.  The chance of rain is compared with 40, and only on a day whose
    rain flag is false.  With a true flag the umbrella rule fires whatever
    sits under [daily_chance_of_rain]; with a false or missing flag it
    fires exactly when the chance is a number above 40, it does not fire
    when the chance is absent, and a chance that is not a number (a string,
    say) makes [get_suggestions] raise [TypeError]. *)
Theorem chance_read_only_on_dry_days (current forecast : json)
  (day : list (string * json)) :
  day_aggregate forecast day ->
  let flag := match assoc "daily_will_it_rain" day with
              | Some v => v
              | None => JNull
              end in
  (truthy flag = true ->
   umbrella_condition (JObj day) = Ok true
   /\ forall l,
        suggestions_list current forecast = Ok l -> In umbrella_advice l)
  /\ (truthy flag = false ->
      match assoc "daily_chance_of_rain" day with
      | Some chance =>
          match num_val chance with
          | Some q =>
              forall l,
                suggestions_list current forecast = Ok l ->
                (In umbrella_advice l <-> (40 < q)%Q)
          | None => get_suggestions current forecast = Raise TypeError
          end
      | None =>
          forall l,
            suggestions_list current forecast = Ok l ->
            ~ In umbrella_advice l
      end).
Proof.
  intros Hagg flag.
  pose proof (day_aggregate_read forecast day Hagg) as Hday.
  assert (Hflag : dict_get (JObj day) "daily_will_it_rain" JNull = Ok flag).
  { subst flag. simpl. destruct (assoc "daily_will_it_rain" day);
      reflexivity. }
  split; intros Htruth.
  - assert (Hcond : umbrella_condition (JObj day) = Ok true).
    { unfold umbrella_condition. rewrite Hflag. cbn [rbind].
      rewrite Htruth. reflexivity. }
    split; [exact Hcond |]. intros l Hl.
    apply (suggestions_list_umbrella current forecast (JObj day) true l
             Hday Hcond Hl). reflexivity.
  - destruct (assoc "daily_chance_of_rain" day) as [chance |] eqn:Hchance.
    + destruct (num_val chance) as [q |] eqn:Hnum.
      * intros l Hl.
        assert (Hcond : umbrella_condition (JObj day)
                        = Ok (Qlt_bool (inject_Z 40) q)).
        { unfold umbrella_condition. rewrite Hflag. cbn [rbind].
          rewrite Htruth. simpl. rewrite Hchance. simpl.
          unfold py_gt. rewrite Hnum. reflexivity. }
        rewrite (suggestions_list_umbrella current forecast (JObj day) _ l
                   Hday Hcond Hl).
        apply Qlt_bool_iff.
      * unfold get_suggestions, suggestions_list, umbrella_condition.
        rewrite Hday. cbn [rbind]. rewrite Hflag. cbn [rbind].
        rewrite Htruth. simpl. rewrite Hchance. simpl.
        unfold py_gt. rewrite Hnum. reflexivity.
    + intros l Hl.
      assert (Hcond : umbrella_condition (JObj day) = Ok false).
      { unfold umbrella_condition. rewrite Hflag. cbn [rbind].
        rewrite Htruth. simpl. rewrite Hchance. reflexivity. }
      rewrite (suggestions_list_umbrella current forecast (JObj day) _ l
                 Hday Hcond Hl).
      discriminate.
Qed.

Lemma Ok_inj {A : Type} (a b : A) : Ok a = Ok b -> a = b.
Proof. intros H. injection H as H. exact H. Qed.

Lemma append_assoc (a b c : string) : (a ++ b) ++ c = a ++ (b ++ c).
Proof.
  induction a as [| x a IH]; simpl; [reflexivity | rewrite IH; reflexivity].
Qed.

Lemma absent_index_reads_zero (current air aqi_index : json) :
  aqi_absent current ->
  dict_get current "air_quality" (JObj []) = Ok air ->
  dict_get air "us-epa-index" (JInt 0) = Ok aqi_index ->
  aqi_index = JInt 0.
Proof.
  intros (kvs & -> & Habsent) Hair Haqi. simpl in Hair.
  destruct Habsent as [Hnone | (akvs & Hsome & Hnone)].
  - rewrite Hnone in Hair. injection Hair as <-. simpl in Haqi. congruence.
  - rewrite Hsome in Hair. injection Hair as <-. simpl in Haqi.
    rewrite Hnone in Haqi. congruence.
Qed.

Lemma absent_index_suggestions (current forecast : json)
  (suggestions : string) :
  aqi_absent current ->
  get_suggestions current forecast = Ok suggestions ->
  exists l,
    suggestions = bullet_lines l
    /\ In good_air_note l /\ ~ In poor_air_caution l.
Proof.
  intros Habsent H. unfold get_suggestions in H.
  apply rbind_ok in H. destruct H as (l & Hlist & Hs).
  injection Hs as <-. unfold suggestions_list in Hlist.
  apply rbind_ok in Hlist. destruct Hlist as (day & _ & H).
  apply rbind_ok in H. destruct H as (umbrella & _ & H).
  apply rbind_ok in H. destruct H as (air & Hair & H).
  apply rbind_ok in H. destruct H as (aqi_index & Haqi & H).
  rewrite (absent_index_reads_zero current air aqi_index Habsent Hair Haqi)
    in H.
  simpl in H.
  apply rbind_ok in H. destruct H as (uv_index & _ & H).
  apply rbind_ok in H. destruct H as (high & _ & H).
  exists l.
  destruct umbrella, high.
  - injection H as <-. split; [reflexivity |]. split; [simpl; tauto |].
    simpl. intros Hin.
    repeat (destruct Hin as [Hin | Hin]; [vm_compute in Hin; discriminate |]).
    exact Hin.
  - apply rbind_ok in H. destruct H as (moderate & _ & H).
    destruct moderate; injection H as <-;
      (split; [reflexivity |]); (split; [simpl; tauto |]);
      simpl; intros Hin;
      repeat (destruct Hin as [Hin | Hin];
              [vm_compute in Hin; discriminate |]);
      exact Hin.
  - injection H as <-. split; [reflexivity |]. split; [simpl; tauto |].
    simpl. intros Hin.
    repeat (destruct Hin as [Hin | Hin]; [vm_compute in Hin; discriminate |]).
    exact Hin.
  - apply rbind_ok in H. destruct H as (moderate & _ & H).
    destruct moderate; injection H as <-;
      (split; [reflexivity |]); (split; [simpl; tauto |]);
      simpl; intros Hin;
      repeat (destruct Hin as [Hin | Hin];
              [vm_compute in Hin; discriminate |]);
      exact Hin.
Qed.

(** X20.  A weather document without an air-quality index is reported in
    two voices: the report line reads "0 - Unknown", and right below it the
    suggestions say that the air quality is good, never that it is poor. *)
Theorem unknown_air_quality_is_praised (city : string)
  (weather_data current : json) (report : string) :
  dict_get weather_data "current" (JObj []) = Ok current ->
  aqi_absent current ->
  format_weather_report strftime repr city weather_data = Ok report ->
  exists before l,
    report
    = before ++ "*Air Quality*: 0 - Unknown" ++ nl ++ nl
      ++ "**Suggestions for the Day**" ++ nl ++ bullet_lines l
    /\ In good_air_note l
    /\ ~ In poor_air_caution l.
Proof.
  intros Hcur Habsent H. unfold format_weather_report in H.
  rewrite Hcur in H. cbn [rbind] in H.
  apply rbind_ok in H. destruct H as (forecast & _ & H).
  apply rbind_ok in H. destruct H as (astro & _ & H).
  apply rbind_ok in H. destruct H as (air & Hair & H).
  apply rbind_ok in H. destruct H as (aqi_index & Haqi & H).
  rewrite (absent_index_reads_zero current air aqi_index Habsent Hair Haqi)
    in H.
  apply rbind_ok in H. destruct H as (description & Hdesc & H).
  vm_compute in Hdesc. injection Hdesc as <-.
  do 9 (apply rbind_ok in H; destruct H as (? & _ & H)).
  apply rbind_ok in H. destruct H as (rain & _ & H).
  apply rbind_ok in H. destruct H as (suggestions & Hsugg & H).
  destruct (absent_index_suggestions current forecast suggestions Habsent
              Hsugg) as (l & -> & Hgood & Hpoor).
  apply Ok_inj in H. rewrite <- H. clear H.
  eexists. exists l. split; [| split; [exact Hgood | exact Hpoor]].
  change (py_str repr (JInt 0)) with "0".
  set (tail := "*Air Quality*: 0 - Unknown" ++ nl ++ nl
               ++ "**Suggestions for the Day**" ++ nl ++ bullet_lines l).
  change ("*Air Quality*: " ++ "0" ++ " - " ++ "Unknown" ++ nl ++ nl
          ++ "**Suggestions for the Day**" ++ nl ++ bullet_lines l)
    with tail.
  repeat rewrite <- append_assoc.
  reflexivity.
Qed.

End ReportStructure.

(** * The properties on concrete runs *)

Example rain_then_dry :
  get_rain_forecast strftime_utc
    (forecast_of_hours
       [hour_sample 28800 1; hour_sample 32400 1; hour_sample 36000 0])
  = Ok "Rain expected from 08:00 AM to 10:00 AM.".
Proof. reflexivity. Qed.

Example rain_until_the_end :
  get_rain_forecast strftime_utc
    (forecast_of_hours
       [hour_sample 3600 0; hour_sample 50400 1; hour_sample 54000 1])
  = Ok "Rain expected from 02:00 PM onwards.".
Proof. reflexivity. Qed.

Example empty_forecast_day_list_raises :
  get_rain_forecast strftime_utc (JObj [("forecastday", JArr [])])
  = Raise IndexError.
Proof. reflexivity. Qed.

(** The example worlds are what the module body builds from the example
    files. *)
Example example_worlds_start :
  startup example_lib example_config = Ok example_world
  /\ startup example_lib bare_config = Ok bare_world
  /\ startup example_lib crowd_config = Ok crowd_world.
Proof. repeat split. Qed.

(** A file without the [SCHEDULE] section stops the module body, and so
    does a chat id with a stray [%]. *)
Example broken_files_do_not_start :
  startup example_lib
    (mkConfig []
       [("WEATHERAPI", [("api_key", "secret")]);
        ("TELEGRAM",
         [("bot_token", "123:abc"); ("chat_id", "1");
          ("whitelisted_users", "1"); ("admins", "1")])])
  = Raise SystemExit
  /\ startup example_lib (config_of "1%" "1" "1" None)
     = Raise InterpolationError.
Proof. split; reflexivity. Qed.

Lemma admin_stays_whitelisted_witness :
  startup example_lib example_config = Ok example_world
  /\ str_in "1"
       (WHITELISTED_USERS
          (run example_lib fair_weather
             [mkInvocation CmdBuymeacoffee (from_user "9") [];
              mkInvocation CmdRemove (from_user "1") ["Paris"]]
             example_world)) = true.
Proof.
  assert (Hstart : startup example_lib example_config = Ok example_world)
    by reflexivity.
  split; [exact Hstart |].
  destruct (admin_stays_whitelisted example_lib fair_weather example_config
              example_world
              [mkInvocation CmdBuymeacoffee (from_user "9") [];
               mkInvocation CmdRemove (from_user "1") ["Paris"]] Hstart)
    as (admin & Hadmin & _ & Hrun & _).
  vm_compute in Hadmin. injection Hadmin as <-. exact Hrun.
Defined.

(** The reference scan and the source agree on a morning shower. *)
Lemma extract_matches_reference_witness :
  let hours :=
    [hour_sample 28800 1; hour_sample 32400 1; hour_sample 36000 0] in
  let samples :=
    [mkSample "08:00 AM" true; mkSample "09:00 AM" true;
     mkSample "10:00 AM" false] in
  first_day_hours (forecast_of_hours hours) hours
  /\ Forall2 (represents strftime_utc) hours samples
  /\ get_rain_forecast strftime_utc (forecast_of_hours hours)
     = Ok (extract_reference samples).
Proof.
  intros hours samples.
  assert (Hfirst : first_day_hours (forecast_of_hours hours) hours).
  { exists [("forecastday", JArr [JObj [("hour", JArr hours)]])],
      [("hour", JArr hours)], [].
    repeat split. }
  assert (Hrep : Forall2 (represents strftime_utc) hours samples).
  { repeat constructor.
    - exists [("time_epoch", JInt 28800); ("will_it_rain", JInt 1)],
        (JInt 1), (JInt 28800). repeat split.
    - exists [("time_epoch", JInt 32400); ("will_it_rain", JInt 1)],
        (JInt 1), (JInt 32400). repeat split.
    - exists [("time_epoch", JInt 36000); ("will_it_rain", JInt 0)],
        (JInt 0), (JInt 36000). repeat split. }
  split; [exact Hfirst |]. split; [exact Hrep |].
  exact (proj1 (extract_matches_reference strftime_utc
                  (forecast_of_hours hours) hours samples Hfirst Hrep)).
Defined.

(** A sample without the rain flag closes the interval that the sample
    before it opened, and does not open one after a dry sample. *)
Lemma rain_forecast_total_on_missing_fields_witness :
  let hours :=
    [hour_sample 28800 1; JObj [("time_epoch", JInt 32400)];
     JObj [("time_epoch", JInt 36000)]; hour_sample 50400 1] in
  let samples :=
    [mkSample "08:00 AM" true; mkSample "09:00 AM" false;
     mkSample "10:00 AM" false; mkSample "02:00 PM" true] in
  first_day_hours (forecast_of_hours hours) hours
  /\ Forall2 (represents_lenient strftime_utc) hours samples
  /\ get_rain_forecast strftime_utc (forecast_of_hours hours)
     = Ok "Rain expected from 08:00 AM to 09:00 AM, from 02:00 PM onwards.".
Proof.
  intros hours samples.
  assert (Hfirst : first_day_hours (forecast_of_hours hours) hours).
  { exists [("forecastday", JArr [JObj [("hour", JArr hours)]])],
      [("hour", JArr hours)], [].
    repeat split. }
  assert (Hrep : Forall2 (represents_lenient strftime_utc) hours samples).
  { repeat constructor.
    - exists [("time_epoch", JInt 28800); ("will_it_rain", JInt 1)],
        (JInt 28800). repeat split.
    - exists [("time_epoch", JInt 32400)], (JInt 32400). repeat split.
    - exists [("time_epoch", JInt 36000)], (JInt 36000). repeat split.
    - exists [("time_epoch", JInt 50400); ("will_it_rain", JInt 1)],
        (JInt 50400). repeat split. }
  split; [exact Hfirst |]. split; [exact Hrep |].
  exact (proj1 (proj2 (proj2
           (rain_forecast_total_on_missing_fields strftime_utc
              [("forecastday", JArr [JObj [("hour", JArr hours)]])])))
           hours samples Hfirst Hrep).
Defined.

(** C10 fails as stated: a sample that lacks the rain flag, and the time
    stamp with it, raises [KeyError] when it follows a raining sample. *)
Lemma flagless_sample_after_rain_raises :
  flagless (JObj [])
  /\ get_rain_forecast strftime_utc
       (forecast_of_hours [hour_sample 28800 1; JObj []])
     = Raise KeyError.
Proof.
  split; [exists []; split; reflexivity | reflexivity].
Qed.

Lemma muggy_carries :
  carries muggy_current muggy_forecast (mkInput false 45 3 7).
Proof.
  exists [("air_quality", JObj [("us-epa-index", JInt 3)]); ("uv", JInt 7)],
    [("daily_will_it_rain", JInt 0); ("daily_chance_of_rain", JInt 45)],
    [("us-epa-index", JInt 3)].
  split; [reflexivity |].
  split; [eexists; split; reflexivity |].
  repeat split.
Defined.

(** A 45 percent chance of rain on a dry day fires the umbrella rule, index
    3 the poor-air caution and UV 7 the high-UV warning, in that order. *)
Lemma suggest_follows_rules_witness :
  carries muggy_current muggy_forecast (mkInput false 45 3 7)
  /\ get_suggestions muggy_current muggy_forecast
     = Ok (bullet_lines
             [umbrella_advice; poor_air_caution; high_uv_warning]).
Proof.
  split; [exact muggy_carries |].
  destruct (suggest_follows_rules muggy_current muggy_forecast
              (mkInput false 45 3 7) muggy_carries)
    as (umbrella & air & uvs & Hlist & _ & _ & _ & _ & Hget & _).
  rewrite Hget. injection Hlist as <-. reflexivity.
Defined.

(** With no air-quality block at all the engine praises the air. *)
Lemma absent_aqi_reads :
  reads_input (JObj []) (JObj []) (mkInput false 0 0 0).
Proof.
  exists (JObj []), JNull, (JObj []).
  repeat split; try (eexists; split; reflexivity).
Defined.

Lemma air_quality_absent_or_zero_is_good_witness :
  reads_input (JObj []) (JObj []) (mkInput false 0 0 0)
  /\ exists l,
       suggestions_list (JObj []) (JObj []) = Ok l
       /\ In good_air_note l.
Proof.
  split; [exact absent_aqi_reads |].
  destruct (air_quality_absent_or_zero_is_good (JObj []) (JObj [])
              (mkInput false 0 0 0) absent_aqi_reads)
    as (l & Hlist & _ & Hgood).
  exists l. split; [exact Hlist |].
  apply Hgood. right. reflexivity.
Defined.

(** C2 fails as stated: with the index absent the engine emits the
    positive note and no caution. *)
Lemma absent_aqi_gets_no_caution :
  aqi_absent (JObj [])
  /\ suggestions_list (JObj []) (JObj []) = Ok [good_air_note]
  /\ ~ In poor_air_caution [good_air_note].
Proof.
  split; [exists []; split; [reflexivity | left; reflexivity] |].
  split; [reflexivity |].
  intros [H | []]. vm_compute in H. discriminate H.
Qed.

(** C1 fails as stated: recipient 1 adds Lyon while [config.ini] cannot be
    opened; the handler ends in [OSError] and Lyon is in the list that
    [list_command] reads. *)
Lemma failed_persist_leaves_location :
  let r := add_command example_lib read_only_disk (from_user "1") ["Lyon"]
             example_world in
  snd r = Raise OSError
  /\ locations_of "1" (user_locations example_world) = ["Paris"; "Oslo"]
  /\ locations_of "1" (user_locations (fst r)) = ["Paris"; "Oslo"; "Lyon"]
  /\ locations_of "1" (user_locations (fst r))
     <> locations_of "1" (user_locations example_world).
Proof.
  vm_compute. repeat split. discriminate.
Qed.

(** A location that cannot be encoded fails the write; the handler ends in
    [UnicodeEncodeError] and the location is in memory all the same. *)
Lemma add_persist_failure_keeps_location_witness :
  snd (add_command example_lib narrow_locale (from_user "1") ["Lyon"]
         example_world) = Raise UnicodeEncodeError
  /\ trace (fst (add_command example_lib narrow_locale (from_user "1")
                   ["Lyon"] example_world))
     = [Fetched "Lyon" 1; Saved EncodeFails]
  /\ locations_of "1"
       (user_locations
          (fst (add_command example_lib narrow_locale (from_user "1")
                  ["Lyon"] example_world)))
     = ["Paris"; "Oslo"; "Lyon"].
Proof.
  destruct (proj1 (add_persist_failure_keeps_location example_lib
                     narrow_locale (from_user "1") ["Lyon"] example_world
                     UnicodeEncodeError)
              eq_refl ltac:(discriminate) eq_refl eq_refl eq_refl)
    as [Hrun Hkept].
  split; [rewrite Hrun; reflexivity |].
  split; [rewrite Hrun; reflexivity | exact Hkept].
Defined.

Lemma patchy_formats : fetched_formats example_lib patchy.
Proof.
  intros n city H. simpl in *.
  destruct (Nat.eqb n 4); [discriminate H | eexists; reflexivity].
Defined.

Lemma dispatch_attempts_every_pair_witness :
  fetched_formats example_lib patchy
  /\ exists outcomes w',
       scheduled_weather_update example_lib patchy crowd_world = (w', Ok tt)
       /\ List.length outcomes = 6%nat
       /\ trace w'
          = dispatch_events
              [("1", "Paris"); ("1", "Oslo"); ("2", "Lima"); ("2", "Quito");
               ("3", "Rome"); ("3", "Bern")] outcomes.
Proof.
  split; [exact patchy_formats |].
  destruct (dispatch_attempts_every_pair example_lib patchy crowd_world
              patchy_formats)
    as (outcomes & w' & Hrun & Hlen & Htrace & _).
  exists outcomes, w'. repeat split; assumption.
Defined.

Example patchy_run_reaches_the_last_pair :
  map (fun e =>
         match e with
         | Fetched city _ => (city, true)
         | Message chat _ _ delivered => (chat, delivered)
         | _ => (EmptyString, false)
         end)
    (trace (fst (scheduled_weather_update example_lib patchy crowd_world)))
  = [("Paris", true); ("1", true); ("Oslo", true); ("1", true);
     ("Lima", true); ("2", true); ("Quito", true); ("2", false);
     ("Rome", true); ("3", true); ("Bern", true); ("3", true)].
Proof. vm_compute. reflexivity. Qed.

Lemma add_location_idempotent_under_case_witness :
  let w1 := fst (add_command example_lib fair_weather (from_user "1")
                   ["Lyon"] example_world) in
  let w2 := fst (add_command example_lib fair_weather (from_user "1")
                   ["LYON"] w1) in
  (exists delivered,
     w2 = record_event
            (Message "1" "'LYON' is already in your list." false delivered)
            (record_event (Fetched "LYON" 1) w1))
  /\ user_locations w2 = user_locations w1
  /\ locations_of "1" (user_locations w2) = ["Paris"; "Oslo"; "Lyon"].
Proof.
  intros w1 w2.
  assert (Hnd : NoDup (map ascii_lower ["Paris"; "Oslo"])).
  { repeat constructor; simpl; intros H;
      repeat (destruct H as [H | H]; [discriminate H |]); exact H. }
  destruct (proj1 (add_location_idempotent_under_case example_lib
                     fair_weather)
              (from_user "1") (from_user "1") ["Lyon"] ["LYON"] example_world
              eq_refl Hnd ltac:(discriminate) eq_refl eq_refl
              ltac:(discriminate) eq_refl eq_refl)
    as (Hreply & Hsame & _).
  split; [exact Hreply |]. split; [exact Hsame | reflexivity].
Defined.


Example remove_answers :
  trace (fst (remove_command example_lib fair_weather (from_user "1")
                ["PARIS"] example_world))
  = [Saved Written; Message "1" "Removed 'PARIS'." false true]
  /\ trace (fst (remove_command example_lib fair_weather (from_user "1")
                   ["Rome"] example_world))
     = [Message "1" "'Rome' not found in your list." false true].
Proof. split; vm_compute; reflexivity. Qed.

Lemma gated_command_ignored_witness :
  str_in "9" (WHITELISTED_USERS example_world) = false
  /\ handler example_lib fair_weather CmdAdd (from_user "9") ["Lyon"]
       example_world = (example_world, Ok tt).
Proof.
  split; [reflexivity |].
  exact (gated_command_ignored example_lib fair_weather CmdAdd
           (from_user "9") ["Lyon"] example_world eq_refl eq_refl).
Defined.

(** C8 fails as stated: recipient 9 is not whitelisted, yet the
    self-whitelist command answers and changes the whitelist and the file,
    the start command answers, and the mock command answers a non-admin. *)
Lemma outsider_gets_answers :
  str_in "9" (WHITELISTED_USERS example_world) = false
  /\ (let w' := fst (handler example_lib fair_weather CmdBuymeacoffee
                       (from_user "9") [] example_world) in
      WHITELISTED_USERS w' = ["1"; "9"]
      /\ trace w'
         = [Saved Written;
            Message "9" "You are now whitelisted! Use /start to see commands."
              false true])
  /\ trace (fst (handler example_lib fair_weather CmdStart (from_user "9") []
                   example_world))
     = [Message "9" start_message true true]
  /\ trace (fst (handler example_lib fair_weather CmdMock (from_user "9")
                   ["list"] example_world))
     = [Message "9" "You are not authorized to use this command." false true].
Proof.
  vm_compute. repeat split.
Qed.

(** ** Further runs *)

Lemma weather_command_reports_witness :
  str_in "1" (WHITELISTED_USERS crowd_world) = true
  /\ fetched_formats example_lib patchy
  /\ exists outcomes w',
       weather_command example_lib patchy (from_user "1") [] crowd_world
       = (w', Ok tt)
       /\ List.length outcomes = 2%nat
       /\ trace w'
          = dispatch_events [("1", "Paris"); ("1", "Oslo")] outcomes
       /\ same_registry crowd_world w'.
Proof.
  split; [reflexivity |]. split; [exact patchy_formats |].
  exact (weather_command_reports example_lib patchy (from_user "1") []
           crowd_world eq_refl patchy_formats).
Defined.

Lemma other_recipients_untouched_witness :
  "2" <> "1"
  /\ locations_of "2"
       (user_locations
          (handle example_lib fair_weather
             (mkInvocation CmdAdd (from_user "1") ["Lyon"]) example_world))
     = ["Lima"].
Proof.
  assert (Hne : "2" <> "1") by discriminate.
  split; [exact Hne |].
  exact (other_recipients_untouched example_lib fair_weather
           (mkInvocation CmdAdd (from_user "1") ["Lyon"]) example_world "2"
           Hne).
Defined.

Lemma whitelist_stays_duplicate_free_witness :
  NoDup (WHITELISTED_USERS example_world)
  /\ NoDup
       (WHITELISTED_USERS
          (run example_lib fair_weather
             [mkInvocation CmdBuymeacoffee (from_user "9") [];
              mkInvocation CmdBuymeacoffee (from_user "9") []]
             example_world)).
Proof.
  assert (Hnd : NoDup (WHITELISTED_USERS example_world)).
  { repeat constructor. intros []. }
  split; [exact Hnd |].
  exact (proj1 (whitelist_stays_duplicate_free example_lib fair_weather
                  [mkInvocation CmdBuymeacoffee (from_user "9") [];
                   mkInvocation CmdBuymeacoffee (from_user "9") []]
                  example_world Hnd)).
Defined.

Example twice_whitelisted_once :
  WHITELISTED_USERS
    (run example_lib fair_weather
       [mkInvocation CmdBuymeacoffee (from_user "9") [];
        mkInvocation CmdBuymeacoffee (from_user "9") []]
       example_world)
  = ["1"; "9"].
Proof. reflexivity. Qed.

Lemma mock_stops_before_the_handler_witness :
  str_in "1" (ADMINS example_world) = true
  /\ mock_command example_lib fair_weather (from_user "1") ["list"]
       example_world
     = (example_world, Raise AttributeError).
Proof.
  split; [reflexivity |].
  exact (proj1 (proj2 (mock_stops_before_the_handler example_lib
                         fair_weather (from_user "1") ["list"]
                         example_world))
           eq_refl).
Defined.

Lemma add_then_remove_restores_witness :
  let w1 := fst (add_command example_lib fair_weather (from_user "1")
                   ["Lyon"] example_world) in
  let w2 := fst (remove_command example_lib fair_weather (from_user "1")
                   ["LYON"] w1) in
  locations_of "1" (user_locations w1) = ["Paris"; "Oslo"; "Lyon"]
  /\ locations_of "1" (user_locations w2) = ["Paris"; "Oslo"].
Proof.
  exact (add_then_remove_restores example_lib fair_weather (from_user "1")
           ["Lyon"] ["LYON"] example_world eq_refl ltac:(discriminate)
           ltac:(discriminate) eq_refl eq_refl eq_refl).
Defined.

Lemma remove_twice_is_not_found_witness :
  let w1 := fst (remove_command example_lib fair_weather (from_user "1")
                   ["PARIS"] example_world) in
  exists delivered,
    fst (remove_command example_lib fair_weather (from_user "1") ["paris"] w1)
    = record_event
        (Message "1" "'paris' not found in your list." false delivered) w1.
Proof.
  exact (remove_twice_is_not_found example_lib fair_weather (from_user "1")
           ["PARIS"] ["paris"] example_world eq_refl ltac:(discriminate)
           ltac:(discriminate) eq_refl).
Defined.

Lemma add_without_locations_section_witness :
  locations_section (config bare_world) = None
  /\ snd (add_command example_lib fair_weather (from_user "1") ["Lyon"]
            bare_world) = Raise NoSectionError
  /\ trace (fst (add_command example_lib fair_weather (from_user "1")
                   ["Lyon"] bare_world))
     = [Fetched "Lyon" 1].
Proof.
  split; [reflexivity |]. split; [reflexivity |].
  exact (proj1 (proj2 (add_without_locations_section example_lib
                         fair_weather (from_user "1") ["Lyon"] bare_world
                         eq_refl ltac:(discriminate) eq_refl eq_refl
                         eq_refl))).
Defined.

Lemma example_keys_distinct : NoDup (map fst (user_locations example_world)).
Proof.
  repeat constructor; simpl; intros H;
    repeat (destruct H as [H | H]; [discriminate H |]); exact H.
Defined.

Lemma example_keys_lower (user : string) (locations : list string) :
  In (user, locations) (user_locations example_world) ->
  lower example_lib user = user
  /\ Forall (plain_name example_lib) locations.
Proof.
  intros [H | [H | []]]; injection H as <- <-;
    (split; [reflexivity |]); repeat constructor.
Defined.

Lemma example_section_distinct : section_keys_distinct (config example_world).
Proof.
  simpl. repeat constructor; simpl; intros H;
    repeat (destruct H as [H | H]; [discriminate H |]); exact H.
Defined.

Lemma persisted_locations_witness :
  snd (update_config_file example_lib fair_weather example_world) = Ok tt
  /\ exists saved,
       config_ini
         (fst (update_config_file example_lib fair_weather example_world))
       = Some saved
       /\ section_keys_distinct saved
       /\ section_lookup saved "1" = Some "Paris,Oslo".
Proof.
  split; [reflexivity |].
  exact (persisted_locations example_lib fair_weather example_world "1"
           example_keys_distinct
           (fun u l H => proj1 (example_keys_lower u l H))
           example_section_distinct eq_refl).
Defined.

(** The example host returns a value without [%] as it is stored. *)
Lemma example_interpolation_plain : interpolation_plain example_lib.
Proof.
  intros options value. simpl.
  induction value as [| c value IH]; simpl; [reflexivity |].
  destruct (Ascii.eqb c "%"%char); simpl; [discriminate |].
  intros Hfree. rewrite (IH Hfree). reflexivity.
Defined.

Lemma restart_restores_locations_witness :
  let w' := fst (update_config_file example_lib fair_weather
                   (fst (add_command example_lib fair_weather (from_user "1")
                           ["Lyon"] example_world))) in
  reads_back example_lib (config w')
  /\ exists w0,
       restart example_lib (config w') = Ok w0
       /\ locations_of "1" (user_locations w0) = ["Paris"; "Oslo"; "Lyon"].
Proof.
  intros w'.
  assert (Hback : reads_back example_lib (config w')) by reflexivity.
  split; [exact Hback |].
  destruct (restart example_lib (config w')) as [w0 | e] eqn:Hrestart;
    [| vm_compute in Hrestart; discriminate Hrestart].
  exists w0. split; [reflexivity |].
  assert (Hfit : locations_fit example_lib
                   (fst (add_command example_lib fair_weather (from_user "1")
                           ["Lyon"] example_world))).
  { split.
    - repeat constructor; simpl; intros H;
        repeat (destruct H as [H | H]; [discriminate H |]); exact H.
    - split.
      + intros user locations [H | [H | []]]; injection H as <- <-;
          (split; [reflexivity |]); repeat constructor.
      + split.
        * simpl. repeat constructor; simpl; intros H;
            repeat (destruct H as [H | H]; [discriminate H |]); exact H.
        * split; [| reflexivity].
          intros key Hkey.
          destruct (String.eqb key "1") eqn:H1.
          { apply String.eqb_eq in H1. subst key. vm_compute in Hkey.
            discriminate Hkey. }
          destruct (String.eqb key "2") eqn:H2.
          { apply String.eqb_eq in H2. subst key. vm_compute in Hkey.
            discriminate Hkey. }
          unfold section_lookup.
          replace (locations_section
                     (config
                        (fst (add_command example_lib fair_weather
                                (from_user "1") ["Lyon"] example_world))))
            with (Some [("1", "Paris,Oslo,Lyon"); ("2", "Lima")])
            by reflexivity.
          simpl. rewrite H1, H2. reflexivity. }
  rewrite (proj2 (proj2 (restart_restores_locations example_lib fair_weather
                           (fst (add_command example_lib fair_weather
                                   (from_user "1") ["Lyon"] example_world))
                           "1" example_interpolation_plain Hfit eq_refl
                           Hback))
             w0 Hrestart).
  reflexivity.
Defined.

Lemma example_whitelist_fit :
  whitelist_fit example_lib
    (fst (buymeacoffee_command example_lib read_only_disk (from_user "9") []
            example_world)).
Proof.
  split; [discriminate |]. split.
  - repeat constructor; discriminate.
  - eexists. exists "1". repeat split.
Defined.

(** Recipient 9 is whitelisted while the file cannot be opened; the next
    persist that goes through writes the whitelist, and a restart reads it
    back. *)
Lemma restart_restores_whitelist_witness :
  let w := fst (buymeacoffee_command example_lib read_only_disk
                  (from_user "9") [] example_world) in
  let w' := fst (update_config_file example_lib fair_weather w) in
  reads_back example_lib (config w')
  /\ exists w0,
       restart example_lib (config w') = Ok w0
       /\ WHITELISTED_USERS w0 = ["1"; "9"].
Proof.
  intros w w'.
  assert (Hback : reads_back example_lib (config w')) by reflexivity.
  split; [exact Hback |].
  destruct (restart example_lib (config w')) as [w0 | e] eqn:Hrestart;
    [| vm_compute in Hrestart; discriminate Hrestart].
  exists w0. split; [reflexivity |].
  rewrite (proj2 (proj2 (restart_restores_whitelist example_lib fair_weather
                           w example_interpolation_plain
                           example_whitelist_fit eq_refl Hback))
             w0 Hrestart).
  reflexivity.
Defined.

(** A comma inside a location does not survive the restart: it comes back
    as two locations. *)
Example comma_splits_after_restart :
  let w2 := fst (add_command example_lib fair_weather (from_user "1")
                   ["Paris,"; "Texas"] example_world) in
  locations_of "1" (user_locations w2) = ["Paris"; "Oslo"; "Paris, Texas"]
  /\ match config_ini w2 with
     | Some saved =>
         match restart example_lib saved with
         | Ok w0 =>
             locations_of "1" (user_locations w0)
             = ["Paris"; "Oslo"; "Paris"; "Texas"]
         | Raise _ => False
         end
     | None => False
     end.
Proof. vm_compute. split; reflexivity. Qed.

Lemma chance_read_only_on_dry_days_witness :
  day_aggregate string_chance_forecast
    [("daily_will_it_rain", JInt 0); ("daily_chance_of_rain", JStr "87")]
  /\ get_suggestions calm_current string_chance_forecast = Raise TypeError.
Proof.
  assert (Hday : day_aggregate string_chance_forecast
                   [("daily_will_it_rain", JInt 0);
                    ("daily_chance_of_rain", JStr "87")]).
  { eexists. split; reflexivity. }
  split; [exact Hday |].
  exact (proj2 (chance_read_only_on_dry_days calm_current
                  string_chance_forecast
                  [("daily_will_it_rain", JInt 0);
                   ("daily_chance_of_rain", JStr "87")] Hday)
           eq_refl).
Defined.

(** The threshold is 40: a chance of 41 on a dry day fires the umbrella
    rule, a chance of 40 does not. *)
Example forty_percent_is_not_enough :
  let dry chance :=
    JObj [("forecastday",
           JArr [JObj [("day",
                        JObj [("daily_will_it_rain", JInt 0);
                              ("daily_chance_of_rain", JInt chance)])]])] in
  suggestions_list calm_current (dry 41%Z)
  = Ok [umbrella_advice; good_air_note]
  /\ suggestions_list calm_current (dry 40%Z) = Ok [good_air_note].
Proof. split; reflexivity. Qed.

Lemma unknown_air_quality_is_praised_witness :
  aqi_absent (JObj [])
  /\ exists report before l,
       format_weather_report strftime_utc example_repr "Paris" some_forecast
       = Ok report
       /\ report
          = before ++ "*Air Quality*: 0 - Unknown" ++ nl ++ nl
            ++ "**Suggestions for the Day**" ++ nl ++ bullet_lines l
       /\ In good_air_note l.
Proof.
  assert (Habsent : aqi_absent (JObj [])).
  { exists []. split; [reflexivity | left; reflexivity]. }
  split; [exact Habsent |].
  destruct (format_weather_report strftime_utc example_repr "Paris"
              some_forecast) as [report | e] eqn:Hreport;
    [| vm_compute in Hreport; discriminate Hreport].
  destruct (unknown_air_quality_is_praised strftime_utc example_repr "Paris"
              some_forecast (JObj []) report eq_refl Habsent Hreport)
    as (before & l & Heq & Hgood & _).
  exists report, before, l. repeat split; assumption.
Defined.

Example empty_forecast_days_stop_the_run :
  let bad := JObj [("forecast", JObj [("forecastday", JArr [])])] in
  let E := mkOutside (fun _ _ _ => bad) (fun _ _ _ => JNull)
             (fun _ => false) (fun _ => Written) (fun _ => 0%Z) in
  scheduled_weather_update example_lib E crowd_world
  = (record_event (Fetched "Paris" 3) crowd_world, Raise IndexError).
Proof. reflexivity. Qed.

Lemma list_shows_the_added_location_witness :
  exists delivered,
    fst (list_command fair_weather (from_user "1") []
           (fst (add_command example_lib fair_weather (from_user "1")
                   ["Lyon"] example_world)))
    = record_event
        (Message "1"
           ("**Your locations:**" ++ nl ++ "- Paris" ++ nl ++ "- Oslo" ++ nl
            ++ "- Lyon") true delivered)
        (fst (add_command example_lib fair_weather (from_user "1") ["Lyon"]
                example_world)).
Proof.
  exact (list_shows_the_added_location example_lib fair_weather
           (from_user "1") ["Lyon"] [] example_world eq_refl
           ltac:(discriminate) eq_refl eq_refl).
Defined.

(** A file with a [DEFAULT] option: the option comes up as a recipient
    whose locations are the fields of its value. *)
Lemma default_options_are_recipients_witness :
  let c := mkConfig [("lang", "en")] (sections example_config) in
  exists w0 locations,
    startup example_lib c = Ok w0
    /\ assoc "lang" (user_locations w0) = Some locations.
Proof.
  intros c.
  destruct (startup example_lib c) as [w0 | e] eqn:Hstart;
    [| vm_compute in Hstart; discriminate Hstart].
  destruct (default_options_are_recipients example_lib c w0
              [("1", "Paris,Oslo"); ("2", "Lima")] "lang" Hstart eq_refl
              (or_intror (or_introl eq_refl))) as [locations Hthere].
  exists w0, locations. split; [reflexivity | exact Hthere].
Defined.

Example default_option_is_loaded :
  match
    startup example_lib (mkConfig [("lang", "en")] (sections example_config))
  with
  | Ok w0 =>
      user_locations w0
      = [("1", ["Paris"; "Oslo"]); ("2", ["Lima"]); ("lang", ["en"])]
  | Raise _ => False
  end.
Proof. vm_compute. reflexivity. Qed.

(** A doubled [%] in a location passes [config.set] and comes back single
    after the restart. *)
Example escaped_percent_changes_after_restart :
  let w2 := fst (add_command example_lib fair_weather (from_user "1")
                   ["50%%"] example_world) in
  locations_of "1" (user_locations w2) = ["Paris"; "Oslo"; "50%%"]
  /\ match config_ini w2 with
     | Some saved =>
         match restart example_lib saved with
         | Ok w0 =>
             locations_of "1" (user_locations w0) = ["Paris"; "Oslo"; "50%"]
         | Raise _ => False
         end
     | None => False
     end.
Proof. vm_compute. split; reflexivity. Qed.
